(** * Layout-preserving PDF translator: translation policy, redaction
      geometry, reinsertion ladder and background sampler.

    Shallow embedding of [src/v6.py] ([should_translate_text],
    [translate_text_conservative], [get_font_info],
    [calculate_text_dimensions], [insert_text_with_fallbacks],
    [create_better_redaction_rect] and the page loop of
    [translate_pdf_layout_preserving]), of [detect_background_color],
    [get_font_type], [get_pymupdf_font] and [convert_color_to_rgb] from
    [src/v3.py] and [src/v4.py], and of [translate_text] and
    [shrink_font_to_fit] from [src/v4.py].

    Conventions of the embedding:
    - a Python [str] is a list of Unicode code points ([N]);
    - Python floats that carry page coordinates and font sizes are exact
      rationals ([Q]); module [F64] gives the redaction geometry over
      binary64 numbers, with every operation rounded to nearest;
    - the collaborators (LLM client, PyMuPDF page) are oracles that answer
      each call from the transcript of all earlier calls; the code runs in
      a state-and-exception monad over that transcript. *)

From Stdlib Require Import List ZArith NArith QArith Qminmax Qround Qcanon Qabs Qpower.
From Stdlib Require Import Bool Lia Lqa.
From Stdlib Require Import String Ascii.
Import ListNotations.

Local Open Scope Z_scope.

(* ===================================================================== *)
(** ** Strings *)
(* ===================================================================== *)

Definition char := N.
Definition str := list char.

(** An ASCII literal as a Python string. *)
Definition lit (s : string) : str := map N_of_ascii (list_ascii_of_string s).

Definition str_eq_dec : forall a b : str, {a = b} + {a <> b} :=
  list_eq_dec N.eq_dec.

(** [len(s)] *)
Definition len {A} (s : list A) : Z := Z.of_nat (List.length s).

(** The Unicode character database behind [str.strip], [str.split],
    [str.isalpha], [str.upper], [str.lower] and the [\d] class of [re].
    It belongs to the Python runtime, not to the repository, so the
    program is modelled over an arbitrary database. *)
Record CharTables : Type := {
  isspace : char -> bool;       (* whitespace of strip() and split() *)
  isdecimal : char -> bool;     (* the class \d of a str pattern *)
  isalpha : char -> bool;       (* c.isalpha() *)
  upper : str -> str;           (* s.upper(); may change the length *)
  lower : str -> str            (* s.lower() *)
}.

(** The database restricted to code points below 128; every other code
    point is neither space, digit nor letter and is left alone by
    upper() and lower().  It agrees with Python on ASCII strings and is
    used to run the program on concrete ASCII inputs. *)
Definition between (lo hi c : N) : bool := (N.leb lo c && N.leb c hi)%bool.

Definition ascii_tables : CharTables := {|
  isspace := fun c => (between 9 13 c || between 28 32 c)%bool;
  isdecimal := between 48 57;
  isalpha := fun c => (between 65 90 c || between 97 122 c)%bool;
  upper := map (fun c => if between 97 122 c then (c - 32)%N else c);
  lower := map (fun c => if between 65 90 c then (c + 32)%N else c)
|}.

(** [s.startswith(p)] and the slice [s[n:]] *)
Fixpoint startswith (s p : str) : bool :=
  match p, s with
  | [], _ => true
  | _ :: _, [] => false
  | a :: p', b :: s' => (N.eqb a b && startswith s' p')%bool
  end.

(** [s.replace(c, '')] for a one-character [c] *)
Definition remove_char (c : char) (s : str) : str :=
  filter (fun d => negb (N.eqb d c)) s.

Section Text.
Variable U : CharTables.

Fixpoint lstrip (s : str) : str :=
  match s with
  | [] => []
  | c :: s' => if isspace U c then lstrip s' else s
  end.

Definition rstrip (s : str) : str := rev (lstrip (rev s)).

(** [s.strip()] *)
Definition strip (s : str) : str := rstrip (lstrip s).

(** [s.split()]: the maximal runs of non-whitespace characters.
    [cur] is the run being read, reversed. *)
Fixpoint split_from (cur s : str) : list str :=
  match s with
  | [] => match cur with [] => [] | _ => [rev cur] end
  | c :: s' =>
      if isspace U c
      then match cur with
           | [] => split_from [] s'
           | _ => rev cur :: split_from [] s'
           end
      else split_from (c :: cur) s'
  end.

Definition split (s : str) : list str := split_from [] s.

(** [sum(1 for c in s if c.isalpha())] *)
Definition alpha_chars (s : str) : Z := len (filter (isalpha U) s).
End Text.

(* ===================================================================== *)
(** ** Regular expressions of [re.match] *)
(* ===================================================================== *)

Inductive regex : Type :=
| Empty                              (* matches nothing *)
| Eps                                (* the empty string *)
| Class (p : char -> bool)           (* one character of a class *)
| Cat (r1 r2 : regex)
| Alt (r1 r2 : regex)
| Star (r : regex).

Definition Chr (c : char) : regex := Class (N.eqb c).
Definition Plus (r : regex) : regex := Cat r (Star r).            (* r+ *)
Definition Opt (r : regex) : regex := Alt r Eps.                   (* r? *)
Definition AtLeast3 (r : regex) : regex := Cat r (Cat r (Cat r (Star r))).  (* r{3,} *)

(** Language of a regular expression. *)
Inductive Matches : regex -> str -> Prop :=
| MEps : Matches Eps []
| MClass p c : p c = true -> Matches (Class p) [c]
| MCat r1 r2 s1 s2 : Matches r1 s1 -> Matches r2 s2 -> Matches (Cat r1 r2) (s1 ++ s2)
| MAltL r1 r2 s : Matches r1 s -> Matches (Alt r1 r2) s
| MAltR r1 r2 s : Matches r2 s -> Matches (Alt r1 r2) s
| MStar0 r : Matches (Star r) []
| MStarS r s1 s2 : Matches r s1 -> Matches (Star r) s2 -> Matches (Star r) (s1 ++ s2).

Fixpoint nullable (r : regex) : bool :=
  match r with
  | Empty => false
  | Eps => true
  | Class _ => false
  | Cat r1 r2 => (nullable r1 && nullable r2)%bool
  | Alt r1 r2 => (nullable r1 || nullable r2)%bool
  | Star _ => true
  end.

Fixpoint deriv (c : char) (r : regex) : regex :=
  match r with
  | Empty => Empty
  | Eps => Empty
  | Class p => if p c then Eps else Empty
  | Cat r1 r2 =>
      if nullable r1
      then Alt (Cat (deriv c r1) r2) (deriv c r2)
      else Cat (deriv c r1) r2
  | Alt r1 r2 => Alt (deriv c r1) (deriv c r2)
  | Star r1 => Cat (deriv c r1) (Star r1)
  end.

(** The whole string is in the language. *)
Fixpoint fullmatch (r : regex) (s : str) : bool :=
  match s with
  | [] => nullable r
  | c :: s' => fullmatch (deriv c r) s'
  end.

(** [s] without a final newline, when it has one. *)
Definition before_final_newline (s : str) : option str :=
  match rev s with
  | 10%N :: t => Some (rev t)
  | _ => None
  end.

(** [re.match('^' r '$', s)] as a truth value: without MULTILINE, [$]
    matches at the end of the string and also just before a newline that
    ends the string. *)
Definition re_match (r : regex) (s : str) : bool :=
  (fullmatch r s
   || match before_final_newline s with
      | Some s' => fullmatch r s'
      | None => false
      end)%bool.

Section Policy.
Variable U : CharTables.

Definition digit : regex := Class (isdecimal U).                 (* \d *)

(** [^\d+$] *)
Definition pat_number : regex := Plus digit.

(** The currency pattern of line 46, in verbose form:
    [^ \$ \d+ ( [,\d]* \.? \d* )? $] *)
Definition pat_currency : regex :=
  Cat (Chr 36%N)
    (Cat (Plus digit)
       (Opt (Cat (Star (Class (fun c => (N.eqb c 44%N || isdecimal U c)%bool)))
               (Cat (Opt (Chr 46%N)) (Star digit))))).

(** [^[A-Z0-9]{3,}$] *)
Definition pat_code : regex :=
  AtLeast3 (Class (fun c => (between 65 90 c || between 48 57 c)%bool)).

Definition abbreviations : list str :=
  [lit "N/A"; lit "MRI"; lit "MRA"; lit "PET"; lit "CT"; lit "PCP"; lit "EOC"].

Definition should_translate_text (text : str) : bool :=
  let text := strip U text in
  match text with
  | [] => false
  | _ =>
    if re_match pat_number text then false
    else if re_match pat_currency text then false
    else if re_match pat_code text then false
    else if len text <=? 2 then false
    else if in_dec str_eq_dec (upper U text) abbreviations then false
    else if alpha_chars U text <? 3 then false
    else true
  end.
End Policy.

(* ===================================================================== *)
(** ** Geometry and style records *)
(* ===================================================================== *)

(** [fitz.Rect(x0, y0, x1, y1)] and a span's [bbox] tuple. *)
Record Rect : Type := mkRect { x0 : Q; y0 : Q; x1 : Q; y1 : Q }.

(** [fitz.Point(x, y)] *)
Record Point : Type := mkPoint { px : Q; py : Q }.

Definition rgb : Type := (Q * Q * Q)%type.
Definition black : rgb := (0, 0, 0)%Q.
Definition white : rgb := (1, 1, 1)%Q.

Definition Qltb (a b : Q) : bool := negb (Qle_bool b a).

(** [max(a, b)] keeps [a] unless [b > a]. *)
Definition py_max (a b : Q) : Q := if Qltb a b then b else a.

(** The [width] and [height] properties of a PyMuPDF rectangle:
    [max(0, x1 - x0)] and [max(0, y1 - y0)].  The spans the page loop
    keeps have [x1 > x0] and [y1 > y0]. *)
Definition rect_width (r : Rect) : Q := py_max 0 (x1 r - x0 r).
Definition rect_height (r : Rect) : Q := py_max 0 (y1 r - y0 r).

Definition set_x1 (r : Rect) (v : Q) : Rect := mkRect (x0 r) (y0 r) v (y1 r).
Definition set_y1 (r : Rect) (v : Q) : Rect := mkRect (x0 r) (y0 r) (x1 r) v.

(** The Python values a span's ['color'] entry can hold. *)
#[local] Set Warnings "-register-all".
Inductive py_value : Type :=
| PyNone
| PyBool (b : bool)
| PyInt (n : Z)
| PyFloat (q : Q)
| PyStr (s : str)
| PyTuple (items : list py_value).

(** The dictionary built by [get_font_info]. *)
Record FontInfo : Type := mkFontInfo {
  font : str;
  size : Q;
  color : py_value;
  flags : Z
}.

(** An entry of [individual_spans]. *)
Record Span : Type := mkSpan {
  span_text : str;
  span_bbox : Rect;
  span_font_info : FontInfo
}.

(** An entry of [translation_tasks]. *)
Record TranslationTask : Type := mkTask {
  original : str;
  translated : str;
  bbox : Rect;
  font_info : FontInfo
}.

(** [calculate_text_dimensions] *)
Definition calculate_text_dimensions (text : str) (font_size : Q) : Q * Q :=
  let avg_char_width := (font_size * (6 # 10))%Q in
  let text_width := (inject_Z (len text) * avg_char_width)%Q in
  let text_height := (font_size * (12 # 10))%Q in
  (text_width, text_height).

(** [create_better_redaction_rect] *)
Definition create_better_redaction_rect (bbox : Rect) (text : str) (font_size : Q) : Rect :=
  let '(text_width, text_height) := calculate_text_dimensions text font_size in
  let width := py_max (x1 bbox - x0 bbox) text_width in
  let height := py_max (y1 bbox - y0 bbox) text_height in
  let padding := 1%Q in
  mkRect (x0 bbox - padding)
         (y0 bbox - padding)
         (x0 bbox + width + padding)
         (y0 bbox + height + padding).

(** The rectangle the page loop erases for a task (lines 347-349): the
    estimate is taken over [task['original']]. *)
Definition task_redaction_rect (task : TranslationTask) : Rect :=
  create_better_redaction_rect (bbox task) (original task) (size (font_info task)).

(* ===================================================================== *)
(** ** Collaborators and the monad of the program *)
(* ===================================================================== *)

(** What a call that may raise gives back. *)
Inductive result (A : Type) : Type :=
| Ok (a : A)
| Exn.
Arguments Ok {A} a.
Arguments Exn {A}.

(** One entry of the transcript: a call on a collaborator with its
    arguments and what came back. *)
Inductive event : Type :=
| EvLlmInvoke (prompt : str) (out : result str)
| EvSleep (seconds : Z)
| EvAddRedactAnnot (rect : Rect) (fill : rgb) (out : result unit)
| EvApplyRedactions (out : result unit)
| EvInsertTextbox (rect : Rect) (text fontname : str) (fontsize : Q) (color : rgb)
                  (out : result Q)
| EvInsertText (point : Point) (text fontname : str) (fontsize : Q) (color : rgb)
               (out : result Q).

(** The outside world: each collaborator answers from the transcript so
    far and the arguments of the call.  [llm_content] is
    [llm.invoke(prompt).content]. *)
Record World : Type := {
  llm_content : list event -> str -> result str;
  add_redact_annot : list event -> Rect -> rgb -> result unit;
  apply_redactions : list event -> result unit;
  insert_textbox : list event -> Rect -> str -> str -> Q -> rgb -> result Q;
  insert_text : list event -> Point -> str -> str -> Q -> rgb -> result Q
}.

(** State (the transcript) and exceptions. *)
Definition M (A : Type) : Type := list event -> result A * list event.

Definition ret {A} (a : A) : M A := fun h => (Ok a, h).

Definition raise {A} : M A := fun h => (Exn, h).

Definition bind {A B} (m : M A) (k : A -> M B) : M B :=
  fun h => match m h with
           | (Ok a, h') => k a h'
           | (Exn, h') => (Exn, h')
           end.

(** [try: m  except: handler] *)
Definition try_except {A} (m : M A) (handler : M A) : M A :=
  fun h => match m h with
           | (Ok a, h') => (Ok a, h')
           | (Exn, h') => handler h'
           end.

Declare Scope prog_scope.
Delimit Scope prog_scope with prog.
Notation "x <- m ;; k" := (bind m (fun x => k))
  (at level 100, m at next level, right associativity) : prog_scope.
Notation "m ;;; k" := (bind m (fun _ => k))
  (at level 100, right associativity) : prog_scope.
Local Open Scope prog_scope.

(** A [for] loop whose body may [return]: [body] answers [Some v] to
    return [v] from the function and [None] to go on; [orelse] is the
    code after the loop. *)
Fixpoint for_return {A R} (l : list A) (body : A -> M (option R)) (orelse : M R) : M R :=
  match l with
  | [] => orelse
  | a :: l' =>
      r <- body a ;;
      match r with
      | Some v => ret v
      | None => for_return l' body orelse
      end
  end.

(** A [for] loop that updates local variables [s]. *)
Fixpoint for_fold {A S} (l : list A) (s : S) (body : S -> A -> M S) : M S :=
  match l with
  | [] => ret s
  | a :: l' => s' <- body s a ;; for_fold l' s' body
  end.

(** [range(n)] *)
Definition range (n : Z) : list Z := map Z.of_nat (seq 0 (Z.to_nat n)).

Section Calls.
Variable w : World.

Definition llm_invoke (prompt : str) : M str :=
  fun h => let out := llm_content w h prompt in (out, h ++ [EvLlmInvoke prompt out]).

Definition time_sleep (seconds : Z) : M unit :=
  fun h => (Ok tt, h ++ [EvSleep seconds]).

Definition page_add_redact_annot (rect : Rect) (fill : rgb) : M unit :=
  fun h => let out := add_redact_annot w h rect fill in
           (out, h ++ [EvAddRedactAnnot rect fill out]).

Definition page_apply_redactions : M unit :=
  fun h => let out := apply_redactions w h in (out, h ++ [EvApplyRedactions out]).

Definition page_insert_textbox (rect : Rect) (text fontname : str) (fontsize : Q)
    (color : rgb) : M Q :=
  fun h => let out := insert_textbox w h rect text fontname fontsize color in
           (out, h ++ [EvInsertTextbox rect text fontname fontsize color out]).

Definition page_insert_text (point : Point) (text fontname : str) (fontsize : Q)
    (color : rgb) : M Q :=
  fun h => let out := insert_text w h point text fontname fontsize color in
           (out, h ++ [EvInsertText point text fontname fontsize color out]).
End Calls.

(* ===================================================================== *)
(** ** Translation policy: [translate_text_conservative] *)
(* ===================================================================== *)

(** The glossary literal of lines 78-93, in source order.  The values
    with accents are the code points the source file holds: the square
    root sign 8730 followed by 177, 176, 169 or 8805. *)
Definition common_terms : list (str * str) :=
  [ (lit "copay", lit "copago");
    (lit "deductible", lit "deducible");
    (lit "premium", lit "prima");
    (lit "plan", lit "plan");
    (lit "year", lit "a" ++ [8730; 177]%N ++ lit "o");
    (lit "services", lit "servicios");
    (lit "coverage", lit "cobertura");
    (lit "benefits", lit "beneficios");
    (lit "maximum", lit "m" ++ [8730; 176]%N ++ lit "ximo");
    (lit "monthly", lit "mensual");
    (lit "medical", lit "m" ++ [8730; 169]%N ++ lit "dico");
    (lit "hospital", lit "hospital");
    (lit "inpatient", lit "hospitalizaci" ++ [8730; 8805]%N ++ lit "n");
    (lit "outpatient", lit "ambulatorio") ].

(** [d.get(k)] on a dictionary literal without repeated keys. *)
Fixpoint dict_get (d : list (str * str)) (k : str) : option str :=
  match d with
  | [] => None
  | (k', v) :: d' => if str_eq_dec k k' then Some v else dict_get d' k
  end.

Definition nl : str := [10%N].
Definition dquote : str := [34%N].

(** The f-string of lines 99-112. *)
Definition prompt_for (target_lang text : str) : str :=
  lit "Translate this English text to " ++ target_lang
  ++ lit ". This is from a medical insurance document." ++ nl
  ++ nl
  ++ lit "RULES:" ++ nl
  ++ lit "1. Keep ALL numbers and currency exactly as they are" ++ nl
  ++ lit "2. Keep ALL codes unchanged: H5619136002, N/A, etc." ++ nl
  ++ lit "3. Keep proper nouns: Apple Health, Medicaid, Medicare Part A, Part B, Part D" ++ nl
  ++ lit "4. Keep abbreviations: MRI, CT, PET, MRA, PCP, EOC" ++ nl
  ++ lit "5. Use standard medical/insurance Spanish terminology" ++ nl
  ++ lit "6. Keep formatting and punctuation exactly the same" ++ nl
  ++ lit "7. Return ONLY the translation, no explanations" ++ nl
  ++ nl
  ++ lit "Text: " ++ dquote ++ text ++ dquote ++ nl
  ++ nl
  ++ lit "Translation:".

Definition prefixes (target_lang : str) : list str :=
  [ lit "Translation:";
    lit "Traducci" ++ [8730; 8805]%N ++ lit "n:";
    target_lang ++ lit ":";
    lit "Spanish:" ].

Section Translate.
Variable U : CharTables.
Variable w : World.

(** Lines 118-127: what is returned for a response with content
    [content]. *)
Definition clean_response (target_lang content : str) : str :=
  let translated := strip U content in
  let translated := remove_char 39%N (remove_char 34%N translated) in
  fold_left
    (fun translated prefix =>
       if startswith translated prefix
       then strip U (skipn (List.length prefix) translated)
       else translated)
    (prefixes target_lang) translated.

(** Lines 76-97: [Some v] when the glossary branch returns [v]. *)
Definition glossary_lookup (text : str) : option str :=
  if len (split U text) <=? 2
  then dict_get common_terms (strip U (lower U text))
  else None.

(** One iteration of the retry loop, lines 115-132. *)
Definition attempt_body (prompt target_lang : str) (retries attempt : Z) : M (option str) :=
  try_except
    (content <- llm_invoke w prompt ;;
     ret (Some (clean_response target_lang content)))
    (if attempt <? retries - 1
     then (time_sleep (2 ^ attempt) ;;; ret None)
     else ret None).

Definition translate_text_conservative (text target_lang : str) (retries : Z) : M str :=
  if negb (should_translate_text U text) then ret text
  else
    match glossary_lookup text with
    | Some v => ret v
    | None =>
        let prompt := prompt_for target_lang text in
        for_return (range retries)
          (attempt_body prompt target_lang retries)
          (ret text)
    end.
End Translate.

(* ===================================================================== *)
(** ** Reinsertion engine: [insert_text_with_fallbacks] *)
(* ===================================================================== *)

(** An entry of the [strategies] list. *)
Record Strategy : Type := mkStrategy {
  s_font : str;
  s_size : Q;
  s_rect : Rect
}.

(** Lines 185-191: [original_rect] after "Ensure minimum rect size". *)
Definition original_rect_of (bbox : Rect) (text : str) : Rect :=
  let original_rect := bbox in
  let original_rect :=
    if Qltb (rect_width original_rect) 10
    then set_x1 original_rect
           (x0 original_rect + inject_Z (Z.max 50 (len text * 8)))%Q
    else original_rect in
  let original_rect :=
    if Qltb (rect_height original_rect) 8
    then set_y1 original_rect (y0 original_rect + 12)%Q
    else original_rect in
  original_rect.

(** Lines 197-204. *)
Definition color_rgb_of (color : py_value) : rgb :=
  match color with
  | PyInt n => if n =? 0 then (0, 0, 0)%Q else (0, 0, 0)%Q
  | PyBool b => if b then (0, 0, 0)%Q else (0, 0, 0)%Q
  | PyFloat q => if Qeq_bool q 0 then (0, 0, 0)%Q else (0, 0, 0)%Q
  | _ => (0, 0, 0)%Q
  end.

(** Lines 207-222. *)
Definition strategies (bbox : Rect) (text : str) (fi : FontInfo) : list Strategy :=
  let original_rect := original_rect_of bbox text in
  let font_name := font fi in
  let original_size := size fi in
  let expanded_rect := mkRect (x0 bbox) (y0 bbox) (x1 bbox + 50)%Q (y1 bbox + 5)%Q in
  [ mkStrategy font_name original_size original_rect;
    mkStrategy font_name (original_size * (9 # 10))%Q original_rect;
    mkStrategy font_name (original_size * (8 # 10))%Q original_rect;
    mkStrategy (lit "helv") original_size original_rect;
    mkStrategy (lit "helv") (original_size * (9 # 10))%Q original_rect;
    mkStrategy (lit "helv") 8%Q original_rect ]
  ++
  [ mkStrategy font_name original_size expanded_rect;
    mkStrategy (lit "helv") original_size expanded_rect;
    mkStrategy (lit "helv") 8%Q expanded_rect ].

(** Lines 231-234. *)
Definition reasonable_size (size : Q) : Q :=
  if Qltb size 6 then 6%Q
  else if Qltb 20 size then 20%Q
  else size.

Section Reinsert.
Variable U : CharTables.
Variable w : World.

(** The body of the loop over [strategies], lines 225-250. *)
Definition strategy_body (text : str) (color_rgb : rgb) (strategy : Strategy)
  : M (option bool) :=
  try_except
    (let rect := s_rect strategy in
     let font := s_font strategy in
     let size := reasonable_size (s_size strategy) in
     result <- page_insert_textbox w rect text font size color_rgb ;;
     if Qle_bool 0 result then ret (Some true) else ret None)
    (ret None).

(** Lines 253-264. *)
Definition last_resort (bbox : Rect) (text : str) : M bool :=
  try_except
    (let point := mkPoint (x0 bbox) (y0 bbox + 10)%Q in
     result <- page_insert_text w point text (lit "helv") 8%Q (0, 0, 0)%Q ;;
     ret (Qle_bool 0 result))
    (ret false).

Definition insert_text_with_fallbacks (bbox : Rect) (text : str) (fi : FontInfo) : M bool :=
  match strip U text with
  | [] => ret false
  | _ =>
      let color_rgb := color_rgb_of (color fi) in
      for_return (strategies bbox text fi)
        (strategy_body text color_rgb)
        (last_resort bbox text)
  end.
End Reinsert.

(* ===================================================================== *)
(** ** Page orchestrator: the body of the page loop *)
(* ===================================================================== *)

Section Page.
Variable U : CharTables.
Variable w : World.

(** Lines 324-340: translate every span, keep the ones that changed. *)
Definition build_task_step (target_lang : str)
    (translation_tasks : list TranslationTask) (span : Span) : M (list TranslationTask) :=
  let text := span_text span in
  translated <- translate_text_conservative U w text target_lang 3 ;;
  if str_eq_dec translated text
  then ret translation_tasks
  else ret (translation_tasks
            ++ [mkTask text translated (span_bbox span) (span_font_info span)]).

Definition build_tasks (target_lang : str) (individual_spans : list Span)
  : M (list TranslationTask) :=
  for_fold individual_spans [] (build_task_step target_lang).

(** Lines 345-351. *)
Definition add_redaction_step (redaction_rects : list Rect) (task : TranslationTask)
  : M (list Rect) :=
  let redact_rect := task_redaction_rect task in
  page_add_redact_annot w redact_rect (1, 1, 1)%Q ;;;
  ret (redaction_rects ++ [redact_rect]).

Definition add_redactions (translation_tasks : list TranslationTask) : M (list Rect) :=
  for_fold translation_tasks [] add_redaction_step.

(** Lines 357-366; the result is [successful_insertions]. *)
Definition insert_translation_step (successful_insertions : Z) (task : TranslationTask)
  : M Z :=
  ok <- insert_text_with_fallbacks U w (bbox task) (translated task) (font_info task) ;;
  if ok : bool then ret (successful_insertions + 1) else ret successful_insertions.

Definition insert_translations (translation_tasks : list TranslationTask) : M Z :=
  for_fold translation_tasks 0 insert_translation_step.

(** Lines 323-368, from the spans extracted from the page. *)
Definition process_spans (target_lang : str) (individual_spans : list Span) : M Z :=
  translation_tasks <- build_tasks target_lang individual_spans ;;
  add_redactions translation_tasks ;;;
  page_apply_redactions w ;;;
  insert_translations translation_tasks.

(** The [try] of the page loop with its handler (lines 300-373): an
    exception ends the page and the loop goes on. *)
Definition process_page (target_lang : str) (individual_spans : list Span) : M unit :=
  try_except
    (process_spans target_lang individual_spans ;;; ret tt)
    (ret tt).
End Page.

(* ===================================================================== *)
(** ** Background sampler: [detect_background_color] *)
(* ===================================================================== *)

(** [collections.Counter] over keys with a decidable equality: a
    dictionary in insertion order. *)
Section CounterModel.
Variable K : Type.
Variable eqb : K -> K -> bool.

(** [d[k] = d.get(k, 0) + 1] *)
Fixpoint counter_incr (k : K) (d : list (K * Z)) : list (K * Z) :=
  match d with
  | [] => [(k, 1)]
  | (k', n) :: d' =>
      if eqb k k' then (k', n + 1) :: d' else (k', n) :: counter_incr k d'
  end.

(** [Counter(iterable)] *)
Definition Counter (l : list K) : list (K * Z) :=
  fold_left (fun d k => counter_incr k d) l [].

(** [max(items, key=itemgetter(1))] with [best] the maximum so far: a
    later item replaces it only when its count is strictly greater. *)
Fixpoint max_by_count (best : K * Z) (items : list (K * Z)) : K * Z :=
  match items with
  | [] => best
  | kv :: items' =>
      if snd best <? snd kv then max_by_count kv items' else max_by_count best items'
  end.

(** [most_common(1)]: [heapq.nlargest(1, items, key)] is [[max(items)]],
    or the empty list for an empty counter. *)
Definition most_common_1 (d : list (K * Z)) : list (K * Z) :=
  match d with
  | [] => []
  | kv :: d' => [max_by_count kv d']
  end.

(** Number of occurrences and position of the first occurrence (the
    length of the list when there is none). *)
Fixpoint count_of (k : K) (l : list K) : Z :=
  match l with
  | [] => 0
  | a :: l' => (if eqb k a then 1 else 0) + count_of k l'
  end.

Fixpoint first_index (k : K) (l : list K) : nat :=
  match l with
  | [] => O
  | a :: l' => if eqb k a then O else S (first_index k l')
  end.
End CounterModel.
Arguments counter_incr {K}.
Arguments Counter {K}.
Arguments max_by_count {K}.
Arguments most_common_1 {K}.
Arguments count_of {K}.
Arguments first_index {K}.

(** A sampled colour.  Colours are dictionary keys of the counter, so
    the channels are canonical rationals: equal values are equal terms. *)
Definition color3 : Type := (Qc * Qc * Qc)%type.

Definition Qc_eqb (a b : Qc) : bool := Qeq_bool a b.

Definition color3_eqb (a b : color3) : bool :=
  let '(r1, g1, b1) := a in
  let '(r2, g2, b2) := b in
  (Qc_eqb r1 r2 && Qc_eqb g1 g2 && Qc_eqb b1 b2)%bool.

Definition white3 : color3 := (Q2Qc 1, Q2Qc 1, Q2Qc 1).

(** [fitz.Pixmap]: its size and [pix.pixel(x, y)], which raises outside
    the image. *)
Record Pixmap : Type := {
  pix_width : Z;
  pix_height : Z;
  pix_pixel : Z -> Z -> result (list Z)
}.

(** [int(q)]: truncation toward zero. *)
Definition py_int (q : Q) : Z := Z.quot (Qnum q) (Zpos (Qden q)).

(** [[int(v * zoom) for v in bbox]] *)
Definition scaled_bbox (bbox : Rect) (zoom : Z) : Z * Z * Z * Z :=
  let f v := py_int (v * inject_Z zoom) in
  (f (x0 bbox), f (y0 bbox), f (x1 bbox), f (y1 bbox)).

Section SamplerCommon.
(** The built-in [round(x, ndigits)] on floats. *)
Variable py_round : Qc -> Z -> Qc.

(** [r, g, b = pix.pixel(x, y)[:3]] followed by the append of the
    colour rounded to two decimals; the unpacking raises unless the
    slice has three items. *)
Definition read_sample (pix : Pixmap) (x y : Z) : result color3 :=
  match pix_pixel pix x y with
  | Exn => Exn
  | Ok p =>
      match firstn 3 p with
      | [r; g; b] =>
          Ok (py_round (Q2Qc (inject_Z r / 255)) 2,
              py_round (Q2Qc (inject_Z g / 255)) 2,
              py_round (Q2Qc (inject_Z b / 255)) 2)
      | _ => Exn
      end
  end.

(** [[tuple(round(c, 1) for c in color) for color in colors]] *)
Definition rounded_colors (colors : list color3) : list color3 :=
  map (fun '(r, g, b) => (py_round r 1, py_round g 1, py_round b 1)) colors.

(** The end of both variants: the vote, or white without samples.
    [most_common(1)[0][0]] raises on an empty answer. *)
Definition vote (colors : list color3) : result color3 :=
  match colors with
  | [] => Ok white3
  | _ =>
      match most_common_1 (Counter color3_eqb (rounded_colors colors)) with
      | (c, _) :: _ => Ok c
      | [] => Exn
      end
  end.

(** [try: m  except Exception: handler] for code without effects on the
    transcript. *)
Definition try_pure {A} (m : result A) (handler : result A) : result A :=
  match m with
  | Ok a => Ok a
  | Exn => handler
  end.
End SamplerCommon.

Module V3.
(** [v3.py] has no import statement and no assignment at module level:
    its global names are the functions it defines.  [fitz] and
    [Counter], which [detect_background_color] reads, are not among
    them and are no builtins, and reading a name that is bound nowhere
    raises NameError. *)
Definition module_names : list string :=
  ["get_font_type"; "get_pymupdf_font"; "convert_color_to_rgb";
   "detect_background_color"; "is_dark_color"; "translate_pdf"]%string.

Definition global_name (name : string) : result unit :=
  if existsb (String.eqb name) module_names then Ok tt else Exn.

Section Sampler.
Variable py_round : Qc -> Z -> Qc.
(** [page.get_pixmap(matrix=mat)] *)
Variable page_get_pixmap : Z -> result Pixmap.

Definition sample_coords (pix : Pixmap) (bbox : Rect) (zoom : Z) : list (Z * Z) :=
  let '(x0, y0, x1, y1) := scaled_bbox bbox zoom in
  let margin := 4 * zoom in
  [ (Z.max 0 (x0 - margin), Z.max 0 (y0 - margin));
    (Z.min (pix_width pix - 1) (x1 + margin), Z.max 0 (y0 - margin));
    (Z.max 0 (x0 - margin), Z.min (pix_height pix - 1) (y1 + margin));
    (Z.min (pix_width pix - 1) (x1 + margin), Z.min (pix_height pix - 1) (y1 + margin));
    ((x0 + x1) / 2, (y0 + y1) / 2) ].

(** The loop of lines 52-57: a sample that raises is skipped. *)
Definition colors (pix : Pixmap) (coords : list (Z * Z)) : list color3 :=
  flat_map (fun '(x, y) =>
              match read_sample py_round pix x y with
              | Ok c => [c]
              | Exn => []
              end) coords.

(** The first statement of the body, [mat = fitz.Matrix(zoom, zoom)],
    reads the global [fitz]; the vote reads [Counter]. *)
Definition detect_background_color (bbox : Rect) (zoom : Z) : result color3 :=
  try_pure
    (match global_name "fitz" with
     | Exn => Exn
     | Ok _ =>
         match page_get_pixmap zoom with
         | Exn => Exn
         | Ok pix =>
             match colors pix (sample_coords pix bbox zoom) with
             | [] => Ok white3
             | cs => match global_name "Counter" with
                     | Exn => Exn
                     | Ok _ => vote py_round cs
                     end
             end
         end
     end)
    (Ok white3).
End Sampler.
End V3.

Module V4.
Section Sampler.
Variable py_round : Qc -> Z -> Qc.
Variable page_get_pixmap : Z -> result Pixmap.

Definition sample_coords (bbox : Rect) (zoom : Z) : list (Z * Z) :=
  let '(x0, y0, x1, y1) := scaled_bbox bbox zoom in
  [ ((x0 + x1) / 2, (y0 + y1) / 2);
    (x0 + 5, y0 + 5); (x1 - 5, y0 + 5);
    (x0 + 5, y1 - 5); (x1 - 5, y1 - 5) ].

(** The loop of lines 138-144: only coordinates inside the raster are
    read, and a read that raises is skipped. *)
Definition colors (pix : Pixmap) (coords : list (Z * Z)) : list color3 :=
  flat_map (fun '(x, y) =>
              if ((0 <=? x) && (x <? pix_width pix)
                  && (0 <=? y) && (y <? pix_height pix))%bool
              then match read_sample py_round pix x y with
                   | Ok c => [c]
                   | Exn => []
                   end
              else []) coords.

Definition detect_background_color (bbox : Rect) (zoom : Z) : result color3 :=
  try_pure
    (match page_get_pixmap zoom with
     | Exn => Exn
     | Ok pix => vote py_round (colors pix (sample_coords bbox zoom))
     end)
    (Ok white3).
End Sampler.
End V4.

(* ===================================================================== *)
(** ** Concrete collaborators, to run the program *)
(* ===================================================================== *)

(** A backend that is down and a page that rejects every call. *)
Definition world_down : World := {|
  llm_content := fun _ _ => Exn;
  add_redact_annot := fun _ _ _ => Exn;
  apply_redactions := fun _ => Exn;
  insert_textbox := fun _ _ _ _ _ _ => Exn;
  insert_text := fun _ _ _ _ _ _ => Exn
|}.

(** Number of backend calls in a transcript. *)
Definition llm_calls (h : list event) : nat :=
  List.length (filter (fun e => match e with EvLlmInvoke _ _ => true | _ => false end) h).

(** A backend that raises on its first [n] calls and then answers
    [content]; a page on which every text box overflows (the fit result
    is [fit]) and point insertion answers [point_out]. *)
Definition world_flaky (n : nat) (content : str) (fit : Q) (point_out : result Q) : World := {|
  llm_content := fun h _ => if Nat.ltb (llm_calls h) n then Exn else Ok content;
  add_redact_annot := fun _ _ _ => Ok tt;
  apply_redactions := fun _ => Ok tt;
  insert_textbox := fun _ _ _ _ _ _ => Ok fit;
  insert_text := fun _ _ _ _ _ _ => point_out
|}.

(* ===================================================================== *)
(** ** Vocabulary of the statements *)
(* ===================================================================== *)

Section PolicyVocabulary.
Variable U : CharTables.

(** The texts the eligibility filter rejects, as the conditions of
    lines 38-64 on the trimmed text. *)
Definition rejected (t : str) : Prop :=
  re_match (pat_number U) t = true
  \/ re_match (pat_currency U) t = true
  \/ re_match pat_code t = true
  \/ len t <= 2
  \/ In (upper U t) abbreviations
  \/ alpha_chars U t < 3.

End PolicyVocabulary.







(** The task the glossary makes of a span "Copay" set in 12pt. *)
Definition copay_task : TranslationTask :=
  mkTask (lit "Copay") (lit "copago")
         (mkRect 10 10 40 22)
         (mkFontInfo (lit "helv") 12 (PyInt 0) 0).

(** The transcript of [n] failed attempts with the pause after each:
    attempt [i] raises and is followed by a sleep of [2^i] seconds. *)
Definition backoff_trace (prompt : str) (n : nat) : list event :=
  flat_map (fun i => [EvLlmInvoke prompt Exn; EvSleep (2 ^ Z.of_nat i)]) (seq 0 n).

(** In a run started at transcript [h], the backend raises on each of
    the first [n] attempts. *)
Definition fails_first (w : World) (h : list event) (prompt : str) (n : nat) : Prop :=
  forall k, (k < n)%nat -> llm_content w (h ++ backoff_trace prompt k) prompt = Exn.

(** [n] failed attempts from attempt number [a] on; the pause is skipped
    after the last configured attempt. *)
Fixpoint failed_from (prompt : str) (retries : Z) (a n : nat) : list event :=
  match n with
  | O => []
  | S n' =>
      EvLlmInvoke prompt Exn
        :: (if Z.of_nat a <? retries - 1 then [EvSleep (2 ^ Z.of_nat a)] else [])
        ++ failed_from prompt retries (S a) n'
  end.

(** The seconds slept in a transcript, in order. *)
Definition sleeps (h : list event) : list Z :=
  flat_map (fun e => match e with EvSleep s => [s] | _ => [] end) h.

(** A three-word sentence and a backend answer that echoes a label. *)
Definition sentence : str := lit "Annual deductible applies".
Definition answer : str := lit "Translation: Se aplica el deducible anual".

(** A drawing call fitted: it returned a non-negative number. *)
Definition fit_ok (out : result Q) : bool :=
  match out with
  | Ok r => Qle_bool 0 r
  | Exn => false
  end.

(** [expanded_rect] of line 217. *)
Definition expanded_rect_of (b : Rect) : Rect :=
  mkRect (x0 b) (y0 b) (x1 b + 50)%Q (y1 b + 5)%Q.

(** The nine strategies in the order of the specification, over a first
    rectangle [rect] and a second rectangle [expanded]. *)
Definition spec_ladder (font_name : str) (original_size : Q) (rect expanded : Rect)
  : list Strategy :=
  [ mkStrategy font_name original_size rect;
    mkStrategy font_name (original_size * (9 # 10))%Q rect;
    mkStrategy font_name (original_size * (8 # 10))%Q rect;
    mkStrategy (lit "helv") original_size rect;
    mkStrategy (lit "helv") (original_size * (9 # 10))%Q rect;
    mkStrategy (lit "helv") 8%Q rect;
    mkStrategy font_name original_size expanded;
    mkStrategy (lit "helv") original_size expanded;
    mkStrategy (lit "helv") 8%Q expanded ].

(** The text-box call a strategy makes, with what it gave back. *)
Definition attempt_event (text : str) (s : Strategy) (out : result Q) : event :=
  EvInsertTextbox (s_rect s) text (s_font s) (reasonable_size (s_size s)) black out.

(** The point insertion of the last resort. *)
Definition point_event (b : Rect) (text : str) (out : result Q) : event :=
  EvInsertText (mkPoint (x0 b) (y0 b + 10)%Q) text (lit "helv") 8%Q black out.

(** Walking down a ladder: the strategies are tried in order, each with
    its size clamped, and the walk stops at the first one that fits.
    [ladder_run text l es b]: [es] is the transcript of the walk down
    [l], and [b] tells whether some strategy fitted. *)
Inductive ladder_run (text : str) : list Strategy -> list event -> bool -> Prop :=
| ladder_exhausted : ladder_run text [] [] false
| ladder_hit s l out :
    fit_ok out = true ->
    ladder_run text (s :: l) [attempt_event text s out] true
| ladder_miss s l out es b :
    fit_ok out = false ->
    ladder_run text l es b ->
    ladder_run text (s :: l) (attempt_event text s out :: es) b.

(** A call of [insert_text_with_fallbacks] from transcript [h] walks
    down [ladder]: it returns [True] right after the first fit, and
    after nine misses it inserts at the anchor point and returns
    whether that call fitted. *)
Definition walks_ladder (ladder : list Strategy) (b : Rect) (text : str)
    (h : list event) (run : result bool * list event) : Prop :=
  exists es hit,
    ladder_run text ladder es hit
    /\ if hit : bool
       then run = (Ok true, h ++ es)
       else exists out, run = (Ok (fit_ok out), h ++ es ++ [point_event b text out]).

(** The colour a drawing call was made with. *)
Definition draw_color (e : event) : option rgb :=
  match e with
  | EvInsertTextbox _ _ _ _ c _ => Some c
  | EvInsertText _ _ _ _ c _ => Some c
  | _ => None
  end.


Definition helv12 : FontInfo := mkFontInfo (lit "helv") 12 (PyInt 0) 0.

(** Kinds of transcript entries. *)
Definition is_translation (e : event) : bool :=
  match e with
  | EvLlmInvoke _ _ | EvSleep _ => true
  | _ => false
  end.

Definition is_insertion (e : event) : bool :=
  match e with
  | EvInsertTextbox _ _ _ _ _ _ | EvInsertText _ _ _ _ _ _ => true
  | _ => false
  end.

(** The redaction annotation of a task, with what the call gave back. *)
Definition annot_event (task : TranslationTask) (out : result unit) : event :=
  EvAddRedactAnnot (task_redaction_rect task) white out.

Definition annotations (tasks : list TranslationTask) : list event :=
  map (fun task => annot_event task (Ok tt)) tasks.

(** The three shapes of the erase-and-draw part of a page's transcript:
    an annotation call raised and nothing follows it; all annotations
    were added and the one [apply_redactions] call raised; all
    annotations were added, [apply_redactions] returned, and only then
    come the insertions. *)
Inductive erase_then_draw (tasks : list TranslationTask) : list event -> Prop :=
| etd_annot_raised done task rest :
    tasks = done ++ task :: rest ->
    erase_then_draw tasks (annotations done ++ [annot_event task Exn])
| etd_apply_raised :
    erase_then_draw tasks (annotations tasks ++ [EvApplyRedactions Exn])
| etd_drawn ins :
    Forall (fun e => is_insertion e = true) ins ->
    erase_then_draw tasks (annotations tasks ++ [EvApplyRedactions (Ok tt)] ++ ins).

Definition is_apply (e : event) : bool :=
  match e with
  | EvApplyRedactions _ => true
  | _ => false
  end.

(** [apply_redactions] calls in a transcript. *)
Definition apply_calls (h : list event) : nat := List.length (filter is_apply h).

(** Two spans of a page: a glossary term and a code. *)
Definition page_spans : list Span :=
  [ mkSpan (lit "Copay") (mkRect 10 10 40 22) helv12;
    mkSpan (lit "H5619136002") (mkRect 10 30 90 42) helv12 ].

Section CounterVocabulary.
Variable K : Type.
Variable eqb : K -> K -> bool.

(** [d[k]]: a counter answers 0 for a missing key. *)
Fixpoint counter_get (d : list (K * Z)) (k : K) : Z :=
  match d with
  | [] => 0
  | (k', n) :: d' => if eqb k k' then n else counter_get d' k
  end.

(** The distinct elements of a list in the order they first occur. *)
Definition firsts (l : list K) : list K :=
  fold_left (fun ks a => if existsb (eqb a) ks then ks else ks ++ [a]) l [].

(** [c] is the most frequent element of [l]; among the elements as
    frequent as [c], it is the one met first. *)
Definition most_frequent_first (l : list K) (c : K) : Prop :=
  In c l
  /\ (forall c', count_of eqb c' l <= count_of eqb c l)
  /\ (forall c', c' <> c -> count_of eqb c' l = count_of eqb c l ->
                 (first_index eqb c l < first_index eqb c' l)%nat).
End CounterVocabulary.
Arguments counter_get {K}.
Arguments firsts {K}.
Arguments most_frequent_first {K}.

(** Rounding to [ndigits] decimals of the exact value, halves to even:
    the value [round] gives when binary64 holds its argument exactly.
    It is used to run the sampler on concrete rasters. *)
Definition round_half_even (q : Q) : Z :=
  let f := Qfloor q in
  match Qcompare (q - inject_Z f) (1 # 2) with
  | Lt => f
  | Gt => f + 1
  | Eq => if Z.even f then f else f + 1
  end.

Definition round_decimal (q : Qc) (ndigits : Z) : Qc :=
  let scale := inject_Z (10 ^ ndigits) in
  Q2Qc (inject_Z (round_half_even (q * scale)) / scale).

(** A raster of 100 by 100 pixels, black left of x = 50 and white from
    there on; reading outside it raises. *)
Definition split_raster : Pixmap := {|
  pix_width := 100;
  pix_height := 100;
  pix_pixel := fun x y =>
    if ((0 <=? x) && (x <? 100) && (0 <=? y) && (y <? 100))%bool
    then Ok (if x <? 50 then [0; 0; 0] else [255; 255; 255])
    else Exn
|}.

Definition black3 : color3 := (Q2Qc 0, Q2Qc 0, Q2Qc 0).

(** The sampler answered colour [c]. *)
Definition answers (out : result color3) (c : color3) : bool :=
  match out with
  | Ok c' => color3_eqb c' c
  | Exn => false
  end.

(* ===================================================================== *)
(** ** Font classifier and span extraction of [v6.py] *)
(* ===================================================================== *)

(** [min(a, b)] keeps [a] unless [b < a]. *)
Definition py_min (a b : Q) : Q := if Qltb b a then b else a.

(** [needle in hay] on strings. *)
Fixpoint contains (hay needle : str) : bool :=
  (startswith hay needle
   || match hay with
      | [] => false
      | _ :: hay' => contains hay' needle
      end)%bool.

(** A span dictionary of [page.get_text("dict")].  The entries read
    with [span[...]] are always there; the ones read with
    [span.get(..., default)] may be missing. *)
Record RawSpan : Type := mkRawSpan {
  raw_text : str;
  raw_bbox : Rect;
  raw_font : option str;
  raw_flags : option Z;
  raw_size : option Q;
  raw_color : option py_value
}.

(** [d.get(key, default)] *)
Definition get_or {A} (entry : option A) (default : A) : A :=
  match entry with
  | Some v => v
  | None => default
  end.

(** The four font names [get_font_info] chooses from. *)
Definition helv_fonts : list str :=
  [lit "helv-boldoblique"; lit "helv-bold"; lit "helv-oblique"; lit "helv"].

Section FontClassifier.
Variable U : CharTables.

(** [get_font_info], lines 136-163. *)
Definition get_font_info (span : RawSpan) : FontInfo :=
  let font_name := lower U (get_or (raw_font span) []) in
  let flags := get_or (raw_flags span) 0 in
  let size := get_or (raw_size span) 12%Q in
  let is_bold := (contains font_name (lit "bold") || negb (Z.land flags 16 =? 0))%bool in
  let is_italic := (contains font_name (lit "italic") || negb (Z.land flags 2 =? 0))%bool in
  let font :=
    if (is_bold && is_italic)%bool then lit "helv-boldoblique"
    else if is_bold then lit "helv-bold"
    else if is_italic then lit "helv-oblique"
    else lit "helv" in
  mkFontInfo font (py_max 6 (py_min size 24)) (get_or (raw_color span) (PyInt 0)) flags.

(** The test of lines 312-314 on a span. *)
Definition keeps_span (span : RawSpan) : bool :=
  match raw_text span with
  | [] => false
  | _ =>
      match strip U (raw_text span) with
      | [] => false
      | _ =>
          (Qltb (x0 (raw_bbox span)) (x1 (raw_bbox span))
           && Qltb (y0 (raw_bbox span)) (y1 (raw_bbox span)))%bool
      end
  end.

(** Lines 302-319.  A block is [None] when it has no ["lines"] entry
    (an image block), else its lines, each the list of its spans. *)
Definition extract_spans (blocks : list (option (list (list RawSpan)))) : list Span :=
  flat_map
    (fun block =>
       match block with
       | None => []
       | Some lines =>
           flat_map
             (fun line =>
                flat_map
                  (fun span =>
                     if keeps_span span
                     then [mkSpan (raw_text span) (raw_bbox span) (get_font_info span)]
                     else [])
                  line)
             lines
       end)
    blocks.
End FontClassifier.

(** A page with an image block, a bold heading, a blank span and a span
    whose bbox is empty. *)
Definition sample_blocks : list (option (list (list RawSpan))) :=
  [ None;
    Some [ [ mkRawSpan (lit "Annual Deductible") (mkRect 10 10 120 24)
               (Some (lit "Arial-BoldMT")) (Some 20) (Some 30%Q) (Some (PyInt 255));
             mkRawSpan (lit "   ") (mkRect 120 10 130 24) None None None None ];
           [ mkRawSpan (lit "copay") (mkRect 10 30 10 42) None None (Some 4%Q) None ] ] ].

(** A page whose two spans are a code and an amount. *)
Definition code_spans : list Span :=
  [ mkSpan (lit "H5619136002") (mkRect 10 30 90 42) helv12;
    mkSpan (lit "$1,250.00") (mkRect 10 50 60 62) helv12 ].

(** A span came out of the extraction well formed: its text is not
    blank, its bbox is not empty, its font name is one of the four that
    [get_font_info] chooses from and its size lies within [6, 24]. *)
Definition wellformed_span (U : CharTables) (text : str) (b : Rect) (fi : FontInfo) : Prop :=
  strip U text <> []
  /\ (x0 b < x1 b)%Q /\ (y0 b < y1 b)%Q
  /\ (6 <= size fi)%Q /\ (size fi <= 24)%Q
  /\ In (font fi) helv_fonts.

(** A task made from one of [spans]: it carries the span's text, bbox
    and font info, its translation differs from the text, and the text
    is eligible. *)
Definition task_of (U : CharTables) (spans : list Span) (t : TranslationTask) : Prop :=
  translated t <> original t
  /\ should_translate_text U (original t) = true
  /\ exists sp, In sp spans /\ original t = span_text sp
                /\ bbox t = span_bbox sp /\ font_info t = span_font_info sp.

(** A backend that answers every call with blanks, and a page that
    accepts every call. *)
Definition world_blank : World := {|
  llm_content := fun _ _ => Ok (lit "   ");
  add_redact_annot := fun _ _ _ => Ok tt;
  apply_redactions := fun _ => Ok tt;
  insert_textbox := fun _ _ _ _ _ _ => Ok 0%Q;
  insert_text := fun _ _ _ _ _ _ => Ok 1%Q
|}.

Definition sentence_span : Span := mkSpan sentence (mkRect 10 10 200 22) helv12.

(** A drawing call fitted. *)
Definition call_fit (e : event) : bool :=
  match e with
  | EvInsertTextbox _ _ _ _ _ out => fit_ok out
  | EvInsertText _ _ _ _ _ out => fit_ok out
  | _ => false
  end.

(* ===================================================================== *)
(** ** Styles of the earlier variants: [v3.py] and [v4.py] *)
(* ===================================================================== *)

(** A colour as the converters return it: the tuple's three items. *)
Definition py_rgb : Type := (py_value * py_value * py_value)%type.

(** [((n >> 16) & 255) / 255.0] and its two siblings. *)
Definition channels (n : Z) : py_rgb :=
  (PyFloat (inject_Z (Z.land (Z.shiftr n 16) 255) / 255),
   PyFloat (inject_Z (Z.land (Z.shiftr n 8) 255) / 255),
   PyFloat (inject_Z (Z.land n 255) / 255)).

(** The number a channel holds. *)
Definition has_value (v : py_value) (q : Q) : Prop :=
  match v with
  | PyInt n => (inject_Z n == q)%Q
  | PyFloat x => (x == q)%Q
  | _ => False
  end.

Module V3Style.
Section Fonts.
Variable U : CharTables.

(** [get_font_type] of [v3.py], lines 1-9. *)
Definition get_font_type (span : RawSpan) : str :=
  let font_name := lower U (get_or (raw_font span) []) in
  let flags := get_or (raw_flags span) 0 in
  if (contains font_name (lit "bold") || (flags =? 20))%bool then lit "bold"
  else if (contains font_name (lit "light") || (flags =? 4))%bool then lit "light"
  else lit "regular".
End Fonts.

Definition font_map : list (str * str) :=
  [ (lit "bold", lit "helv-bold");
    (lit "light", lit "helv");
    (lit "regular", lit "helv") ].

(** [font_map.get(font_type, 'helv')] *)
Definition get_pymupdf_font (font_type : str) : str :=
  get_or (dict_get font_map font_type) (lit "helv").

(** The numeric branch: [value] is the number, [shifted] what the
    shifts give, or an exception when the number is a float. *)
Definition numeric_color (value : Q) (shifted : result py_rgb) : result py_rgb :=
  if Qeq_bool value 0 then Ok (PyInt 0, PyInt 0, PyInt 0)
  else if (Qeq_bool value 1 || Qle_bool 16777215 value)%bool
       then Ok (PyInt 1, PyInt 1, PyInt 1)
       else shifted.

(** [convert_color_to_rgb] of [v3.py]: [>>] on a float raises. *)
Definition convert_color_to_rgb (color_value : py_value) : result py_rgb :=
  match color_value with
  | PyBool b => numeric_color (if b then 1 else 0) (Ok (channels (if b then 1 else 0)))
  | PyInt n => numeric_color (inject_Z n) (Ok (channels n))
  | PyFloat q => numeric_color q Exn
  | PyTuple (r :: g :: b :: _) => Ok (r, g, b)
  | _ => Ok (PyInt 0, PyInt 0, PyInt 0)
  end.
End V3Style.

Module V4Style.
Section Fonts.
Variable U : CharTables.

(** [get_font_type] of [v4.py], lines 47-67. *)
Definition get_font_type (span : RawSpan) : str :=
  let font_name := lower U (get_or (raw_font span) []) in
  let flags := get_or (raw_flags span) 0 in
  if (contains font_name (lit "bold") || negb (Z.land flags 16 =? 0))%bool then lit "bold"
  else if (contains font_name (lit "italic") || negb (Z.land flags 2 =? 0))%bool
       then lit "italic"
  else if (contains font_name (lit "light") || (flags =? 4))%bool then lit "light"
  else lit "regular".
End Fonts.

Definition font_mapping : list (str * str) :=
  [ (lit "bold", lit "Times-Bold");
    (lit "italic", lit "Times-Italic");
    (lit "light", lit "Times-Roman");
    (lit "regular", lit "Times-Roman") ].

(** [font_mapping.get(font_type, "Times-Roman")] *)
Definition get_pymupdf_font (font_type : str) : str :=
  get_or (dict_get font_mapping font_type) (lit "Times-Roman").

(** [convert_color_to_rgb] of [v4.py], lines 87-111: the shifts are
    taken on [int(color_value)]. *)
Definition numeric_color (value : Q) (n : Z) : py_rgb :=
  if Qeq_bool value 0 then (PyInt 0, PyInt 0, PyInt 0)
  else if (Qeq_bool value 1 || Qle_bool 16777215 value)%bool
       then (PyInt 1, PyInt 1, PyInt 1)
       else channels n.

Definition convert_color_to_rgb (color_value : py_value) : py_rgb :=
  match color_value with
  | PyBool b => numeric_color (if b then 1 else 0) (if b then 1 else 0)
  | PyInt n => numeric_color (inject_Z n) n
  | PyFloat q => numeric_color q (py_int q)
  | PyTuple (r :: g :: b :: _) => (r, g, b)
  | _ => (PyInt 0, PyInt 0, PyInt 0)
  end.
End V4Style.

(** A span set in a face whose flags are exactly 16 (bold). *)
Definition bold_flag_span : RawSpan :=
  mkRawSpan (lit "Total") (mkRect 10 10 50 22) (Some (lit "Helvetica")) (Some 16)
            (Some 11%Q) (Some (PyInt 16744448)).

(* ===================================================================== *)
(** ** Shrink-to-fit insertion of [v4.py] *)
(* ===================================================================== *)

(** [range(a, b, -1)] *)
Definition range_down (a b : Z) : list Z :=
  map (fun i => a - Z.of_nat i) (seq 0 (Z.to_nat (a - b))).

Module V4Fit.

(** A call of [page.insert_textbox] with what it gave back; [c_visible]
    is false for the probe made with [render_mode=3]. *)
Record call : Type := mkCall {
  c_rect : Rect;
  c_text : str;
  c_fontname : str;
  c_fontsize : Z;
  c_color : py_rgb;
  c_rotate : Z;
  c_visible : bool;
  c_out : result Q
}.

(** The sizes of the probes of a transcript, in order. *)
Definition probes (cs : list call) : list Z :=
  map c_fontsize (filter (fun c => negb (c_visible c)) cs).

(** [min_size] of line 205. *)
Definition min_size_of (original_size : Q) : Q := py_max 4 (original_size * (3 # 10)).

Section Shrink.
(** The page answers a call from the calls made so far. *)
Variable page : list call -> Rect -> str -> str -> Z -> py_rgb -> Z -> bool -> result Q.
Variable rect : Rect.
Variables text fontname : str.
Variable color : py_rgb.
Variable rotate : Z.

Definition textbox (h : list call) (size : Z) (visible : bool) : result Q * list call :=
  let out := page h rect text fontname size color rotate visible in
  (out, h ++ [mkCall rect text fontname size color rotate visible out]).

(** The loop of lines 207-232; the boolean tells whether the function
    returned from inside the loop.  An exception of the probe or of the
    visible insertion goes on with the next size. *)
Fixpoint shrink_loop (sizes : list Z) (h : list call) : bool * list call :=
  match sizes with
  | [] => (false, h)
  | size :: sizes' =>
      match textbox h size false with
      | (Ok result, h1) =>
          if Qle_bool 0 result
          then match textbox h1 size true with
               | (Ok _, h2) => (true, h2)
               | (Exn, h2) => shrink_loop sizes' h2
               end
          else shrink_loop sizes' h1
      | (Exn, h1) => shrink_loop sizes' h1
      end
  end.

(** [shrink_font_to_fit], lines 190-246: the transcript it leaves. *)
Definition shrink_font_to_fit (original_size : Q) (h : list call) : list call :=
  let min_size := min_size_of original_size in
  match shrink_loop (range_down (py_int original_size) (py_int min_size)) h with
  | (true, h') => h'
  | (false, h') => snd (textbox h' (py_int min_size) true)
  end.
End Shrink.

(** A call made with the given arguments at one of the sizes [sizes]. *)
Definition made_with (rect : Rect) (text fontname : str) (color : py_rgb) (rotate : Z)
    (sizes : list Z) (c : call) : Prop :=
  c_rect c = rect /\ c_text c = text /\ c_fontname c = fontname
  /\ c_color c = color /\ c_rotate c = rotate
  /\ In (c_fontsize c) sizes.

(** A call that, if it was a visible insertion, raised. *)
Definition raised_if_visible (c : call) : Prop :=
  c_visible c = true -> c_out c = Exn.

(** A page on which a text fits from 9pt down. *)
Definition page_fits_below_10
  : list call -> Rect -> str -> str -> Z -> py_rgb -> Z -> bool -> result Q :=
  fun _ _ _ _ size _ _ _ => if size <? 10 then Ok 2%Q else Ok (-1)%Q.
End V4Fit.

(** The raster [split_raster] continued over the whole plane: it
    answers outside its bounds too. *)
Definition split_raster_everywhere : Pixmap := {|
  pix_width := 100;
  pix_height := 100;
  pix_pixel := fun x y => Ok (if x <? 50 then [0; 0; 0] else [255; 255; 255])
|}.

(* ===================================================================== *)
(** ** Translation call of [v4.py] *)
(* ===================================================================== *)

Module V4Text.

(** The f-string of line 27. *)
Definition prompt_for (target_lang text : str) : str :=
  lit "Translate the following English text to " ++ target_lang
  ++ lit ", preserving format and tone. Only return the translation:"
  ++ nl ++ nl ++ text.

Section Translate.
Variable U : CharTables.
Variable w : World.

(** One iteration of the loop of lines 29-43; [llm_content] stands for
    [client.chat.completions.create(...).choices[0].message.content]. *)
Definition attempt_body (prompt : str) (retries attempt : Z) : M (option str) :=
  try_except
    (content <- llm_invoke w prompt ;;
     ret (Some (strip U content)))
    (if attempt <? retries - 1
     then (time_sleep (2 ^ attempt) ;;; ret None)
     else ret None).

(** [translate_text], lines 12-45. *)
Definition translate_text (text target_lang : str) (retries : Z) : M str :=
  match strip U text with
  | [] => ret text
  | _ =>
      let prompt := prompt_for target_lang text in
      for_return (range retries) (attempt_body prompt retries) (ret text)
  end.
End Translate.
End V4Text.

(* ===================================================================== *)
(** ** Binary64 arithmetic and the redaction geometry over it *)
(* ===================================================================== *)

(** [floor(log2 |x|)] of a rational other than zero. *)
Definition ilog2 (x : Q) : Z :=
  let k := Z.log2 (Z.abs (Qnum x)) - Z.log2 (Zpos (Qden x)) in
  if Qle_bool (2 ^ k) (Qabs x) then k else k - 1.

(** Rounding to the nearest binary64 number, ties to the even
    significand: 53 significant bits from the binade of [x] down, and
    multiples of [2^-1074] below [2^-1022], where the numbers are
    subnormal.  Overflow is left out: a result beyond the largest
    binary64 number, which Python makes [inf], is rounded like any
    other. *)
Definition b64 (x : Q) : Q :=
  if Qeq_bool x 0 then 0%Q
  else let ulp := (2 ^ (Z.max (ilog2 x) (-1022) - 52))%Q in
       (inject_Z (round_half_even (x / ulp)) * ulp)%Q.

(** Half the distance from 1 to the next binary64 number, [2^-53], and
    half the distance between subnormal numbers, [2^-1075]. *)
Definition eps64 : Q := 1 # 9007199254740992.
Definition eta64 : Q := (1 # 2) * 2 ^ (-1074).

(** A binary64 number is a rational that rounding leaves alone. *)
Definition is_b64 (x : Q) : bool := Qeq_bool (b64 x) x.

(** The built-in [round(x, ndigits)] of a float, for [ndigits >= 0]:
    the decimal with [ndigits] places nearest to the exact value of the
    float, halves to even, and then the binary64 number nearest to that
    decimal.  The argument is rounded to binary64 first, so that
    [py_round64 (c / 255) 2] is [round(c / 255, 2)], whose quotient the
    division rounds. *)
Definition py_round64 (q : Qc) (ndigits : Z) : Qc :=
  let scale := inject_Z (10 ^ ndigits) in
  Q2Qc (b64 (inject_Z (round_half_even (b64 q * scale)) / scale)).

Module F64.
(** [calculate_text_dimensions] on floats: the literals [0.6] and
    [1.2] are the nearest binary64 numbers, [len(text)] is converted to
    a float by the product, and every product is rounded. *)
Definition calculate_text_dimensions (text : str) (font_size : Q) : Q * Q :=
  let avg_char_width := b64 (font_size * b64 (6 # 10)) in
  let text_width := b64 (b64 (inject_Z (len text)) * avg_char_width) in
  let text_height := b64 (font_size * b64 (12 # 10)) in
  (text_width, text_height).

(** [create_better_redaction_rect] on floats: every difference and sum
    is rounded, and [x0 + width + padding] is summed from left to
    right. *)
Definition create_better_redaction_rect (bbox : Rect) (text : str) (font_size : Q) : Rect :=
  let '(text_width, text_height) := calculate_text_dimensions text font_size in
  let width := py_max (b64 (x1 bbox - x0 bbox)) text_width in
  let height := py_max (b64 (y1 bbox - y0 bbox)) text_height in
  let padding := 1%Q in
  mkRect (b64 (x0 bbox - padding)) (b64 (y0 bbox - padding))
         (b64 (b64 (x0 bbox + width) + padding))
         (b64 (b64 (y0 bbox + height) + padding)).

(** Lines 347-349 of the page loop. *)
Definition task_redaction_rect (task : TranslationTask) : Rect :=
  create_better_redaction_rect (bbox task) (original task) (size (font_info task)).
End F64.

(** The limit on coordinates under which the padding of 1 is shown to
    survive the rounding: [2^50] in absolute value. *)
Definition page_limit : Q := inject_Z (2 ^ 50).

Definition within (limit v : Q) : Prop := (- limit <= v <= limit)%Q.

(** A span far from the origin: at [2^57] neighbouring binary64 numbers
    are 32 apart. *)
Definition far_task : TranslationTask :=
  mkTask (lit "Copay") (lit "copago")
         (mkRect (inject_Z (2 ^ 57)) 0 (inject_Z (2 ^ 57) + 128) 10)
         (mkFontInfo (lit "helv") 12 (PyInt 0) 0).

(* ===================================================================== *)
(** ** Vocabulary of the background vote *)
(* ===================================================================== *)

Section Samples.
Variable py_round : Qc -> Z -> Qc.

(** A channel value as both variants quantise it: the fraction of 255
    rounded to two decimals, then to one. *)
Definition quantized (channel : Z) : Qc :=
  py_round (py_round (Q2Qc (inject_Z channel / 255)) 2) 1.

(** The five points [v4.py] samples for a bbox, in raster coordinates:
    the centre first, then the four corners moved 5 pixels inwards. *)
Definition v4_points (bbox : Rect) (zoom : Z) : list (Z * Z) :=
  let sx0 := py_int (x0 bbox * inject_Z zoom) in
  let sy0 := py_int (y0 bbox * inject_Z zoom) in
  let sx1 := py_int (x1 bbox * inject_Z zoom) in
  let sy1 := py_int (y1 bbox * inject_Z zoom) in
  [ ((sx0 + sx1) / 2, (sy0 + sy1) / 2);
    (sx0 + 5, sy0 + 5); (sx1 - 5, sy0 + 5);
    (sx0 + 5, sy1 - 5); (sx1 - 5, sy1 - 5) ].

(** The sample [v4.py] takes at a point: none outside the raster, none
    where the pixel cannot be read or has fewer than three channels,
    else the first three channels, quantised. *)
Definition v4_sample (pix : Pixmap) (p : Z * Z) : option color3 :=
  let '(x, y) := p in
  if ((0 <=? x) && (x <? pix_width pix) && (0 <=? y) && (y <? pix_height pix))%bool
  then match pix_pixel pix x y with
       | Ok (r :: g :: b :: _) => Some (quantized r, quantized g, quantized b)
       | _ => None
       end
  else None.

Definition v4_samples (pix : Pixmap) (bbox : Rect) (zoom : Z) : list color3 :=
  flat_map (fun p => match v4_sample pix p with
                     | Some c => [c]
                     | None => []
                     end) (v4_points bbox zoom).
End Samples.

(** A raster of 100 by 100 black pixels. *)
Definition black_raster : Pixmap := {|
  pix_width := 100;
  pix_height := 100;
  pix_pixel := fun x y =>
    if ((0 <=? x) && (x <? 100) && (0 <=? y) && (y <? 100))%bool
    then Ok [0; 0; 0]
    else Exn
|}.

(* ===================================================================== *)
(** ** Float colours *)
(* ===================================================================== *)

(** A Python float: a finite number, an infinity or NaN.  [PyFloat]
    holds the finite ones. *)
Inductive py_float : Type :=
| Finite (q : Q)
| PosInf
| NegInf
| NaN.

(** [f == q] and [f >= q] for a finite [q]: every comparison with NaN
    is false. *)
Definition float_eqb (f : py_float) (q : Q) : bool :=
  match f with
  | Finite v => Qeq_bool v q
  | _ => false
  end.

Definition float_geb (f : py_float) (q : Q) : bool :=
  match f with
  | Finite v => Qle_bool q v
  | PosInf => true
  | NegInf | NaN => false
  end.

(** [int(f)]: truncation; OverflowError on an infinity, ValueError on
    NaN. *)
Definition float_int (f : py_float) : result Z :=
  match f with
  | Finite v => Ok (py_int v)
  | _ => Exn
  end.

Module V3Float.
(** The numeric branch of [convert_color_to_rgb] of [v3.py] on a float:
    the shift [color_value >> 16] raises TypeError. *)
Definition convert_color_to_rgb (color_value : py_float) : result py_rgb :=
  if float_eqb color_value 0 then Ok (PyInt 0, PyInt 0, PyInt 0)
  else if (float_eqb color_value 1 || float_geb color_value 16777215)%bool
       then Ok (PyInt 1, PyInt 1, PyInt 1)
       else Exn.
End V3Float.

Module V4Float.
(** The numeric branch of [convert_color_to_rgb] of [v4.py] on a float:
    the shifts are taken on [int(color_value)]. *)
Definition convert_color_to_rgb (color_value : py_float) : result py_rgb :=
  if float_eqb color_value 0 then Ok (PyInt 0, PyInt 0, PyInt 0)
  else if (float_eqb color_value 1 || float_geb color_value 16777215)%bool
       then Ok (PyInt 1, PyInt 1, PyInt 1)
       else match float_int color_value with
            | Exn => Exn
            | Ok n => Ok (channels n)
            end.
End V4Float.
(* ===================================================================== *)
(** * Properties *)
(* ===================================================================== *)

(** ** The matcher decides the language *)

Lemma nullable_spec (r : regex) : nullable r = true <-> Matches r [].
Proof.
  split.
  - induction r; simpl; intros H; try discriminate.
    + constructor.
    + apply andb_prop in H as [H1 H2].
      change (@nil char) with (@nil char ++ []). constructor; auto.
    + apply orb_prop in H as [H | H]; [apply MAltL | apply MAltR]; auto.
    + constructor.
  - intros H. remember (@nil char) as s eqn:Es.
    induction H; simpl; try discriminate; auto.
    + apply app_eq_nil in Es as [-> ->]. rewrite IHMatches1, IHMatches2; auto.
    + rewrite IHMatches; auto.
    + rewrite IHMatches; auto using orb_true_r.
Qed.

Lemma deriv_sound (c : char) (r : regex) :
  forall s, Matches (deriv c r) s -> Matches r (c :: s).
Proof.
  induction r; simpl; intros s H.
  - inversion H.
  - inversion H.
  - destruct (p c) eqn:Ep; inversion H; subst. constructor; exact Ep.
  - destruct (nullable r1) eqn:En.
    + inversion H; subst.
      * match goal with X : Matches (Cat _ _) _ |- _ => inversion X; subst end.
        change (c :: s1 ++ s2) with ((c :: s1) ++ s2). constructor; auto.
      * change (c :: s) with ([] ++ c :: s). constructor; auto.
        apply nullable_spec; exact En.
    + inversion H; subst.
      change (c :: s1 ++ s2) with ((c :: s1) ++ s2). constructor; auto.
  - inversion H; subst; [apply MAltL | apply MAltR]; auto.
  - inversion H; subst.
    change (c :: s1 ++ s2) with ((c :: s1) ++ s2). constructor; auto.
Qed.

Lemma deriv_complete (c : char) (r : regex) (cs : str) :
  Matches r cs -> forall s, cs = c :: s -> Matches (deriv c r) s.
Proof.
  induction 1; intros s' E; simpl; try discriminate.
  - injection E as -> <-. rewrite H. constructor.
  - destruct s1 as [| a s1'].
    + simpl in E. subst s2.
      assert (En : nullable r1 = true) by (apply nullable_spec; assumption).
      rewrite En. apply MAltR. auto.
    + simpl in E. injection E as -> <-.
      destruct (nullable r1); [apply MAltL |]; constructor; auto.
  - apply MAltL; auto.
  - apply MAltR; auto.
  - destruct s1 as [| a s1'].
    + simpl in E. auto.
    + simpl in E. injection E as -> <-. constructor; auto.
Qed.

Lemma fullmatch_spec (s : str) : forall r, fullmatch r s = true <-> Matches r s.
Proof.
  induction s as [| c s IH]; intros r; simpl.
  - apply nullable_spec.
  - rewrite IH. split.
    + apply deriv_sound.
    + intros H. eapply deriv_complete; eauto.
Qed.

Lemma before_final_newline_spec (s s' : str) :
  before_final_newline s = Some s' <-> s = s' ++ [10%N].
Proof.
  unfold before_final_newline. split.
  - intros H. rewrite <- (rev_involutive s).
    destruct (rev s) as [| c t]; [discriminate |].
    destruct (N.eq_dec c 10) as [-> | Hc].
    + injection H as <-. reflexivity.
    + exfalso. destruct c as [| p]; [discriminate |].
      do 4 (destruct p as [p | p |]; try discriminate). contradiction.
  - intros ->. rewrite rev_app_distr. simpl. rewrite rev_involutive. reflexivity.
Qed.

(** [re.match] with [^] and [$]: the text is in the language, or it is
    a word of the language followed by one newline. *)
Lemma re_match_spec (r : regex) (s : str) :
  re_match r s = true <-> Matches r s \/ exists s', s = s' ++ [10%N] /\ Matches r s'.
Proof.
  unfold re_match. rewrite orb_true_iff, fullmatch_spec. split.
  - intros [H | H]; [left; exact H | right].
    destruct (before_final_newline s) as [s' |] eqn:E; [| discriminate].
    exists s'. split; [apply before_final_newline_spec; exact E |].
    apply fullmatch_spec; exact H.
  - intros [H | (s' & Hs & H)]; [left; exact H | right].
    apply before_final_newline_spec in Hs. rewrite Hs.
    apply fullmatch_spec; exact H.
Qed.

Example number_pattern :
  re_match (pat_number ascii_tables) (lit "2024") = true
  /\ re_match (pat_number ascii_tables) (lit "20a4") = false
  /\ re_match (pat_number ascii_tables) (lit "") = false.
Proof. repeat split. Qed.

Example currency_pattern :
  re_match (pat_currency ascii_tables) (lit "$1,250.00") = true
  /\ re_match (pat_currency ascii_tables) (lit "$5") = true
  /\ re_match (pat_currency ascii_tables) (lit "$") = false
  /\ re_match (pat_currency ascii_tables) (lit "$5 copay") = false.
Proof. repeat split. Qed.

Example code_pattern :
  re_match pat_code (lit "H5619136002") = true
  /\ re_match pat_code (lit "CT") = false
  /\ re_match pat_code (lit "Copay") = false.
Proof. repeat split. Qed.

(** ** Translation policy *)

Section PolicyFacts.
Variable U : CharTables.

Lemma should_translate_text_false_iff (text : str) :
  should_translate_text U text = false <-> rejected U (strip U text).
Proof.
  unfold should_translate_text, rejected.
  destruct (strip U text) as [| c t] eqn:Et.
  - split; auto. intros _. right; right; right; left. unfold len; simpl; lia.
  - destruct (re_match (pat_number U) (c :: t)); [tauto |].
    destruct (re_match (pat_currency U) (c :: t)); [tauto |].
    destruct (re_match pat_code (c :: t)); [tauto |].
    destruct (Z.leb_spec (len (c :: t)) 2); [tauto |].
    destruct (in_dec str_eq_dec (upper U (c :: t)) abbreviations); [tauto |].
    destruct (Z.ltb_spec (alpha_chars U (c :: t)) 3); [tauto |].
    split; [discriminate |].
    intros [H' | [H' | [H' | [H' | [H' | H']]]]];
      try discriminate; try lia; contradiction.
Qed.
End PolicyFacts.

(** C1.  A text whose trimmed form is a pure number, a currency amount,
    a code of capitals and digits, at most two characters long, one of
    the fixed abbreviations up to case, or has fewer than three letters
    is not eligible, and [translate_text_conservative] returns it as it
    came, leaving the transcript untouched: the backend is not called. *)
Theorem C1_rejected_text_passes_through
    (U : CharTables) (w : World) (text target_lang : str) (retries : Z)
    (h : list event) :
  rejected U (strip U text) ->
  should_translate_text U text = false
  /\ translate_text_conservative U w text target_lang retries h = (Ok text, h).
Proof.
  intros H. apply should_translate_text_false_iff in H.
  split; [exact H |].
  unfold translate_text_conservative. rewrite H. reflexivity.
Qed.

Lemma C1_rejected_text_passes_through_witness :
  rejected ascii_tables (strip ascii_tables (lit " $1,250.00 "))
  /\ (should_translate_text ascii_tables (lit " $1,250.00 ") = false
      /\ translate_text_conservative ascii_tables world_down (lit " $1,250.00 ")
           (lit "Spanish") 3 [] = (Ok (lit " $1,250.00 "), [])).
Proof.
  assert (R : rejected ascii_tables (strip ascii_tables (lit " $1,250.00 "))).
  { right; left. vm_compute. reflexivity. }
  split; [exact R |].
  apply (C1_rejected_text_passes_through ascii_tables world_down (lit " $1,250.00 ")
           (lit "Spanish") 3 [] R).
Defined.

(** ** Redaction planner *)

Lemma Qltb_true (a b : Q) : Qltb a b = true <-> (a < b)%Q.
Proof.
  unfold Qltb. rewrite negb_true_iff. split.
  - intros H. apply Qnot_le_lt. intros L. apply Qle_bool_iff in L. congruence.
  - intros H. destruct (Qle_bool b a) eqn:E; auto.
    apply Qle_bool_iff in E. exfalso. apply (Qlt_not_le _ _ H E).
Qed.

Lemma Qltb_false (a b : Q) : Qltb a b = false <-> (b <= a)%Q.
Proof.
  unfold Qltb. rewrite negb_false_iff. apply Qle_bool_iff.
Qed.

Lemma py_max_Qmax (a b : Q) : (py_max a b == Qmax a b)%Q.
Proof.
  unfold py_max. destruct (Qltb a b) eqn:E.
  - apply Qltb_true in E. symmetry. apply Q.max_r. apply Qlt_le_weak; exact E.
  - apply Qltb_false in E. symmetry. apply Q.max_l; exact E.
Qed.

Lemma py_max_ge_l (a b : Q) : (a <= py_max a b)%Q.
Proof. rewrite py_max_Qmax. apply Q.le_max_l. Qed.

Lemma py_max_ge_r (a b : Q) : (b <= py_max a b)%Q.
Proof. rewrite py_max_Qmax. apply Q.le_max_r. Qed.





(** Over exact rationals the padding always shows. *)
Lemma create_better_redaction_rect_contains (b : Rect) (text : str) (font_size : Q) :
  let r := create_better_redaction_rect b text font_size in
  (x0 r < x0 b /\ y0 r < y0 b /\ x1 b < x1 r /\ y1 b < y1 r)%Q.
Proof.
  unfold create_better_redaction_rect.
  destruct (calculate_text_dimensions text font_size) as [tw th]; simpl.
  pose proof (py_max_ge_l (x1 b - x0 b) tw) as Hw.
  pose proof (py_max_ge_l (y1 b - y0 b) th) as Hh.
  split; [| split; [| split]]; lra.
Qed.

(** ** Loops *)

Lemma for_return_app {A R} (l1 l2 : list A) (body : A -> M (option R)) (orelse : M R) :
  forall h, for_return (l1 ++ l2) body orelse h
            = for_return l1 body (for_return l2 body orelse) h.
Proof.
  induction l1 as [| a l1 IH]; intros h; simpl; [reflexivity |].
  unfold bind. destruct (body a h) as [[[v |] |] h']; auto.
Qed.

(** ** Retry loop of the translation policy *)

Section RetryFacts.
Variable U : CharTables.
Variable w : World.
Variables prompt target_lang : str.
Variable retries : Z.

Lemma retry_loop_failures (orelse : M str) :
  forall n a h,
    (forall k, (k < n)%nat -> llm_content w (h ++ failed_from prompt retries a k) prompt = Exn) ->
    for_return (map Z.of_nat (seq a n)) (attempt_body U w prompt target_lang retries) orelse h
    = orelse (h ++ failed_from prompt retries a n).
Proof.
  induction n as [| n IH]; intros a h Hfail; simpl.
  - rewrite app_nil_r. reflexivity.
  - pose proof (Hfail O ltac:(lia)) as H0. simpl in H0. rewrite app_nil_r in H0.
    unfold bind at 1. unfold attempt_body at 1, try_except, bind at 1, llm_invoke.
    rewrite H0.
    destruct (Z.of_nat a <? retries - 1) eqn:Ea.
    + unfold bind at 1, time_sleep, ret at 1.
      rewrite IH.
      * f_equal. rewrite <- !app_assoc. reflexivity.
      * intros k Hk. specialize (Hfail (S k) ltac:(lia)). simpl in Hfail.
        rewrite Ea in Hfail. rewrite <- !app_assoc. exact Hfail.
    + unfold ret at 1.
      rewrite IH.
      * f_equal. rewrite <- !app_assoc. reflexivity.
      * intros k Hk. specialize (Hfail (S k) ltac:(lia)). simpl in Hfail.
        rewrite Ea in Hfail. rewrite <- !app_assoc. exact Hfail.
Qed.

Lemma retry_loop_success (orelse : M str) (content : str) :
  forall n a h,
    llm_content w h prompt = Ok content ->
    for_return (map Z.of_nat (seq a (S n))) (attempt_body U w prompt target_lang retries) orelse h
    = (Ok (clean_response U target_lang content), h ++ [EvLlmInvoke prompt (Ok content)]).
Proof.
  intros n a h H. simpl.
  unfold bind at 1. unfold attempt_body, try_except, bind at 1, llm_invoke.
  rewrite H. reflexivity.
Qed.

(** Failed attempts that are all followed by a pause. *)
Lemma failed_from_paused :
  forall n a, Z.of_nat a + Z.of_nat n <= retries - 1 ->
    failed_from prompt retries a n
    = flat_map (fun i => [EvLlmInvoke prompt Exn; EvSleep (2 ^ Z.of_nat i)]) (seq a n).
Proof.
  induction n as [| n IH]; intros a Ha; simpl; [reflexivity |].
  destruct (Z.ltb_spec (Z.of_nat a) (retries - 1)); [| lia].
  simpl. rewrite IH by lia. reflexivity.
Qed.

(** All the configured attempts fail: no pause after the last one. *)
Lemma failed_from_exhausted :
  forall n a, Z.of_nat a + Z.of_nat n = retries - 1 ->
    failed_from prompt retries a (S n)
    = flat_map (fun i => [EvLlmInvoke prompt Exn; EvSleep (2 ^ Z.of_nat i)]) (seq a n)
      ++ [EvLlmInvoke prompt Exn].
Proof.
  induction n as [| n IH]; intros a Ha.
  - simpl. destruct (Z.ltb_spec (Z.of_nat a) (retries - 1)); [lia | reflexivity].
  - change (failed_from prompt retries a (S (S n)))
      with (EvLlmInvoke prompt Exn
              :: (if Z.of_nat a <? retries - 1 then [EvSleep (2 ^ Z.of_nat a)] else [])
              ++ failed_from prompt retries (S a) (S n)).
    destruct (Z.ltb_spec (Z.of_nat a) (retries - 1)); [| lia].
    rewrite IH by lia. reflexivity.
Qed.
End RetryFacts.

Lemma llm_calls_app (h1 h2 : list event) :
  llm_calls (h1 ++ h2) = (llm_calls h1 + llm_calls h2)%nat.
Proof. unfold llm_calls. rewrite filter_app, length_app. reflexivity. Qed.

Lemma sleeps_app (h1 h2 : list event) : sleeps (h1 ++ h2) = sleeps h1 ++ sleeps h2.
Proof. unfold sleeps. apply flat_map_app. Qed.

Lemma backoff_trace_S (prompt : str) (n : nat) :
  backoff_trace prompt (S n)
  = backoff_trace prompt n ++ [EvLlmInvoke prompt Exn; EvSleep (2 ^ Z.of_nat n)].
Proof.
  unfold backoff_trace. rewrite seq_S, flat_map_app. simpl. reflexivity.
Qed.

(** [n] failed attempts make [n] backend calls and sleep 1, 2, 4, ...
    seconds. *)
Lemma backoff_trace_counts (prompt : str) (n : nat) :
  llm_calls (backoff_trace prompt n) = n
  /\ sleeps (backoff_trace prompt n) = map (fun i => 2 ^ Z.of_nat i) (seq 0 n).
Proof.
  induction n as [| n [IHc IHs]]; [split; reflexivity |].
  rewrite backoff_trace_S, llm_calls_app, sleeps_app, IHc, IHs, seq_S, map_app.
  split; [cbn; lia | reflexivity].
Qed.

(** C5.  For a text that goes to the backend (eligible, no glossary
    hit): when the backend raises on every configured attempt, the
    original text is returned without an exception, after [retries]
    calls with sleeps of 1, 2, 4, ... seconds between consecutive
    attempts and none after the last; when it raises [N < retries]
    times and then answers, the cleaned answer is returned after
    exactly [N] failed calls, [N] sleeps of [2^attempt] seconds and
    one successful call, and nothing is called after it. *)
Theorem C5_retry_with_backoff
    (U : CharTables) (w : World) (text target_lang : str) (retries : Z)
    (h : list event) :
  should_translate_text U text = true ->
  glossary_lookup U text = None ->
  let prompt := prompt_for target_lang text in
  let run := translate_text_conservative U w text target_lang retries h in
  (fails_first w h prompt (Z.to_nat retries) ->
   let trace :=
     backoff_trace prompt (Z.to_nat retries - 1)
     ++ (if 0 <? retries then [EvLlmInvoke prompt Exn] else []) in
   run = (Ok text, h ++ trace)
   /\ llm_calls trace = Z.to_nat retries
   /\ sleeps trace = map (fun i => 2 ^ Z.of_nat i) (seq 0 (Z.to_nat retries - 1)))
  /\
  (forall (N : nat) (content : str),
     Z.of_nat N < retries ->
     fails_first w h prompt N ->
     llm_content w (h ++ backoff_trace prompt N) prompt = Ok content ->
     let trace := backoff_trace prompt N ++ [EvLlmInvoke prompt (Ok content)] in
     run = (Ok (clean_response U target_lang content), h ++ trace)
     /\ llm_calls trace = S N
     /\ sleeps trace = map (fun i => 2 ^ Z.of_nat i) (seq 0 N)).
Proof.
  intros Hs Hg prompt run.
  assert (Erun : run = for_return (range retries)
                         (attempt_body U w prompt target_lang retries) (ret text) h).
  { unfold run, translate_text_conservative. rewrite Hs, Hg. reflexivity. }
  split.
  - intros Hfail trace.
    destruct (backoff_trace_counts prompt (Z.to_nat retries - 1)) as [Hc Hsl].
    split; [| split].
    + rewrite Erun. unfold range.
      destruct (Z.to_nat retries) as [| m] eqn:Em.
      * assert (E0 : (0 <? retries) = false) by (apply Z.ltb_ge; lia).
        unfold trace. rewrite E0. simpl. rewrite app_nil_r. reflexivity.
      * assert (E0 : (0 <? retries) = true) by (apply Z.ltb_lt; lia).
        rewrite retry_loop_failures.
        -- unfold ret. rewrite (failed_from_exhausted prompt retries m 0) by lia.
           unfold trace, backoff_trace. rewrite E0.
           replace (S m - 1)%nat with m by lia. reflexivity.
        -- intros k Hk.
           rewrite (failed_from_paused prompt retries k 0) by lia.
           apply Hfail. lia.
    + unfold trace. rewrite llm_calls_app, Hc.
      destruct (Z.ltb_spec 0 retries); cbn; lia.
    + unfold trace. rewrite sleeps_app, Hsl.
      destruct (0 <? retries); cbn; apply app_nil_r.
  - intros N content HN Hfail Hok trace.
    destruct (backoff_trace_counts prompt N) as [Hc Hsl].
    split; [| split].
    + rewrite Erun. unfold range.
      assert (Esplit : seq 0 (Z.to_nat retries)
                       = seq 0 N ++ seq N (S (Z.to_nat retries - N - 1))).
      { replace (Z.to_nat retries) with (N + S (Z.to_nat retries - N - 1))%nat at 1 by lia.
        rewrite seq_app. reflexivity. }
      rewrite Esplit, map_app.
      rewrite for_return_app.
      rewrite retry_loop_failures.
      * rewrite (failed_from_paused prompt retries N 0) by lia.
        fold (backoff_trace prompt N).
        rewrite (retry_loop_success U w prompt target_lang retries (ret text) content).
        -- unfold trace. rewrite app_assoc. reflexivity.
        -- exact Hok.
      * intros k Hk.
        rewrite (failed_from_paused prompt retries k 0) by lia.
        apply Hfail. exact Hk.
    + unfold trace. rewrite llm_calls_app, Hc. cbn. lia.
    + unfold trace. rewrite sleeps_app, Hsl. cbn. apply app_nil_r.
Qed.

Lemma C5_retry_with_backoff_witness :
  let prompt := prompt_for (lit "Spanish") sentence in
  translate_text_conservative ascii_tables world_down sentence (lit "Spanish") 3 []
  = (Ok sentence,
     [EvLlmInvoke prompt Exn; EvSleep 1; EvLlmInvoke prompt Exn; EvSleep 2;
      EvLlmInvoke prompt Exn])
  /\ translate_text_conservative ascii_tables (world_flaky 2 answer (-1) Exn)
       sentence (lit "Spanish") 3 []
     = (Ok (lit "Se aplica el deducible anual"),
        [EvLlmInvoke prompt Exn; EvSleep 1; EvLlmInvoke prompt Exn; EvSleep 2;
         EvLlmInvoke prompt (Ok answer)]).
Proof.
  assert (Hs : should_translate_text ascii_tables sentence = true)
    by (vm_compute; reflexivity).
  assert (Hg : glossary_lookup ascii_tables sentence = None)
    by (vm_compute; reflexivity).
  split.
  - destruct (C5_retry_with_backoff ascii_tables world_down sentence (lit "Spanish") 3 []
                Hs Hg) as [HA _].
    assert (Hf : fails_first world_down [] (prompt_for (lit "Spanish") sentence)
                   (Z.to_nat 3)) by (intros k _; reflexivity).
    exact (proj1 (HA Hf)).
  - destruct (C5_retry_with_backoff ascii_tables (world_flaky 2 answer (-1) Exn)
                sentence (lit "Spanish") 3 [] Hs Hg) as [_ HB].
    assert (Hf : fails_first (world_flaky 2 answer (-1) Exn) []
                   (prompt_for (lit "Spanish") sentence) 2).
    { intros k Hk. destruct k as [| [| k]]; [reflexivity | reflexivity | lia]. }
    exact (proj1 (HB 2%nat answer ltac:(lia) Hf ltac:(reflexivity))).
Defined.

(** ** Glossary *)

(** C6.  An eligible text of at most two words whose lowercased,
    trimmed form is a key of the glossary is answered with the glossary
    value, and the transcript is left as it was: no backend call. *)
Theorem C6_glossary_hit
    (U : CharTables) (w : World) (text target_lang value : str) (retries : Z)
    (h : list event) :
  should_translate_text U text = true ->
  len (split U text) <= 2 ->
  dict_get common_terms (strip U (lower U text)) = Some value ->
  translate_text_conservative U w text target_lang retries h = (Ok value, h).
Proof.
  intros Hs Hw Hv. unfold translate_text_conservative, glossary_lookup.
  rewrite Hs. cbn [negb].
  destruct (Z.leb_spec (len (split U text)) 2); [| lia].
  rewrite Hv. reflexivity.
Qed.

Lemma C6_glossary_hit_witness :
  translate_text_conservative ascii_tables world_down (lit " Copay") (lit "Spanish") 3 []
  = (Ok (lit "copago"), [])
  /\ translate_text_conservative ascii_tables world_down (lit "deductible") (lit "Spanish") 3 []
     = (Ok (lit "deducible"), []).
Proof.
  split.
  - apply (C6_glossary_hit ascii_tables world_down (lit " Copay") (lit "Spanish")
             (lit "copago") 3 []); vm_compute; solve [reflexivity | discriminate].
  - apply (C6_glossary_hit ascii_tables world_down (lit "deductible") (lit "Spanish")
             (lit "deducible") 3 []); vm_compute; solve [reflexivity | discriminate].
Defined.

(** The keys of the glossary are single lowercase words, so an
    upper-case spelling never reaches it: it is a code for the filter. *)
Example glossary_uppercase_is_code :
  translate_text_conservative ascii_tables world_down (lit "COPAY") (lit "Spanish") 3 []
  = (Ok (lit "COPAY"), []).
Proof. vm_compute. reflexivity. Qed.

(** ** Reinsertion engine *)

Lemma color_rgb_of_black (c : py_value) : color_rgb_of c = black.
Proof.
  destruct c as [| b | n | q | s | items]; simpl; try reflexivity.
  - destruct b; reflexivity.
  - destruct (n =? 0); reflexivity.
  - destruct (Qeq_bool q 0); reflexivity.
Qed.

Lemma strategies_spec_ladder (b : Rect) (text : str) (fi : FontInfo) :
  strategies b text fi
  = spec_ladder (font fi) (size fi) (original_rect_of b text) (expanded_rect_of b).
Proof. reflexivity. Qed.

Section ReinsertFacts.
Variable U : CharTables.
Variable w : World.

Lemma strategy_loop_walk (text : str) (orelse : M bool) :
  forall l h,
    exists es hit,
      ladder_run text l es hit
      /\ for_return l (strategy_body w text black) orelse h
         = if hit : bool then (Ok true, h ++ es) else orelse (h ++ es).
Proof.
  induction l as [| s l IH]; intros h.
  - exists [], false. split; [constructor |]. simpl. rewrite app_nil_r. reflexivity.
  - simpl. unfold bind at 1.
    unfold strategy_body at 1, try_except, bind at 1, page_insert_textbox.
    set (out := insert_textbox w h (s_rect s) text (s_font s)
                  (reasonable_size (s_size s)) black).
    fold (attempt_event text s out).
    destruct (fit_ok out) eqn:Efit.
    + exists [attempt_event text s out], true.
      split; [constructor; exact Efit |].
      destruct out as [r |]; simpl in Efit; [| discriminate].
      rewrite Efit. reflexivity.
    + destruct (IH (h ++ [attempt_event text s out])) as (es & hit & Hrun & Heq).
      exists (attempt_event text s out :: es), hit.
      split; [constructor; assumption |].
      assert (Estep : (let (r0, h') :=
                         match out with
                         | Ok a =>
                             (if Qle_bool 0 a then ret (Some true) else ret None)
                               (h ++ [attempt_event text s out])
                         | Exn => (Exn, h ++ [attempt_event text s out])
                         end in
                       match r0 with
                       | Ok a => (Ok a, h')
                       | Exn => ret None h'
                       end)
                      = (Ok (@None bool), h ++ [attempt_event text s out])).
      { destruct out as [r |]; simpl in Efit |- *; [rewrite Efit |]; reflexivity. }
      rewrite Estep. rewrite Heq.
      rewrite <- !app_assoc. reflexivity.
Qed.

Lemma last_resort_run (b : Rect) (text : str) (h : list event) :
  let out := insert_text w h (mkPoint (x0 b) (y0 b + 10)%Q) text (lit "helv") 8%Q black in
  last_resort w b text h = (Ok (fit_ok out), h ++ [point_event b text out]).
Proof.
  unfold last_resort, try_except, bind, page_insert_text, point_event, black.
  destruct (insert_text w h _ text (lit "helv") 8%Q (0, 0, 0)%Q) as [r |]; reflexivity.
Qed.

(** The whole function: blank text is refused without a call; any other
    text walks down the nine strategies. *)
Lemma insert_text_with_fallbacks_run (b : Rect) (text : str) (fi : FontInfo)
    (h : list event) :
  (strip U text = [] -> insert_text_with_fallbacks U w b text fi h = (Ok false, h))
  /\ (strip U text <> [] ->
      walks_ladder
        (spec_ladder (font fi) (size fi) (original_rect_of b text) (expanded_rect_of b))
        b text h (insert_text_with_fallbacks U w b text fi h)).
Proof.
  unfold insert_text_with_fallbacks. split.
  - intros ->. reflexivity.
  - intros Hne. destruct (strip U text) as [| c t]; [contradiction |].
    rewrite color_rgb_of_black, strategies_spec_ladder.
    destruct (strategy_loop_walk text (last_resort w b text)
                (spec_ladder (font fi) (size fi) (original_rect_of b text)
                   (expanded_rect_of b)) h) as (es & hit & Hrun & Heq).
    exists es, hit. split; [exact Hrun |].
    rewrite Heq. destruct hit; [reflexivity |].
    eexists. rewrite last_resort_run, <- app_assoc. reflexivity.
Qed.
End ReinsertFacts.


Lemma rect_width_small (r : Rect) (c : Q) :
  (0 < c)%Q -> (Qltb (rect_width r) c = true <-> (x1 r - x0 r < c)%Q).
Proof.
  intros Hc. rewrite Qltb_true. unfold rect_width. rewrite py_max_Qmax.
  split; intros H.
  - eapply Qle_lt_trans; [apply Q.le_max_r | exact H].
  - apply Q.max_lub_lt; assumption.
Qed.

Lemma rect_height_small (r : Rect) (c : Q) :
  (0 < c)%Q -> (Qltb (rect_height r) c = true <-> (y1 r - y0 r < c)%Q).
Proof.
  intros Hc. rewrite Qltb_true. unfold rect_height. rewrite py_max_Qmax.
  split; intros H.
  - eapply Qle_lt_trans; [apply Q.le_max_r | exact H].
  - apply Q.max_lub_lt; assumption.
Qed.

(** [original_rect]: the bbox, made [max(50, 8 * len(text))] wide when
    it is narrower than 10 and 12 high when it is lower than 8. *)
Lemma original_rect_of_spec (b : Rect) (text : str) :
  let r := original_rect_of b text in
  x0 r = x0 b /\ y0 r = y0 b
  /\ ((x1 b - x0 b < 10)%Q -> x1 r = (x0 b + inject_Z (Z.max 50 (len text * 8)))%Q)
  /\ ((10 <= x1 b - x0 b)%Q -> x1 r = x1 b)
  /\ ((y1 b - y0 b < 8)%Q -> y1 r = (y0 b + 12)%Q)
  /\ ((8 <= y1 b - y0 b)%Q -> y1 r = y1 b).
Proof.
  unfold original_rect_of.
  pose proof (rect_width_small b 10 ltac:(reflexivity)) as Hw.
  destruct (Qltb (rect_width b) 10) eqn:Ew.
  - pose proof (proj1 Hw eq_refl) as Hlt.
    pose proof (rect_height_small
                  (set_x1 b (x0 b + inject_Z (Z.max 50 (len text * 8)))%Q) 8
                  ltac:(reflexivity)) as Hh.
    destruct (Qltb (rect_height (set_x1 b _)) 8) eqn:Eh; simpl in *.
    + pose proof (proj1 Hh eq_refl).
      repeat (split; [try reflexivity; intros; try reflexivity; lra |]).
      intros; lra.
    + assert (~ (y1 b - y0 b < 8)%Q) by (intros X; apply Hh in X; discriminate).
      repeat (split; [try reflexivity; intros; try reflexivity; lra |]).
      intros; reflexivity.
  - assert (~ (x1 b - x0 b < 10)%Q) by (intros X; apply Hw in X; discriminate).
    pose proof (rect_height_small b 8 ltac:(reflexivity)) as Hh.
    destruct (Qltb (rect_height b) 8) eqn:Eh; simpl in *.
    + pose proof (proj1 Hh eq_refl).
      repeat (split; [try reflexivity; intros; try reflexivity; lra |]).
      intros; lra.
    + assert (~ (y1 b - y0 b < 8)%Q) by (intros X; apply Hh in X; discriminate).
      repeat (split; [try reflexivity; intros; try reflexivity; lra |]).
      intros; reflexivity.
Qed.

Lemma original_rect_of_large (b : Rect) (text : str) :
  (10 <= x1 b - x0 b)%Q -> (8 <= y1 b - y0 b)%Q -> original_rect_of b text = b.
Proof.
  intros Hw Hh.
  destruct (original_rect_of_spec b text) as (E0 & E1 & _ & E2 & _ & E3).
  specialize (E2 Hw). specialize (E3 Hh).
  destruct (original_rect_of b text) as [a0 a1 a2 a3], b as [b0 b1 b2 b3].
  simpl in *. congruence.
Qed.

Lemma ladder_run_colors (text : str) (l : list Strategy) (es : list event) (hit : bool) :
  ladder_run text l es hit -> Forall (fun e => draw_color e = Some black) es.
Proof.
  induction 1; repeat constructor; assumption.
Qed.










(** C10.  Whatever the span's colour entry holds, the colour computed
    for drawing is black, and every call the function makes on the page
    (each text-box attempt and the point insertion) is a drawing call
    in black (0, 0, 0). *)
Theorem C10_text_always_black
    (U : CharTables) (w : World) (b : Rect) (text : str) (fi : FontInfo)
    (h : list event) :
  color_rgb_of (color fi) = (0, 0, 0)%Q
  /\ exists es,
       snd (insert_text_with_fallbacks U w b text fi h) = h ++ es
       /\ Forall (fun e => draw_color e = Some (0, 0, 0)%Q) es.
Proof.
  split; [apply color_rgb_of_black |].
  destruct (insert_text_with_fallbacks_run U w b text fi h) as [Hblank Hwalk].
  destruct (strip U text) as [| c t] eqn:Et.
  - exists []. rewrite Hblank by reflexivity. simpl. rewrite app_nil_r.
    split; constructor.
  - destruct Hwalk as (es & hit & Hrun & Hres); [discriminate |].
    pose proof (ladder_run_colors _ _ _ _ Hrun) as Hc.
    destruct hit.
    + exists es. rewrite Hres. split; [reflexivity | exact Hc].
    + destruct Hres as [out Hres]. exists (es ++ [point_event b text out]).
      rewrite Hres. split; [reflexivity |].
      apply Forall_app. split; [exact Hc | repeat constructor].
Qed.

(** ** Page orchestrator *)

Section PageFacts.
Variable U : CharTables.
Variable w : World.

Lemma retry_loop_events (prompt target_lang text : str) (retries : Z) :
  forall (l : list Z) h,
    exists v T,
      for_return l (attempt_body U w prompt target_lang retries) (ret text) h
      = (Ok v, h ++ T)
      /\ Forall (fun e => is_translation e = true) T.
Proof.
  induction l as [| a l IH]; intros h.
  - exists text, []. simpl. rewrite app_nil_r. split; [reflexivity | constructor].
  - simpl. unfold bind at 1.
    unfold attempt_body at 1, try_except, bind at 1, llm_invoke.
    destruct (llm_content w h prompt) as [content |].
    + eexists _, [_]. split; [reflexivity | repeat constructor].
    + destruct (a <? retries - 1).
      * unfold bind at 1, time_sleep, ret at 1.
        destruct (IH ((h ++ [EvLlmInvoke prompt Exn]) ++ [EvSleep (2 ^ a)]))
          as (v & T & -> & HT).
        exists v, (EvLlmInvoke prompt Exn :: EvSleep (2 ^ a) :: T).
        rewrite <- !app_assoc. split; [reflexivity | repeat constructor; exact HT].
      * unfold ret at 1.
        destruct (IH (h ++ [EvLlmInvoke prompt Exn])) as (v & T & -> & HT).
        exists v, (EvLlmInvoke prompt Exn :: T).
        rewrite <- !app_assoc. split; [reflexivity | repeat constructor; exact HT].
Qed.

(** Translation never raises and touches the backend only. *)
Lemma translate_text_conservative_events (text target_lang : str) (retries : Z)
    (h : list event) :
  exists v T,
    translate_text_conservative U w text target_lang retries h = (Ok v, h ++ T)
    /\ Forall (fun e => is_translation e = true) T.
Proof.
  unfold translate_text_conservative.
  destruct (should_translate_text U text); simpl.
  - destruct (glossary_lookup U text) as [v |].
    + exists v, []. rewrite app_nil_r. split; [reflexivity | constructor].
    + apply retry_loop_events.
  - exists text, []. rewrite app_nil_r. split; [reflexivity | constructor].
Qed.

Lemma build_tasks_events (target_lang : str) :
  forall (spans : list Span) (acc : list TranslationTask) h,
    exists tasks T,
      for_fold spans acc (build_task_step U w target_lang) h
      = (Ok tasks, h ++ T)
      /\ Forall (fun e => is_translation e = true) T.
Proof.
  induction spans as [| sp spans IH]; intros acc h.
  - exists acc, []. simpl. rewrite app_nil_r. split; [reflexivity | constructor].
  - cbn [for_fold]. unfold bind at 1. unfold build_task_step at 1, bind at 1.
    destruct (translate_text_conservative_events (span_text sp) target_lang 3 h)
      as (v & T1 & -> & HT1).
    destruct (str_eq_dec v (span_text sp)); unfold ret at 1.
    + destruct (IH acc (h ++ T1)) as (tasks & T2 & -> & HT2).
      exists tasks, (T1 ++ T2). rewrite app_assoc.
      split; [reflexivity | apply Forall_app; split; assumption].
    + destruct (IH (acc ++ [mkTask (span_text sp) v (span_bbox sp) (span_font_info sp)])
                  (h ++ T1)) as (tasks & T2 & -> & HT2).
      exists tasks, (T1 ++ T2). rewrite app_assoc.
      split; [reflexivity | apply Forall_app; split; assumption].
Qed.

Lemma add_redactions_events :
  forall (tasks : list TranslationTask) (acc : list Rect) h,
    exists res D,
      for_fold tasks acc (add_redaction_step w) h = (res, h ++ D)
      /\ ((exists rects, res = Ok rects /\ D = annotations tasks)
          \/ (exists done task rest,
                 tasks = done ++ task :: rest
                 /\ res = Exn /\ D = annotations done ++ [annot_event task Exn])).
Proof.
  induction tasks as [| t tasks IH]; intros acc h.
  - exists (Ok acc), []. simpl. rewrite app_nil_r. split; [reflexivity |].
    left. exists acc. split; reflexivity.
  - cbn [for_fold]. unfold bind at 1.
    unfold add_redaction_step at 1, bind at 1, page_add_redact_annot.
    fold white.
    destruct (add_redact_annot w h (task_redaction_rect t) white) as [[] |] eqn:Eout.
    + fold (annot_event t (Ok tt)). unfold ret at 1.
      destruct (IH (acc ++ [task_redaction_rect t]) (h ++ [annot_event t (Ok tt)]))
        as (res & D & -> & HD).
      exists res, (annot_event t (Ok tt) :: D).
      split; [rewrite <- app_assoc; reflexivity |].
      destruct HD as [(rects & -> & ->) | (done & task & rest & -> & -> & ->)].
      * left. exists rects. split; reflexivity.
      * right. exists (t :: done), task, rest. repeat split; reflexivity.
    + exists Exn, [annot_event t Exn]. split; [reflexivity |].
      right. exists [], t, tasks. repeat split; reflexivity.
Qed.

(** Reinsertion never raises and only makes drawing calls in black. *)
Lemma insert_text_with_fallbacks_events (b : Rect) (text : str) (fi : FontInfo)
    (h : list event) :
  exists ok es,
    insert_text_with_fallbacks U w b text fi h = (Ok ok, h ++ es)
    /\ Forall (fun e => draw_color e = Some black) es.
Proof.
  destruct (insert_text_with_fallbacks_run U w b text fi h) as [Hblank Hwalk].
  destruct (strip U text) as [| c t] eqn:Et.
  - exists false, []. rewrite Hblank by reflexivity. rewrite app_nil_r.
    split; [reflexivity | constructor].
  - destruct Hwalk as (es & hit & Hrun & Hres); [discriminate |].
    pose proof (ladder_run_colors _ _ _ _ Hrun) as Hc.
    destruct hit.
    + exists true, es. split; assumption.
    + destruct Hres as [out Hres]. exists (fit_ok out), (es ++ [point_event b text out]).
      split; [exact Hres |].
      apply Forall_app. split; [exact Hc | repeat constructor].
Qed.

Lemma insert_translations_events :
  forall (tasks : list TranslationTask) (n : Z) h,
    exists m ins,
      for_fold tasks n (insert_translation_step U w) h
      = (Ok m, h ++ ins)
      /\ Forall (fun e => is_insertion e = true) ins.
Proof.
  induction tasks as [| t tasks IH]; intros n h.
  - exists n, []. simpl. rewrite app_nil_r. split; [reflexivity | constructor].
  - cbn [for_fold]. unfold bind at 1. unfold insert_translation_step at 1, bind at 1.
    destruct (insert_text_with_fallbacks_events (bbox t) (translated t) (font_info t) h)
      as (ok & es & -> & Hes).
    assert (Hins : Forall (fun e => is_insertion e = true) es).
    { eapply Forall_impl; [| exact Hes]. intros [] He; simpl in *; congruence. }
    destruct ok; unfold ret at 1.
    + destruct (IH (n + 1) (h ++ es)) as (m & ins & -> & Hi).
      exists m, (es ++ ins). rewrite app_assoc.
      split; [reflexivity | apply Forall_app; split; assumption].
    + destruct (IH n (h ++ es)) as (m & ins & -> & Hi).
      exists m, (es ++ ins). rewrite app_assoc.
      split; [reflexivity | apply Forall_app; split; assumption].
Qed.

(** The page body: translation first, then erase-and-draw. *)
Lemma process_page_run (target_lang : str) (spans : list Span) (h : list event) :
  exists tasks T D,
    build_tasks U w target_lang spans h = (Ok tasks, h ++ T)
    /\ Forall (fun e => is_translation e = true) T
    /\ process_page U w target_lang spans h = (Ok tt, h ++ T ++ D)
    /\ erase_then_draw tasks D.
Proof.
  unfold process_page, try_except, process_spans, build_tasks.
  destruct (build_tasks_events target_lang spans [] h) as (tasks & T & Hb & HT).
  exists tasks, T.
  unfold bind at 1. unfold bind at 1. rewrite Hb.
  unfold bind at 1. unfold add_redactions.
  destruct (add_redactions_events tasks [] (h ++ T))
    as (res & D & -> & [(rects & -> & ->) | (done & task & rest & Htasks & -> & ->)]).
  - unfold bind at 1. unfold page_apply_redactions at 1.
    destruct (apply_redactions w ((h ++ T) ++ annotations tasks)) as [[] |].
    + unfold insert_translations.
      destruct (insert_translations_events tasks 0
                  (((h ++ T) ++ annotations tasks) ++ [EvApplyRedactions (Ok tt)]))
        as (m & ins & -> & Hins).
      exists (annotations tasks ++ [EvApplyRedactions (Ok tt)] ++ ins).
      split; [reflexivity |]. split; [exact HT |].
      split; [| constructor; exact Hins].
      unfold ret. rewrite <- !app_assoc. reflexivity.
    + exists (annotations tasks ++ [EvApplyRedactions Exn]).
      split; [reflexivity |]. split; [exact HT |].
      split; [| constructor].
      unfold ret. rewrite <- !app_assoc. reflexivity.
  - exists (annotations done ++ [annot_event task Exn]).
    split; [reflexivity |]. split; [exact HT |].
    split; [| econstructor; exact Htasks].
    unfold ret. rewrite <- !app_assoc. reflexivity.
Qed.
End PageFacts.

Lemma apply_calls_app (h1 h2 : list event) :
  apply_calls (h1 ++ h2) = (apply_calls h1 + apply_calls h2)%nat.
Proof. unfold apply_calls. rewrite filter_app, length_app. reflexivity. Qed.

Lemma apply_calls_none (l : list event) :
  Forall (fun e => is_apply e = false) l -> apply_calls l = O.
Proof.
  unfold apply_calls. induction 1 as [| e l He _ IH]; simpl; [reflexivity |].
  rewrite He. exact IH.
Qed.

Lemma annotations_kind (tasks : list TranslationTask) :
  Forall (fun e => is_apply e = false) (annotations tasks)
  /\ Forall (fun e => is_insertion e = false) (annotations tasks).
Proof.
  unfold annotations. split; apply Forall_map, Forall_forall; reflexivity.
Qed.

Lemma translation_kind (T : list event) :
  Forall (fun e => is_translation e = true) T ->
  Forall (fun e => is_apply e = false) T /\ Forall (fun e => is_insertion e = false) T.
Proof.
  intros H. split; (eapply Forall_impl; [| exact H]); intros [] He; simpl in *; congruence.
Qed.

Lemma insertion_kind (ins : list event) :
  Forall (fun e => is_insertion e = true) ins -> Forall (fun e => is_apply e = false) ins.
Proof.
  intros H. eapply Forall_impl; [| exact H]. intros [] He; simpl in *; congruence.
Qed.

(** An insertion found in [P ++ ins], where [P] has none, lies in [ins]. *)
Lemma insertion_after_prefix (P : list event) :
  forall pre e post ins,
    Forall (fun x => is_insertion x = false) P ->
    P ++ ins = pre ++ e :: post ->
    is_insertion e = true ->
    exists k, pre = P ++ k.
Proof.
  induction P as [| a P IH]; intros pre e post ins HP Heq He.
  - exists pre. reflexivity.
  - inversion HP as [| ? ? Ha HP']; subst.
    destruct pre as [| a' pre']; simpl in Heq; injection Heq as <- Heq.
    + congruence.
    + destruct (IH _ _ _ _ HP' Heq He) as [k ->]. exists k. reflexivity.
Qed.

(** C9.  On every page the transcript is: the translation calls, then
    one redaction annotation per task, then a single
    [apply_redactions], then the insertions.  [apply_redactions] is
    called at most once, and every insertion comes after all the
    annotations of the page's tasks were added and that one call
    returned. *)
Theorem C9_erase_batch_before_insertions
    (U : CharTables) (w : World) (target_lang : str) (spans : list Span)
    (h : list event) :
  exists tasks T D,
    build_tasks U w target_lang spans h = (Ok tasks, h ++ T)
    /\ Forall (fun e => is_translation e = true) T
    /\ process_page U w target_lang spans h = (Ok tt, h ++ T ++ D)
    /\ erase_then_draw tasks D
    /\ (apply_calls (T ++ D) <= 1)%nat
    /\ forall pre e post,
         T ++ D = pre ++ e :: post ->
         is_insertion e = true ->
         exists ins, pre = T ++ annotations tasks ++ [EvApplyRedactions (Ok tt)] ++ ins.
Proof.
  destruct (process_page_run U w target_lang spans h) as (tasks & T & D & Hb & HT & Hp & HD).
  exists tasks, T, D.
  destruct (translation_kind T HT) as [HTa HTi].
  destruct (annotations_kind tasks) as [HAa HAi].
  repeat (split; [assumption |]).
  split.
  - rewrite apply_calls_app, (apply_calls_none T HTa).
    inversion HD as [done task rest Htasks | | ins Hins]; subst.
    + rewrite apply_calls_app, (apply_calls_none _ (proj1 (annotations_kind done))).
      cbn. lia.
    + rewrite apply_calls_app, (apply_calls_none _ HAa). cbn. lia.
    + rewrite !apply_calls_app, (apply_calls_none _ HAa),
        (apply_calls_none _ (insertion_kind _ Hins)). cbn. lia.
  - intros pre e post Heq He.
    inversion HD as [done task rest Htasks | | ins Hins]; subst D.
    + exfalso.
      assert (Hno : Forall (fun x => is_insertion x = false)
                      (T ++ annotations done ++ [annot_event task Exn])).
      { apply Forall_app; split; [exact HTi |].
        apply Forall_app; split; [apply annotations_kind | repeat constructor]. }
      rewrite Heq in Hno. apply Forall_app in Hno as [_ Hno].
      inversion Hno; congruence.
    + exfalso.
      assert (Hno : Forall (fun x => is_insertion x = false)
                      (T ++ annotations tasks ++ [EvApplyRedactions Exn])).
      { apply Forall_app; split; [exact HTi |].
        apply Forall_app; split; [exact HAi | repeat constructor]. }
      rewrite Heq in Hno. apply Forall_app in Hno as [_ Hno].
      inversion Hno; congruence.
    + assert (Hno : Forall (fun x => is_insertion x = false)
                      (T ++ annotations tasks ++ [EvApplyRedactions (Ok tt)])).
      { apply Forall_app; split; [exact HTi |].
        apply Forall_app; split; [exact HAi | repeat constructor]. }
      assert (Heq' : (T ++ annotations tasks ++ [EvApplyRedactions (Ok tt)]) ++ ins
                     = pre ++ e :: post).
      { rewrite <- Heq, <- !app_assoc. reflexivity. }
      destruct (insertion_after_prefix _ _ _ _ _ Hno Heq' He) as [k ->].
      exists k. rewrite <- !app_assoc. reflexivity.
Qed.

(** A page with a glossary term and a code: one task, one annotation,
    one [apply_redactions], and the drawing after it. *)
Example page_copay_transcript :
  process_page ascii_tables (world_flaky 0 [] 0 (Ok 1%Q)) (lit "Spanish") page_spans []
  = (Ok tt,
     [ EvAddRedactAnnot (mkRect (10 - 1) (10 - 1) (10 + (inject_Z 5 * (12 * (6 # 10))) + 1)
                           (10 + 12 * (12 # 10) + 1)) white (Ok tt);
       EvApplyRedactions (Ok tt);
       EvInsertTextbox (mkRect 10 10 40 22) (lit "copago") (lit "helv") 12 black (Ok 0%Q) ]).
Proof. vm_compute. reflexivity. Qed.

(** ** Counter *)

Section CounterFacts.
Variable K : Type.
Variable eqb : K -> K -> bool.
Hypothesis eqb_spec : forall x y, eqb x y = true <-> x = y.

Lemma eqb_same (x : K) : eqb x x = true.
Proof. apply eqb_spec. reflexivity. Qed.

Lemma eqb_diff (x y : K) : x <> y -> eqb x y = false.
Proof.
  intros H. destruct (eqb x y) eqn:E; [| reflexivity].
  apply eqb_spec in E. contradiction.
Qed.

Lemma existsb_eqb_In (a : K) (ks : list K) : existsb (eqb a) ks = true <-> In a ks.
Proof.
  rewrite existsb_exists. split.
  - intros (x & Hx & E). apply eqb_spec in E. subst. exact Hx.
  - intros H. exists a. split; [exact H | apply eqb_same].
Qed.

Lemma count_of_snoc (k a : K) (l : list K) :
  count_of eqb k (l ++ [a]) = count_of eqb k l + (if eqb k a then 1 else 0).
Proof. induction l as [| b l IH]; simpl; [| rewrite IH]; lia. Qed.

Lemma count_of_nonneg (k : K) (l : list K) : 0 <= count_of eqb k l.
Proof. induction l as [| b l IH]; simpl; [| destruct (eqb k b)]; lia. Qed.

Lemma count_of_pos (k : K) (l : list K) : In k l <-> 0 < count_of eqb k l.
Proof.
  induction l as [| b l IH]; simpl.
  - split; [contradiction | lia].
  - pose proof (count_of_nonneg k l). destruct (eqb k b) eqn:E.
    + apply eqb_spec in E. subst. split; [lia | auto].
    + split.
      * intros [-> | H']; [rewrite eqb_same in E; discriminate | apply IH in H'; lia].
      * intros H'. right. apply IH. lia.
Qed.

Lemma first_index_lt (k : K) (l : list K) :
  In k l -> (first_index eqb k l < List.length l)%nat.
Proof.
  induction l as [| b l IH]; simpl; [contradiction |].
  intros H. destruct (eqb k b) eqn:E; [lia |].
  destruct H as [-> | H]; [rewrite eqb_same in E; discriminate |].
  specialize (IH H). lia.
Qed.

Lemma first_index_snoc_in (k a : K) (l : list K) :
  In k l -> first_index eqb k (l ++ [a]) = first_index eqb k l.
Proof.
  induction l as [| b l IH]; simpl; [contradiction |].
  intros H. destruct (eqb k b) eqn:E; [reflexivity |].
  destruct H as [-> | H]; [rewrite eqb_same in E; discriminate |].
  rewrite IH by exact H. reflexivity.
Qed.

Lemma first_index_snoc_new (a : K) (l : list K) :
  ~ In a l -> first_index eqb a (l ++ [a]) = List.length l.
Proof.
  induction l as [| b l IH]; simpl; intros H.
  - rewrite eqb_same. reflexivity.
  - rewrite eqb_diff by (intros ->; apply H; auto).
    rewrite IH by (intros X; apply H; auto). reflexivity.
Qed.

Lemma counter_get_incr (a k : K) (d : list (K * Z)) :
  counter_get eqb (counter_incr eqb a d) k
  = counter_get eqb d k + (if eqb k a then 1 else 0).
Proof.
  induction d as [| [k' n] d IH]; simpl.
  - destruct (eqb k a); lia.
  - destruct (eqb a k') eqn:Ea; simpl.
    + apply eqb_spec in Ea. subst k'. destruct (eqb k a); lia.
    + destruct (eqb k k') eqn:Ek; [| exact IH].
      apply eqb_spec in Ek. subst k'.
      rewrite eqb_diff; [lia |]. intros ->. rewrite eqb_same in Ea. discriminate.
Qed.

Lemma keys_counter_incr (a : K) (d : list (K * Z)) :
  map fst (counter_incr eqb a d)
  = if existsb (eqb a) (map fst d) then map fst d else map fst d ++ [a].
Proof.
  induction d as [| [k' n] d IH]; simpl; [reflexivity |].
  destruct (eqb a k'); simpl; [reflexivity |].
  rewrite IH. destruct (existsb (eqb a) (map fst d)); reflexivity.
Qed.

Lemma Counter_snoc (l : list K) (a : K) :
  Counter eqb (l ++ [a]) = counter_incr eqb a (Counter eqb l).
Proof. unfold Counter. rewrite fold_left_app. reflexivity. Qed.

Lemma firsts_snoc (l : list K) (a : K) :
  firsts eqb (l ++ [a])
  = if existsb (eqb a) (firsts eqb l) then firsts eqb l else firsts eqb l ++ [a].
Proof. unfold firsts. rewrite fold_left_app. reflexivity. Qed.

(** The counter holds the number of occurrences of each key ... *)
Lemma counter_get_Counter (l : list K) (k : K) :
  counter_get eqb (Counter eqb l) k = count_of eqb k l.
Proof.
  induction l as [| a l IH] using rev_ind; [reflexivity |].
  rewrite Counter_snoc, counter_get_incr, count_of_snoc, IH. reflexivity.
Qed.

(** ... and its keys are in the order of first occurrence. *)
Lemma keys_Counter (l : list K) : map fst (Counter eqb l) = firsts eqb l.
Proof.
  induction l as [| a l IH] using rev_ind; [reflexivity |].
  rewrite Counter_snoc, keys_counter_incr, firsts_snoc, IH. reflexivity.
Qed.

Lemma firsts_In (l : list K) (k : K) : In k (firsts eqb l) <-> In k l.
Proof.
  induction l as [| a l IH] using rev_ind; [reflexivity |].
  rewrite firsts_snoc, in_app_iff. simpl.
  destruct (existsb (eqb a) (firsts eqb l)) eqn:E.
  - apply existsb_eqb_In in E. rewrite IH.
    split; [auto |]. intros [H | [<- | []]]; [exact H |]. apply IH. exact E.
  - rewrite in_app_iff, IH. reflexivity.
Qed.

Lemma firsts_NoDup (l : list K) : NoDup (firsts eqb l).
Proof.
  induction l as [| a l IH] using rev_ind; [constructor |].
  rewrite firsts_snoc.
  destruct (existsb (eqb a) (firsts eqb l)) eqn:E; [exact IH |].
  apply NoDup_app; [exact IH | repeat constructor; auto |].
  intros x Hx [<- | []].
  apply existsb_eqb_In in Hx. congruence.
Qed.

Lemma firsts_order (l : list K) :
  forall ks1 k ks2 k',
    firsts eqb l = ks1 ++ k :: ks2 ->
    In k' ks2 ->
    (first_index eqb k l < first_index eqb k' l)%nat.
Proof.
  induction l as [| a l IH] using rev_ind; intros ks1 k ks2 k' Heq Hk'.
  - destruct ks1; discriminate.
  - rewrite firsts_snoc in Heq.
    destruct (existsb (eqb a) (firsts eqb l)) eqn:E.
    + assert (Hk : In k l) by (apply firsts_In; rewrite Heq; apply in_elt).
      assert (Hk'l : In k' l).
      { apply firsts_In. rewrite Heq. apply in_or_app. right. right. exact Hk'. }
      rewrite !first_index_snoc_in by assumption. eapply IH; eassumption.
    + assert (Ha : ~ In a l).
      { intros X. apply firsts_In, existsb_eqb_In in X. congruence. }
      destruct ks2 as [| z ks2] using rev_ind; [contradiction |]. clear IHks2.
      change (ks1 ++ k :: ks2 ++ [z]) with (ks1 ++ (k :: ks2) ++ [z]) in Heq.
      rewrite app_assoc in Heq. apply app_inj_tail in Heq as [Heq <-].
      assert (Hk : In k l) by (apply firsts_In; rewrite Heq; apply in_elt).
      rewrite (first_index_snoc_in k a l Hk).
      apply in_app_or in Hk' as [Hk' | [<- | []]].
      * assert (Hk'l : In k' l).
        { apply firsts_In. rewrite Heq. apply in_or_app. right. right. exact Hk'. }
        rewrite (first_index_snoc_in k' a l Hk'l). eapply IH; eassumption.
      * rewrite (first_index_snoc_new a l Ha). apply first_index_lt. exact Hk.
Qed.

Lemma counter_get_In (d : list (K * Z)) (k : K) (n : Z) :
  NoDup (map fst d) -> In (k, n) d -> counter_get eqb d k = n.
Proof.
  induction d as [| [k' n'] d IH]; simpl; [contradiction |].
  intros Hnd [E | H].
  - injection E as -> ->. rewrite eqb_same. reflexivity.
  - inversion Hnd as [| ? ? Hnotin Hnd']; subst.
    rewrite eqb_diff; [apply IH; assumption |].
    intros ->. apply Hnotin. apply (in_map fst) in H. exact H.
Qed.

(** [max] returns the first item with the greatest count. *)
Lemma max_by_count_split (items : list (K * Z)) :
  forall best,
    exists d1 d2,
      best :: items = d1 ++ max_by_count best items :: d2
      /\ (forall x, In x d1 -> snd x < snd (max_by_count best items))
      /\ (forall x, In x d2 -> snd x <= snd (max_by_count best items)).
Proof.
  induction items as [| kv items IH]; intros best; simpl.
  - exists [], []. repeat split; simpl; contradiction.
  - destruct (Z.ltb_spec (snd best) (snd kv)) as [Hlt | Hge].
    + destruct (IH kv) as (d1 & d2 & Heq & H1 & H2).
      exists (best :: d1), d2. split; [simpl; rewrite Heq; reflexivity |].
      split; [| exact H2].
      intros x [<- | Hx]; [| apply H1; exact Hx].
      destruct d1 as [| y d1]; simpl in Heq; injection Heq as Ekv _.
      * rewrite <- Ekv. exact Hlt.
      * specialize (H1 kv (or_introl (eq_sym Ekv))). lia.
    + destruct (IH best) as (d1 & d2 & Heq & H1 & H2).
      destruct d1 as [| y d1]; simpl in Heq; injection Heq as Eb Eit.
      * exists [], (kv :: items). rewrite <- Eb. split; [reflexivity |].
        split; [intros x [] |].
        intros x [<- | Hx]; [exact Hge |].
        rewrite Eb. apply H2. rewrite <- Eit. exact Hx.
      * subst y. exists (best :: kv :: d1), d2.
        split; [simpl; do 2 f_equal; exact Eit |].
        split; [| exact H2].
        pose proof (H1 best (or_introl eq_refl)) as Hb.
        intros x [<- | [<- | Hx]]; [exact Hb | lia |].
        apply H1. right. exact Hx.
Qed.

(** The vote of [most_common(1)] over a non-empty list of samples. *)
Lemma most_common_1_spec (l : list K) :
  l <> [] ->
  exists c n,
    most_common_1 (Counter eqb l) = [(c, n)] /\ most_frequent_first eqb l c.
Proof.
  intros Hne.
  pose proof (keys_Counter l) as Hkeys.
  pose proof (firsts_NoDup l) as Hnd. rewrite <- Hkeys in Hnd.
  destruct (Counter eqb l) as [| kv d] eqn:Ed.
  - exfalso. destruct l as [| a l]; [congruence |].
    assert (Ha : In a (firsts eqb (a :: l))) by (apply firsts_In; left; reflexivity).
    rewrite <- Hkeys in Ha. contradiction.
  - simpl most_common_1.
    destruct (max_by_count_split d kv) as (d1 & d2 & Heq & H1 & H2).
    destruct (max_by_count kv d) as [c n] eqn:Emax. simpl in H1, H2.
    exists c, n. split; [reflexivity |].
    assert (Hval : forall k m, In (k, m) (kv :: d) -> m = count_of eqb k l).
    { intros k m Hin. rewrite <- counter_get_Counter, Ed.
      symmetry. apply counter_get_In; assumption. }
    assert (Hcn : In (c, n) (kv :: d)) by (rewrite Heq; apply in_elt).
    assert (Hn : n = count_of eqb c l) by (apply Hval; exact Hcn).
    assert (Hc : In c l).
    { apply firsts_In. rewrite <- Hkeys. apply (in_map fst) in Hcn. exact Hcn. }
    assert (Hentry : forall c', In c' l -> In (c', count_of eqb c' l) (kv :: d)).
    { intros c' Hc'. apply firsts_In in Hc'. rewrite <- Hkeys in Hc'.
      apply in_map_iff in Hc' as ([k m] & Hk & Hin). simpl in Hk. subst k.
      rewrite <- (Hval c' m Hin). exact Hin. }
    split; [exact Hc |]. split.
    + intros c'. rewrite <- Hn.
      destruct (Z.ltb_spec 0 (count_of eqb c' l)) as [Hpos | Hzero].
      * apply count_of_pos in Hpos. specialize (Hentry c' Hpos).
        rewrite Heq in Hentry. apply in_app_or in Hentry as [Hin | [E | Hin]].
        -- specialize (H1 _ Hin). simpl in H1. lia.
        -- injection E as _ E. lia.
        -- specialize (H2 _ Hin). simpl in H2. exact H2.
      * apply count_of_pos in Hc. lia.
    + intros c' Hneq Hsame.
      assert (Hc' : In c' l).
      { apply count_of_pos. rewrite Hsame. apply count_of_pos. exact Hc. }
      specialize (Hentry c' Hc'). rewrite Hsame, <- Hn in Hentry.
      rewrite Heq in Hentry. apply in_app_or in Hentry as [Hin | [E | Hin]].
      * specialize (H1 _ Hin). simpl in H1. lia.
      * injection E as E. congruence.
      * apply (firsts_order l (map fst d1) c (map fst d2) c').
        -- rewrite <- Hkeys, Heq, map_app. reflexivity.
        -- apply (in_map fst) in Hin. exact Hin.
Qed.
End CounterFacts.

(** ** Background sampler *)

Lemma Qc_eqb_spec (a b : Qc) : Qc_eqb a b = true <-> a = b.
Proof.
  unfold Qc_eqb. rewrite Qeq_bool_iff. split.
  - apply Qc_is_canon.
  - intros ->. reflexivity.
Qed.

Lemma color3_eqb_spec (a b : color3) : color3_eqb a b = true <-> a = b.
Proof.
  destruct a as [[r1 g1] b1], b as [[r2 g2] b2]. unfold color3_eqb.
  rewrite !andb_true_iff, !Qc_eqb_spec. split.
  - intros [[-> ->] ->]. reflexivity.
  - intros E. injection E as -> -> ->. auto.
Qed.

Section SamplerFacts.
Variable py_round : Qc -> Z -> Qc.

(** The vote never raises: white without samples, else the most
    frequent rounded sample, the first met among equals. *)
Lemma vote_spec (colors : list color3) :
  exists c,
    vote py_round colors = Ok c
    /\ (colors = [] -> c = white3)
    /\ (colors <> [] ->
        most_frequent_first color3_eqb (rounded_colors py_round colors) c).
Proof.
  destruct colors as [| s colors].
  - exists white3. repeat split; congruence.
  - assert (Hne : rounded_colors py_round (s :: colors) <> []) by discriminate.
    destruct (most_common_1_spec color3 color3_eqb color3_eqb_spec _ Hne)
      as (c & n & Hmc & Hfreq).
    exists c. unfold vote. rewrite Hmc.
    split; [reflexivity |]. split; [discriminate | intros _; exact Hfreq].
Qed.
End SamplerFacts.


(** A region far outside the raster: the second variant tries no
    read and answers white. *)
Example background_outside_raster :
  answers (V4.detect_background_color round_decimal (fun _ => Ok split_raster)
             (mkRect 1000 1000 1100 1100) 2) white3 = true.
Proof. vm_compute; reflexivity. Qed.

(** One black and one white sample: the centre, read first, wins. *)
Example background_tie_first_sample :
  List.length (V4.colors round_decimal split_raster
                 (V4.sample_coords (mkRect (-5) 5 50 60) 2)) = 2%nat
  /\ answers (V4.detect_background_color round_decimal (fun _ => Ok split_raster)
                (mkRect (-5) 5 50 60) 2) black3 = true.
Proof. split; vm_compute; reflexivity. Qed.

(* ===================================================================== *)
(** * Further properties of the code *)
(* ===================================================================== *)

Example extract_sample_blocks :
  extract_spans ascii_tables sample_blocks
  = [ mkSpan (lit "Annual Deductible") (mkRect 10 10 120 24)
        (mkFontInfo (lit "helv-bold") 24 (PyInt 255) 20) ].
Proof. vm_compute. reflexivity. Qed.

(** ** Trimming *)

Section StripFacts.
Variable U : CharTables.

Lemma lstrip_head (s : str) :
  lstrip U s = [] \/ exists c t, lstrip U s = c :: t /\ isspace U c = false.
Proof.
  induction s as [| c s IH]; simpl; [left; reflexivity |].
  destruct (isspace U c) eqn:E; [exact IH |].
  right. exists c, s. split; [reflexivity | exact E].
Qed.

Lemma lstrip_fixed (c : char) (t : str) :
  isspace U c = false -> lstrip U (c :: t) = c :: t.
Proof. intros E. simpl. rewrite E. reflexivity. Qed.

Lemma lstrip_idempotent (s : str) : lstrip U (lstrip U s) = lstrip U s.
Proof.
  destruct (lstrip_head s) as [-> | (c & t & -> & E)]; [reflexivity |].
  apply lstrip_fixed; exact E.
Qed.

Lemma lstrip_snoc (l : str) (c : char) :
  lstrip U (l ++ [c])
  = match lstrip U l with
    | [] => if isspace U c then [] else [c]
    | r => r ++ [c]
    end.
Proof.
  induction l as [| a l IH]; simpl; [reflexivity |].
  destruct (isspace U a); [exact IH | reflexivity].
Qed.

Lemma rstrip_cons (c : char) (t : str) :
  rstrip U (c :: t)
  = match rstrip U t with
    | [] => if isspace U c then [] else [c]
    | r => c :: r
    end.
Proof.
  unfold rstrip. simpl. rewrite lstrip_snoc.
  destruct (lstrip U (rev t)) as [| a r] eqn:E; simpl.
  - destruct (isspace U c); reflexivity.
  - rewrite rev_app_distr. simpl.
    destruct (rev r ++ [a]) eqn:E'; [destruct (rev r); discriminate | reflexivity].
Qed.

Lemma rstrip_idempotent (s : str) : rstrip U (rstrip U s) = rstrip U s.
Proof.
  unfold rstrip. rewrite rev_involutive, lstrip_idempotent. reflexivity.
Qed.

Lemma rstrip_keeps_head (c : char) (t : str) :
  isspace U c = false -> exists r, rstrip U (c :: t) = c :: r.
Proof.
  intros E. rewrite rstrip_cons. destruct (rstrip U t) as [| a r].
  - rewrite E. exists []. reflexivity.
  - exists (a :: r). reflexivity.
Qed.

Lemma strip_idempotent (s : str) : strip U (strip U s) = strip U s.
Proof.
  unfold strip.
  destruct (lstrip_head s) as [-> | (c & t & -> & E)]; [reflexivity |].
  destruct (rstrip_keeps_head c t E) as [r Hr].
  rewrite Hr, (lstrip_fixed c r E), <- Hr. apply rstrip_idempotent.
Qed.

(** What [strip] leaves neither starts nor ends with whitespace. *)
Lemma strip_ends (s : str) :
  match strip U s with
  | [] => True
  | c :: _ => isspace U c = false /\ isspace U (last (strip U s) c) = false
  end.
Proof.
  destruct (strip U s) as [| c t] eqn:Es; [exact I |].
  split.
  - unfold strip in Es.
    destruct (lstrip_head s) as [E | (a & u & E & Ea)]; rewrite E in Es.
    + discriminate.
    + destruct (rstrip_keeps_head a u Ea) as [r Hr]. rewrite Hr in Es.
      injection Es as <- _. exact Ea.
  - assert (Hr : rev (strip U s) = lstrip U (rev (lstrip U s))).
    { unfold strip, rstrip. apply rev_involutive. }
    rewrite Es in Hr.
    destruct (lstrip_head (rev (lstrip U s))) as [E | (a & u & E & Ea)];
      rewrite E in Hr; apply (f_equal (@rev char)) in Hr;
      rewrite rev_involutive in Hr.
    + discriminate.
    + rewrite Hr. simpl rev. rewrite last_last. exact Ea.
Qed.
End StripFacts.

(** X1.  Eligibility looks at the trimmed text only: trimming the text
    beforehand does not change the verdict of [should_translate_text]. *)
Theorem should_translate_text_ignores_padding (U : CharTables) (text : str) :
  should_translate_text U (strip U text) = should_translate_text U text.
Proof.
  unfold should_translate_text. rewrite strip_idempotent. reflexivity.
Qed.

(** ** Font classifier *)

Lemma py_min_le_r (a b : Q) : (py_min a b <= b)%Q.
Proof.
  unfold py_min. destruct (Qltb b a) eqn:E; [lra |].
  apply Qltb_false in E. exact E.
Qed.

Lemma size_limits (s : Q) :
  (6 <= py_max 6 (py_min s 24))%Q /\ (py_max 6 (py_min s 24) <= 24)%Q
  /\ ((6 <= s)%Q -> (s <= 24)%Q -> (py_max 6 (py_min s 24) == s)%Q).
Proof.
  pose proof (py_min_le_r s 24) as Hm.
  unfold py_max. destruct (Qltb 6 (py_min s 24)) eqn:E.
  - apply Qltb_true in E. split; [lra |]. split; [exact Hm |].
    intros _ Hs. unfold py_min. destruct (Qltb 24 s) eqn:E'; [| reflexivity].
    apply Qltb_true in E'. lra.
  - apply Qltb_false in E. split; [lra |]. split; [lra |].
    intros H6 Hs. unfold py_min in E. destruct (Qltb 24 s) eqn:E'; lra.
Qed.

(** X2.  [get_font_info] never fails and always answers one of the four
    font names helv, helv-bold, helv-oblique and helv-boldoblique with
    a size within [6, 24]; a size already in that range is kept, a
    missing one is 12; the name helv is chosen exactly when neither the
    lowercased name nor the flags mark the span bold (bit 16) or italic
    (bit 2). *)
Theorem get_font_info_normalises (U : CharTables) (span : RawSpan) :
  let fi := get_font_info U span in
  let name := lower U (get_or (raw_font span) []) in
  let fl := get_or (raw_flags span) 0 in
  (6 <= size fi)%Q /\ (size fi <= 24)%Q
  /\ (forall q, raw_size span = Some q -> (6 <= q)%Q -> (q <= 24)%Q -> (size fi == q)%Q)
  /\ (raw_size span = None -> (size fi == 12)%Q)
  /\ In (font fi) helv_fonts
  /\ (font fi = lit "helv"
      <-> contains name (lit "bold") = false /\ Z.land fl 16 = 0
          /\ contains name (lit "italic") = false /\ Z.land fl 2 = 0).
Proof.
  intros fi name fl. unfold fi, get_font_info. fold name. fold fl. cbn [size font].
  destruct (size_limits (get_or (raw_size span) 12%Q)) as (H6 & H24 & Hid).
  split; [exact H6 |]. split; [exact H24 |].
  split; [intros q Hq; rewrite Hq in *; exact Hid |].
  split; [intros Hq; rewrite Hq in *; apply Hid; simpl; lra |].
  destruct (contains name (lit "bold")) eqn:Eb;
    destruct (contains name (lit "italic")) eqn:Ei;
    destruct (Z.eqb_spec (Z.land fl 16) 0) as [E16 | E16];
    destruct (Z.eqb_spec (Z.land fl 2) 0) as [E2 | E2]; cbn;
    (split; [tauto |]);
    (split; [try discriminate; tauto | intros (? & ? & ? & ?); congruence]).
Qed.

(** ** Span extraction and task building *)

Lemma keeps_span_spec (U : CharTables) (span : RawSpan) :
  keeps_span U span = true ->
  strip U (raw_text span) <> []
  /\ (x0 (raw_bbox span) < x1 (raw_bbox span))%Q
  /\ (y0 (raw_bbox span) < y1 (raw_bbox span))%Q.
Proof.
  unfold keeps_span. destruct (raw_text span) as [| c l]; [discriminate |].
  destruct (strip U (c :: l)) as [| c' l']; [discriminate |].
  intros Ek. apply andb_prop in Ek as [Ex Ey].
  apply Qltb_true in Ex. apply Qltb_true in Ey.
  split; [discriminate | split; assumption].
Qed.

(** X3.  Every span the page loop extracts has a text that is not blank,
    a bbox with [x1 > x0] and [y1 > y0], one of the four font names of
    [get_font_info] and a size within [6, 24]; spans of blocks without
    lines, blank spans and spans with an empty bbox are left out. *)
Theorem extracted_spans_wellformed
    (U : CharTables) (blocks : list (option (list (list RawSpan)))) :
  Forall (fun sp => wellformed_span U (span_text sp) (span_bbox sp) (span_font_info sp))
         (extract_spans U blocks).
Proof.
  unfold extract_spans. apply Forall_flat_map, Forall_forall. intros [lines |] _;
    [| constructor].
  apply Forall_flat_map, Forall_forall. intros line _.
  apply Forall_flat_map, Forall_forall. intros span _.
  destruct (keeps_span U span) eqn:Ek; [| constructor].
  destruct (keeps_span_spec U span Ek) as (Ht & Hx & Hy).
  constructor; [| constructor].
  unfold wellformed_span. cbn [span_text span_bbox span_font_info].
  destruct (get_font_info_normalises U span) as (H6 & H24 & _ & _ & Hf & _).
  split; [exact Ht |]. split; [exact Hx |]. split; [exact Hy |].
  split; [exact H6 |]. split; [exact H24 | exact Hf].
Qed.

(** ** Translation policy: what a call can do *)

Section TranslateBounds.
Variable U : CharTables.
Variable w : World.
Variables prompt target_lang text : str.
Variable retries : Z.

Lemma retry_loop_bounds :
  forall n a h,
    exists v T k,
      for_return (map Z.of_nat (seq a n))
        (attempt_body U w prompt target_lang retries) (ret text) h
      = (Ok v, h ++ T)
      /\ Forall (fun e => is_translation e = true) T
      /\ (llm_calls T <= n)%nat
      /\ Z.of_nat (a + k) <= Z.max (Z.of_nat a) (retries - 1)
      /\ sleeps T = map (fun i => 2 ^ Z.of_nat i) (seq a k)
      /\ (v = text \/ exists content, v = clean_response U target_lang content).
Proof.
  induction n as [| n IH]; intros a h.
  - exists text, [], O. simpl. rewrite app_nil_r.
    repeat (split; [first [reflexivity | constructor | lia] |]). left. reflexivity.
  - simpl. unfold bind at 1.
    unfold attempt_body at 1, try_except, bind at 1, llm_invoke.
    destruct (llm_content w h prompt) as [content |].
    + exists (clean_response U target_lang content), [EvLlmInvoke prompt (Ok content)], O.
      split; [reflexivity |]. split; [repeat constructor |].
      split; [cbn; lia |]. split; [lia |]. split; [reflexivity |].
      right. exists content. reflexivity.
    + destruct (Z.ltb_spec (Z.of_nat a) (retries - 1)) as [Hlt | Hge].
      * unfold bind at 1, time_sleep, ret at 1.
        destruct (IH (S a) ((h ++ [EvLlmInvoke prompt Exn]) ++ [EvSleep (2 ^ Z.of_nat a)]))
          as (v & T & k & -> & HT & Hc & Hk & Hs & Hv).
        exists v, ([EvLlmInvoke prompt Exn; EvSleep (2 ^ Z.of_nat a)] ++ T), (S k).
        split; [rewrite <- !app_assoc; reflexivity |].
        split; [repeat constructor; exact HT |].
        split; [rewrite llm_calls_app; cbn; lia |].
        split; [lia |].
        split; [rewrite sleeps_app, Hs; reflexivity | exact Hv].
      * unfold ret at 1.
        destruct (IH (S a) (h ++ [EvLlmInvoke prompt Exn]))
          as (v & T & k & -> & HT & Hc & Hk & Hs & Hv).
        assert (k = O) by lia. subst k.
        exists v, ([EvLlmInvoke prompt Exn] ++ T), O.
        split; [rewrite <- !app_assoc; reflexivity |].
        split; [repeat constructor; exact HT |].
        split; [rewrite llm_calls_app; cbn; lia |].
        split; [lia |].
        split; [rewrite sleeps_app, Hs; reflexivity | exact Hv].
Qed.
End TranslateBounds.

(** X4.  Whatever the backend does, [translate_text_conservative]
    returns a string and never raises; it touches nothing but the
    backend and the clock; it calls the backend at most [retries]
    times (never for [retries <= 0]); its sleeps are 1, 2, 4, ...
    seconds, at most [retries - 1] of them; and what it returns is the
    input itself, a glossary value, or a cleaned backend answer. *)
Theorem translate_text_conservative_bounded
    (U : CharTables) (w : World) (text target_lang : str) (retries : Z)
    (h : list event) :
  exists v T k,
    translate_text_conservative U w text target_lang retries h = (Ok v, h ++ T)
    /\ Forall (fun e => is_translation e = true) T
    /\ (llm_calls T <= Z.to_nat retries)%nat
    /\ Z.of_nat k <= Z.max 0 (retries - 1)
    /\ sleeps T = map (fun i => 2 ^ Z.of_nat i) (seq 0 k)
    /\ (v = text
        \/ glossary_lookup U text = Some v
        \/ exists content, v = clean_response U target_lang content).
Proof.
  unfold translate_text_conservative.
  destruct (should_translate_text U text); cbn [negb].
  - destruct (glossary_lookup U text) as [value |] eqn:Eg.
    + exists value, [], O. unfold ret. rewrite app_nil_r.
      split; [reflexivity |]. split; [constructor |]. split; [cbn; lia |].
      split; [lia |]. split; [reflexivity |]. right. left. reflexivity.
    + destruct (retry_loop_bounds U w (prompt_for target_lang text) target_lang text
                  retries (Z.to_nat retries) O h)
        as (v & T & k & Hrun & HT & Hc & Hk & Hs & Hv).
      exists v, T, k. unfold range. rewrite Hrun.
      split; [reflexivity |]. split; [exact HT |]. split; [exact Hc |].
      split; [simpl in Hk; lia |]. split; [exact Hs |].
      destruct Hv as [-> | Hv]; [left; reflexivity | right; right; exact Hv].
  - exists text, [], O. unfold ret. rewrite app_nil_r.
    split; [reflexivity |]. split; [constructor |]. split; [cbn; lia |].
    split; [lia |]. split; [reflexivity |]. left. reflexivity.
Qed.

(** A result that differs from the input comes from an eligible text. *)
Lemma translate_changes_only_eligible
    (U : CharTables) (w : World) (text target_lang : str) (retries : Z)
    (h : list event) :
  fst (translate_text_conservative U w text target_lang retries h) <> Ok text ->
  should_translate_text U text = true.
Proof.
  unfold translate_text_conservative.
  destruct (should_translate_text U text); [reflexivity |].
  simpl. intros H. exfalso. apply H. reflexivity.
Qed.

(** ** Cleaning a backend answer *)

Section CleanFacts.
Variable U : CharTables.
Variable P : char -> Prop.

Lemma Forall_lstrip (s : str) : Forall P s -> Forall P (lstrip U s).
Proof.
  induction 1 as [| c s Hc Hs IH]; simpl; [constructor |].
  destruct (isspace U c); [exact IH | constructor; assumption].
Qed.

Lemma Forall_strip (s : str) : Forall P s -> Forall P (strip U s).
Proof.
  intros H. unfold strip, rstrip.
  apply Forall_rev, Forall_lstrip, Forall_rev, Forall_lstrip, H.
Qed.

Lemma Forall_drop (n : nat) (s : str) : Forall P s -> Forall P (skipn n s).
Proof.
  revert s. induction n as [| n IH]; intros s H; simpl; [exact H |].
  destruct H; [constructor | apply IH; assumption].
Qed.

Lemma strip_prefixes_Forall (prefixes : list str) :
  forall t, Forall P t ->
    Forall P (fold_left
                (fun translated prefix =>
                   if startswith translated prefix
                   then strip U (skipn (List.length prefix) translated)
                   else translated)
                prefixes t).
Proof.
  induction prefixes as [| p prefixes IH]; intros t Ht; simpl; [exact Ht |].
  apply IH. destruct (startswith t p); [| exact Ht].
  apply Forall_strip, Forall_drop, Ht.
Qed.
End CleanFacts.

(** X5.  A cleaned backend answer holds no double or single quote, and
    every character of it is a character of the answer: cleaning only
    deletes. *)
Theorem clean_response_only_deletes (U : CharTables) (target_lang content : str) :
  Forall (fun c => c <> 34%N /\ c <> 39%N) (clean_response U target_lang content)
  /\ Forall (fun c => In c content) (clean_response U target_lang content).
Proof.
  unfold clean_response. split; apply strip_prefixes_Forall.
  - apply Forall_forall. intros c Hc. unfold remove_char in Hc.
    apply filter_In in Hc as [Hc H39]. apply filter_In in Hc as [_ H34].
    apply negb_true_iff, N.eqb_neq in H39. apply negb_true_iff, N.eqb_neq in H34.
    split; assumption.
  - apply Forall_forall. intros c Hc. unfold remove_char in Hc.
    apply filter_In in Hc as [Hc _]. apply filter_In in Hc as [Hc _].
    assert (Hall : Forall (fun c => In c content) (strip U content)).
    { apply Forall_strip. apply Forall_forall. auto. }
    rewrite Forall_forall in Hall. apply Hall. exact Hc.
Qed.

(** ** Tasks of a page *)

Section TaskFacts.
Variable U : CharTables.
Variable w : World.
Variable target_lang : str.

Lemma build_tasks_loop (all : list Span) :
  forall (spans : list Span) (acc : list TranslationTask) h,
    incl spans all ->
    Forall (task_of U all) acc ->
    exists tasks T,
      for_fold spans acc (build_task_step U w target_lang) h = (Ok tasks, h ++ T)
      /\ Forall (task_of U all) tasks
      /\ (List.length tasks <= List.length acc + List.length spans)%nat.
Proof.
  induction spans as [| sp spans IH]; intros acc h Hincl Hacc.
  - exists acc, []. simpl. rewrite app_nil_r. split; [reflexivity |].
    split; [exact Hacc | lia].
  - cbn [for_fold]. unfold bind at 1. unfold build_task_step at 1, bind at 1.
    pose proof (translate_changes_only_eligible U w (span_text sp) target_lang 3 h) as Hel.
    destruct (translate_text_conservative_events U w (span_text sp) target_lang 3 h)
      as (v & T1 & Hrun & _).
    rewrite Hrun in Hel |- *. cbn [fst] in Hel.
    assert (Hincl' : incl spans all) by (intros x Hx; apply Hincl; right; exact Hx).
    destruct (str_eq_dec v (span_text sp)) as [E | NE]; unfold ret at 1.
    + destruct (IH acc (h ++ T1) Hincl' Hacc) as (tasks & T2 & -> & Ht & Hl).
      exists tasks, (T1 ++ T2). rewrite app_assoc.
      split; [reflexivity |]. split; [exact Ht | simpl; lia].
    + assert (Hnew : task_of U all (mkTask (span_text sp) v (span_bbox sp) (span_font_info sp))).
      { split; [exact NE |]. split; [apply Hel; congruence |].
        exists sp. split; [apply Hincl; left; reflexivity | repeat split]. }
      destruct (IH (acc ++ [mkTask (span_text sp) v (span_bbox sp) (span_font_info sp)])
                  (h ++ T1) Hincl') as (tasks & T2 & -> & Ht & Hl).
      { apply Forall_app. split; [exact Hacc | constructor; [exact Hnew | constructor]]. }
      exists tasks, (T1 ++ T2). rewrite app_assoc.
      split; [reflexivity |]. split; [exact Ht |].
      rewrite length_app in Hl. simpl in Hl |- *. lia.
Qed.
End TaskFacts.

(** X6.  Task building never raises.  Every task it makes carries the
    text, bbox and font info of a span of the page, that text is
    eligible and the translation differs from it; there are at most as
    many tasks as spans.  So a span the filter rejects never gets a
    task, and is neither erased nor redrawn. *)
Theorem build_tasks_invariant
    (U : CharTables) (w : World) (target_lang : str) (spans : list Span)
    (h : list event) :
  exists tasks T,
    build_tasks U w target_lang spans h = (Ok tasks, h ++ T)
    /\ Forall (task_of U spans) tasks
    /\ (List.length tasks <= List.length spans)%nat.
Proof.
  unfold build_tasks.
  destruct (build_tasks_loop U w target_lang spans spans [] h) as (tasks & T & Hrun & Ht & Hl).
  - intros x Hx. exact Hx.
  - constructor.
  - exists tasks, T. split; [exact Hrun |]. split; [exact Ht | simpl in Hl; exact Hl].
Qed.

(** X7.  From extraction to tasks: every task of a page has an original
    text that is not blank, a bbox with [x1 > x0] and [y1 > y0], one of
    the four font names of [get_font_info] and a size within
    [6, 24]. *)
Theorem page_tasks_wellformed
    (U : CharTables) (w : World) (target_lang : str)
    (blocks : list (option (list (list RawSpan)))) (h : list event) :
  exists tasks T,
    build_tasks U w target_lang (extract_spans U blocks) h = (Ok tasks, h ++ T)
    /\ Forall (fun t => wellformed_span U (original t) (bbox t) (font_info t)) tasks.
Proof.
  destruct (build_tasks_invariant U w target_lang (extract_spans U blocks) h)
    as (tasks & T & Hrun & Ht & _).
  exists tasks, T. split; [exact Hrun |].
  pose proof (extracted_spans_wellformed U blocks) as Hw.
  rewrite Forall_forall in Hw. eapply Forall_impl; [| exact Ht].
  intros t (_ & _ & sp & Hin & -> & -> & ->). apply Hw. exact Hin.
Qed.

(** X8.  A page all of whose spans the filter rejects: the backend is
    not called, nothing is annotated or drawn, and the only page call
    is [apply_redactions], made once with nothing to apply. *)
Theorem process_page_all_rejected
    (U : CharTables) (w : World) (target_lang : str) (spans : list Span)
    (h : list event) :
  Forall (fun sp => should_translate_text U (span_text sp) = false) spans ->
  process_page U w target_lang spans h
  = (Ok tt, h ++ [EvApplyRedactions (apply_redactions w h)]).
Proof.
  intros Hrej.
  assert (Hb : forall acc h', for_fold spans acc (build_task_step U w target_lang) h'
                              = (Ok acc, h')).
  { induction Hrej as [| sp spans Hsp _ IH]; intros acc h'; [reflexivity |].
    cbn [for_fold]. unfold bind at 1. unfold build_task_step at 1, bind at 1.
    unfold translate_text_conservative. rewrite Hsp. cbn [negb]. unfold ret at 1.
    destruct (str_eq_dec (span_text sp) (span_text sp)); [| contradiction].
    unfold ret at 1. apply IH. }
  unfold process_page, try_except, process_spans, build_tasks.
  unfold bind at 1. unfold bind at 1. rewrite Hb.
  unfold bind at 1. unfold add_redactions. cbn [for_fold]. unfold ret at 1.
  unfold bind at 1. unfold page_apply_redactions.
  destruct (apply_redactions w h) as [[] |]; reflexivity.
Qed.

Lemma process_page_all_rejected_witness :
  process_page ascii_tables world_down (lit "Spanish") code_spans []
  = (Ok tt, [EvApplyRedactions Exn]).
Proof.
  apply (process_page_all_rejected ascii_tables world_down (lit "Spanish") code_spans []).
  repeat constructor.
Defined.

(** ** Reinsertion: what a call can do *)

Lemma ladder_run_shape (text : str) (l : list Strategy) (es : list event) (hit : bool) :
  ladder_run text l es hit ->
  (List.length es <= List.length l)%nat
  /\ Forall (fun e => is_insertion e = true) es
  /\ if hit
     then exists init e, es = init ++ [e]
                         /\ Forall (fun x => call_fit x = false) init
                         /\ call_fit e = true
     else Forall (fun x => call_fit x = false) es.
Proof.
  induction 1 as [| s l out Hout | s l out es b Hout Hrun (Hlen & Hins & IH)].
  - split; [simpl; lia |]. split; constructor.
  - split; [simpl; lia |]. split; [repeat constructor |].
    exists [], (attempt_event text s out). repeat split; [constructor | exact Hout].
  - split; [simpl; lia |]. split; [constructor; [reflexivity | exact Hins] |].
    destruct b.
    + destruct IH as (init & e & -> & Hinit & He).
      exists (attempt_event text s out :: init), e.
      split; [reflexivity |]. split; [constructor; [exact Hout | exact Hinit] | exact He].
    + constructor; [exact Hout | exact IH].
Qed.

(** X9.  [insert_text_with_fallbacks] never raises and makes only
    drawing calls, at most ten of them.  For a blank text it makes none
    and returns [False].  Otherwise it makes at least one, none of the
    calls before the last fitted, and it returns exactly whether the
    last call fitted. *)
Theorem insert_text_with_fallbacks_summary
    (U : CharTables) (w : World) (b : Rect) (text : str) (fi : FontInfo)
    (h : list event) :
  exists ok es,
    insert_text_with_fallbacks U w b text fi h = (Ok ok, h ++ es)
    /\ Forall (fun e => is_insertion e = true) es
    /\ (List.length es <= 10)%nat
    /\ (strip U text = [] -> es = [] /\ ok = false)
    /\ (strip U text <> [] ->
        exists init e, es = init ++ [e]
                       /\ Forall (fun x => call_fit x = false) init
                       /\ ok = call_fit e).
Proof.
  destruct (insert_text_with_fallbacks_run U w b text fi h) as [Hblank Hwalk].
  destruct (strip U text) as [| c t] eqn:Et.
  - exists false, []. rewrite Hblank by reflexivity. rewrite app_nil_r.
    split; [reflexivity |]. split; [constructor |]. split; [simpl; lia |].
    split; [auto | congruence].
  - destruct Hwalk as (es & hit & Hrun & Hres); [discriminate |].
    destruct (ladder_run_shape _ _ _ _ Hrun) as (Hlen & Hins & Hshape).
    simpl in Hlen. destruct hit.
    + exists true, es. split; [exact Hres |]. split; [exact Hins |].
      split; [lia |]. split; [discriminate |]. intros _.
      destruct Hshape as (init & e & -> & Hinit & He).
      exists init, e. repeat split; [exact Hinit | symmetry; exact He].
    + destruct Hres as [out Hres].
      exists (fit_ok out), (es ++ [point_event b text out]).
      split; [exact Hres |].
      split; [apply Forall_app; split; [exact Hins | repeat constructor] |].
      split; [rewrite length_app; simpl; lia |]. split; [discriminate |]. intros _.
      exists es, (point_event b text out). repeat split. exact Hshape.
Qed.

Section InsertLoopFacts.
Variable U : CharTables.
Variable w : World.

Lemma insert_translations_loop :
  forall (tasks : list TranslationTask) (n : Z) h,
    exists m ins,
      for_fold tasks n (insert_translation_step U w) h = (Ok m, h ++ ins)
      /\ n <= m <= n + len tasks
      /\ Forall (fun e => is_insertion e = true) ins
      /\ (List.length ins <= 10 * List.length tasks)%nat
      /\ (Forall (fun t => strip U (translated t) = []) tasks -> ins = [] /\ m = n).
Proof.
  induction tasks as [| t tasks IH]; intros n h.
  - exists n, []. simpl. rewrite app_nil_r. unfold len. simpl.
    split; [reflexivity |]. split; [lia |]. split; [constructor |].
    split; [lia | auto].
  - cbn [for_fold]. unfold bind at 1. unfold insert_translation_step at 1, bind at 1.
    destruct (insert_text_with_fallbacks_summary U w (bbox t) (translated t) (font_info t) h)
      as (ok & es & -> & Hes & Hlen & Hblank & _).
    destruct (IH (if ok then n + 1 else n) (h ++ es)) as (m & ins & Hrun & Hm & Hins & Hl & Hb).
    exists m, (es ++ ins).
    split.
    { destruct ok; unfold ret at 1; rewrite Hrun, app_assoc; reflexivity. }
    split; [unfold len in *; simpl List.length; destruct ok; lia |].
    split; [apply Forall_app; split; assumption |].
    split; [rewrite length_app; simpl List.length; lia |].
    intros Hall. inversion Hall as [| ? ? Ht Hrest]; subst.
    destruct (Hblank Ht) as [-> ->]. destruct (Hb Hrest) as [-> ->]. auto.
Qed.
End InsertLoopFacts.

(** X10.  The insertion loop never raises; the number of successes it
    counts lies between 0 and the number of tasks; it makes at most ten
    drawing calls per task and no other call. *)
Theorem insert_translations_counts
    (U : CharTables) (w : World) (tasks : list TranslationTask) (h : list event) :
  exists m ins,
    insert_translations U w tasks h = (Ok m, h ++ ins)
    /\ 0 <= m <= len tasks
    /\ Forall (fun e => is_insertion e = true) ins
    /\ (List.length ins <= 10 * List.length tasks)%nat.
Proof.
  destruct (insert_translations_loop U w tasks 0 h) as (m & ins & Hrun & Hm & Hins & Hl & _).
  exists m, ins. repeat split; try assumption; lia.
Qed.

(** X11.  When the translations of all tasks of a page are blank (the
    backend answered with whitespace, quotes or a bare label), nothing
    is drawn: the page's transcript after the translation calls holds
    no insertion.  It is either the annotation of every task's region
    followed by the one call of [apply_redactions], or the annotations
    up to one that raised, where the page ends. *)
Theorem process_page_blank_translations
    (U : CharTables) (w : World) (target_lang : str) (spans : list Span)
    (h : list event) (tasks : list TranslationTask) (T : list event) :
  build_tasks U w target_lang spans h = (Ok tasks, h ++ T) ->
  Forall (fun t => strip U (translated t) = []) tasks ->
  exists D,
    process_page U w target_lang spans h = (Ok tt, h ++ T ++ D)
    /\ Forall (fun e => is_insertion e = false) D
    /\ ((exists out, D = annotations tasks ++ [EvApplyRedactions out])
        \/ (exists done task rest,
               tasks = done ++ task :: rest
               /\ D = annotations done ++ [annot_event task Exn])).
Proof.
  intros Hb Hblank.
  unfold process_page, try_except, process_spans.
  unfold bind at 1. unfold bind at 1. rewrite Hb.
  unfold bind at 1. unfold add_redactions.
  destruct (add_redactions_events w tasks [] (h ++ T))
    as (res & D & -> & [(rects & -> & ->) | (done & task & rest & Htasks & -> & ->)]).
  - unfold bind at 1. unfold page_apply_redactions at 1.
    destruct (apply_redactions w ((h ++ T) ++ annotations tasks)) as [[] |].
    + unfold insert_translations.
      destruct (insert_translations_loop U w tasks 0
                  (((h ++ T) ++ annotations tasks) ++ [EvApplyRedactions (Ok tt)]))
        as (m & ins & -> & _ & _ & _ & Hnone).
      destruct (Hnone Hblank) as [-> _].
      exists (annotations tasks ++ [EvApplyRedactions (Ok tt)]).
      split; [unfold ret; rewrite app_nil_r, <- !app_assoc; reflexivity |].
      split; [apply Forall_app; split; [apply annotations_kind | repeat constructor] |].
      left. eexists. reflexivity.
    + exists (annotations tasks ++ [EvApplyRedactions Exn]).
      split; [unfold ret; rewrite <- !app_assoc; reflexivity |].
      split; [apply Forall_app; split; [apply annotations_kind | repeat constructor] |].
      left. eexists. reflexivity.
  - exists (annotations done ++ [annot_event task Exn]).
    split; [unfold ret; rewrite <- !app_assoc; reflexivity |].
    split; [apply Forall_app; split; [apply annotations_kind | repeat constructor] |].
    right. exists done, task, rest. split; [exact Htasks | reflexivity].
Qed.

Lemma process_page_blank_translations_witness :
  let prompt := prompt_for (lit "Spanish") sentence in
  let task := mkTask sentence [] (mkRect 10 10 200 22) helv12 in
  exists D,
    process_page ascii_tables world_blank (lit "Spanish") [sentence_span] []
    = (Ok tt, [] ++ [EvLlmInvoke prompt (Ok (lit "   "))] ++ D)
    /\ Forall (fun e => is_insertion e = false) D
    /\ ((exists out, D = annotations [task] ++ [EvApplyRedactions out])
        \/ (exists done task' rest,
               [task] = done ++ task' :: rest
               /\ D = annotations done ++ [annot_event task' Exn])).
Proof.
  intros prompt task.
  apply (process_page_blank_translations ascii_tables world_blank (lit "Spanish")
           [sentence_span] [] [task] [EvLlmInvoke prompt (Ok (lit "   "))]).
  - vm_compute. reflexivity.
  - repeat constructor.
Defined.

Example font_of_bold_flag :
  V3Style.get_pymupdf_font (V3Style.get_font_type ascii_tables bold_flag_span) = lit "helv"
  /\ V4Style.get_pymupdf_font (V4Style.get_font_type ascii_tables bold_flag_span)
     = lit "Times-Bold"
  /\ font (get_font_info ascii_tables bold_flag_span) = lit "helv-bold".
Proof. repeat split. Qed.

(** ** Redaction geometry *)

(** X14.  "Ensure minimum rect size": the rectangle of the first six
    strategies keeps the top-left corner of the bbox, contains the bbox
    to the right and downward, and is always at least 10 wide and 8
    high. *)
Theorem original_rect_of_minimum_size (b : Rect) (text : str) :
  let r := original_rect_of b text in
  x0 r = x0 b /\ y0 r = y0 b
  /\ (x1 b <= x1 r)%Q /\ (y1 b <= y1 r)%Q
  /\ (10 <= x1 r - x0 r)%Q /\ (8 <= y1 r - y0 r)%Q.
Proof.
  destruct (original_rect_of_spec b text) as (E0 & E1 & Hnarrow & Hwide & Hlow & Hhigh).
  cbv zeta. rewrite E0, E1.
  split; [reflexivity |]. split; [reflexivity |].
  assert (H50 : (50 <= inject_Z (Z.max 50 (len text * 8)))%Q).
  { change 50%Q with (inject_Z 50). rewrite <- Zle_Qle. lia. }
  assert (Hx : (x1 b <= x1 (original_rect_of b text)
                /\ 10 <= x1 (original_rect_of b text) - x0 b)%Q).
  { destruct (Qlt_le_dec (x1 b - x0 b) 10) as [Hlt | Hge].
    - rewrite (Hnarrow Hlt). split; lra.
    - rewrite (Hwide Hge). split; lra. }
  assert (Hy : (y1 b <= y1 (original_rect_of b text)
                /\ 8 <= y1 (original_rect_of b text) - y0 b)%Q).
  { destruct (Qlt_le_dec (y1 b - y0 b) 8) as [Hlt | Hge].
    - rewrite (Hlow Hlt). split; lra.
    - rewrite (Hhigh Hge). split; lra. }
  tauto.
Qed.

(** ** Fonts of the earlier variants *)

(** X15.  In [v4.py] the font drawn with is Times-Bold when the span is
    marked bold (lowercased name holds "bold", or flag bit 16), else
    Times-Italic when it is marked italic (name holds "italic", or flag
    bit 2), else Times-Roman: bold wins over italic, and "light" and
    "regular" spans get the same font. *)
Theorem v4_font_choice (U : CharTables) (span : RawSpan) :
  let name := lower U (get_or (raw_font span) []) in
  let fl := get_or (raw_flags span) 0 in
  V4Style.get_pymupdf_font (V4Style.get_font_type U span)
  = if (contains name (lit "bold") || negb (Z.land fl 16 =? 0))%bool then lit "Times-Bold"
    else if (contains name (lit "italic") || negb (Z.land fl 2 =? 0))%bool
         then lit "Times-Italic"
    else lit "Times-Roman".
Proof.
  intros name fl. unfold V4Style.get_font_type. fold name. fold fl.
  destruct (contains name (lit "bold") || negb (Z.land fl 16 =? 0))%bool; [reflexivity |].
  destruct (contains name (lit "italic") || negb (Z.land fl 2 =? 0))%bool; [reflexivity |].
  destruct (contains name (lit "light") || (fl =? 4))%bool; reflexivity.
Qed.

(** X16.  In [v3.py] the font name chosen for a span,
    [get_pymupdf_font(get_font_type(span))], is helv-bold exactly when
    the lowercased name holds "bold" or the flags are exactly 20, and
    helv otherwise; for a span whose flags carry the bold bit with any
    other value (16, say) it is helv. *)
Theorem v3_font_choice (U : CharTables) (span : RawSpan) :
  let name := lower U (get_or (raw_font span) []) in
  let fl := get_or (raw_flags span) 0 in
  V3Style.get_pymupdf_font (V3Style.get_font_type U span)
  = if (contains name (lit "bold") || (fl =? 20))%bool then lit "helv-bold" else lit "helv".
Proof.
  intros name fl. unfold V3Style.get_font_type. fold name. fold fl.
  destruct (contains name (lit "bold") || (fl =? 20))%bool; [reflexivity |].
  destruct (contains name (lit "light") || (fl =? 4))%bool; reflexivity.
Qed.

(** ** Colour conversion *)

Lemma land_255_range (x : Z) : 0 <= Z.land x 255 <= 255.
Proof.
  change 255 with (Z.ones 8) at 1 2. rewrite Z.land_ones by lia.
  pose proof (Z.mod_pos_bound x (2 ^ 8) ltac:(lia)). lia.
Qed.

Lemma channel_unit (m : Z) :
  0 <= m <= 255 -> (0 <= inject_Z m / 255 /\ inject_Z m / 255 <= 1)%Q.
Proof.
  intros Hm. unfold Qle, Qdiv, Qmult, Qinv, inject_Z; simpl. lia.
Qed.

(** X17.  For every integer colour, in both variants, the converter
    answers three numbers between 0 and 1, and never raises. *)
Theorem convert_color_int_in_unit_cube (n : Z) :
  exists r g b qr qg qb,
    V4Style.convert_color_to_rgb (PyInt n) = (r, g, b)
    /\ V3Style.convert_color_to_rgb (PyInt n) = Ok (r, g, b)
    /\ has_value r qr /\ has_value g qg /\ has_value b qb
    /\ (0 <= qr /\ qr <= 1)%Q /\ (0 <= qg /\ qg <= 1)%Q /\ (0 <= qb /\ qb <= 1)%Q.
Proof.
  unfold V4Style.convert_color_to_rgb, V3Style.convert_color_to_rgb,
    V4Style.numeric_color, V3Style.numeric_color.
  destruct (Qeq_bool (inject_Z n) 0).
  - exists (PyInt 0), (PyInt 0), (PyInt 0), 0%Q, 0%Q, 0%Q.
    repeat (split; [reflexivity |]). repeat split; discriminate.
  - destruct (Qeq_bool (inject_Z n) 1 || Qle_bool 16777215 (inject_Z n))%bool.
    + exists (PyInt 1), (PyInt 1), (PyInt 1), 1%Q, 1%Q, 1%Q.
      repeat (split; [reflexivity |]). repeat split; discriminate.
    + unfold channels. do 3 eexists. do 3 eexists.
      split; [reflexivity |]. split; [reflexivity |].
      split; [simpl; reflexivity |]. split; [simpl; reflexivity |].
      split; [simpl; reflexivity |].
      split; [| split]; apply channel_unit, land_255_range.
Qed.

Lemma unpack_rgb (R G B : Z) :
  0 <= R <= 255 -> 0 <= G <= 255 -> 0 <= B <= 255 ->
  let n := R * 65536 + G * 256 + B in
  Z.land (Z.shiftr n 16) 255 = R
  /\ Z.land (Z.shiftr n 8) 255 = G
  /\ Z.land n 255 = B.
Proof.
  intros HR HG HB n.
  change 255 with (Z.ones 8) at 1 2 3. rewrite !Z.land_ones, !Z.shiftr_div_pow2 by lia.
  change (2 ^ 16) with 65536. change (2 ^ 8) with 256.
  assert (E16 : n / 65536 = R).
  { symmetry. apply Z.div_unique with (r := G * 256 + B); unfold n; lia. }
  assert (E8 : n / 256 = R * 256 + G).
  { symmetry. apply Z.div_unique with (r := B); unfold n; lia. }
  rewrite E16, E8. split; [| split].
  - apply Z.mod_small. lia.
  - symmetry. apply Z.mod_unique with (q := R); lia.
  - symmetry. apply Z.mod_unique with (q := R * 256 + G); unfold n; lia.
Qed.

Lemma Qeq_inject_Z (n m : Z) : (inject_Z n == inject_Z m)%Q <-> n = m.
Proof. unfold Qeq, inject_Z; simpl. lia. Qed.

(** X18.  Decoding a packed colour: for channels R, G, B between 0 and
    255, the integer [R * 65536 + G * 256 + B] is converted, in both
    variants, to the numbers R/255, G/255, B/255.  The one exception is
    the integer 1 (R = G = 0, B = 1), which is answered with white. *)
Theorem convert_color_decodes_packed_rgb (R G B : Z) :
  0 <= R <= 255 -> 0 <= G <= 255 -> 0 <= B <= 255 ->
  R * 65536 + G * 256 + B <> 1 ->
  exists r g b,
    V4Style.convert_color_to_rgb (PyInt (R * 65536 + G * 256 + B)) = (r, g, b)
    /\ V3Style.convert_color_to_rgb (PyInt (R * 65536 + G * 256 + B)) = Ok (r, g, b)
    /\ has_value r (inject_Z R / 255)
    /\ has_value g (inject_Z G / 255)
    /\ has_value b (inject_Z B / 255).
Proof.
  intros HR HG HB Hn1.
  destruct (unpack_rgb R G B HR HG HB) as (ER & EG & EB).
  set (n := R * 65536 + G * 256 + B) in *.
  unfold V4Style.convert_color_to_rgb, V3Style.convert_color_to_rgb,
    V4Style.numeric_color, V3Style.numeric_color.
  destruct (Qeq_bool (inject_Z n) 0) eqn:E0.
  - apply Qeq_bool_iff in E0. change 0%Q with (inject_Z 0) in E0.
    apply (proj1 (Qeq_inject_Z _ _)) in E0.
    assert (R = 0 /\ G = 0 /\ B = 0) as (-> & -> & ->) by (unfold n in E0; lia).
    exists (PyInt 0), (PyInt 0), (PyInt 0). repeat split; reflexivity.
  - destruct (Qeq_bool (inject_Z n) 1) eqn:E1.
    + apply Qeq_bool_iff in E1. change 1%Q with (inject_Z 1) in E1.
      apply (proj1 (Qeq_inject_Z _ _)) in E1. contradiction.
    + destruct (Qle_bool 16777215 (inject_Z n)) eqn:Ew; cbn [orb].
      * apply Qle_bool_iff in Ew. change 16777215%Q with (inject_Z 16777215) in Ew.
        rewrite <- Zle_Qle in Ew.
        assert (R = 255 /\ G = 255 /\ B = 255) as (-> & -> & ->) by (unfold n in Ew; lia).
        exists (PyInt 1), (PyInt 1), (PyInt 1). repeat split; reflexivity.
      * unfold channels. rewrite ER, EG, EB.
        do 3 eexists. split; [reflexivity |]. split; [reflexivity |].
        repeat split; simpl; reflexivity.
Qed.

Lemma convert_color_decodes_packed_rgb_witness :
  exists r g b,
    V4Style.convert_color_to_rgb (PyInt (255 * 65536 + 128 * 256 + 0)) = (r, g, b)
    /\ V3Style.convert_color_to_rgb (PyInt (255 * 65536 + 128 * 256 + 0)) = Ok (r, g, b)
    /\ has_value r (inject_Z 255 / 255)
    /\ has_value g (inject_Z 128 / 255)
    /\ has_value b (inject_Z 0 / 255).
Proof.
  apply (convert_color_decodes_packed_rgb 255 128 0); lia.
Defined.

(** The exception of X18. *)
Example convert_color_one_is_white :
  V4Style.convert_color_to_rgb (PyInt 1) = (PyInt 1, PyInt 1, PyInt 1)
  /\ V3Style.convert_color_to_rgb (PyInt 1) = Ok (PyInt 1, PyInt 1, PyInt 1).
Proof. split; reflexivity. Qed.

(** A finite float colour: [v3.py] raises on it (the shift of a float)
    exactly when it is not 0, not 1 and below 16777215; on those floats
    [v4.py] answers the channels of the truncated value. *)
Lemma convert_color_finite_float (q : Q) :
  (V3Style.convert_color_to_rgb (PyFloat q) = Exn
   <-> (~ q == 0 /\ ~ q == 1 /\ q < 16777215)%Q)
  /\ (V3Style.convert_color_to_rgb (PyFloat q) = Exn ->
      V4Style.convert_color_to_rgb (PyFloat q) = channels (py_int q)).
Proof.
  unfold V3Style.convert_color_to_rgb, V4Style.convert_color_to_rgb,
    V3Style.numeric_color, V4Style.numeric_color.
  destruct (Qeq_bool q 0) eqn:E0.
  - apply Qeq_bool_iff in E0. split; [| discriminate].
    split; [discriminate | intros (H & _); contradiction].
  - apply Qeq_bool_neq in E0.
    destruct (Qeq_bool q 1) eqn:E1; cbn [orb].
    + apply Qeq_bool_iff in E1. split; [| discriminate].
      split; [discriminate | intros (_ & H & _); contradiction].
    + apply Qeq_bool_neq in E1.
      destruct (Qle_bool 16777215 q) eqn:Ew.
      * apply Qle_bool_iff in Ew. split; [| discriminate].
        split; [discriminate | intros (_ & _ & H); lra].
      * split; [| reflexivity]. split; [| reflexivity]. intros _.
        split; [exact E0 |]. split; [exact E1 |].
        apply Qnot_le_lt. intros H. apply Qle_bool_iff in H. congruence.
Qed.

(** X19.  A float colour, the infinities and NaN included.  [v3.py]
    raises on it (the shift of a float) exactly when it is NaN, minus
    infinity, or a finite float that is not 0, not 1 and below
    16777215.  [v4.py], which truncates with [int()] first, raises
    only on NaN and minus infinity, and on the finite floats on which
    [v3.py] raises it answers the channels of the truncated value.  On
    plus infinity both answer white. *)
Theorem v3_convert_color_float_raises (f : py_float) :
  (V3Float.convert_color_to_rgb f = Exn
   <-> match f with
       | Finite q => (~ q == 0 /\ ~ q == 1 /\ q < 16777215)%Q
       | PosInf => False
       | NegInf | NaN => True
       end)
  /\ (V4Float.convert_color_to_rgb f = Exn <-> f = NegInf \/ f = NaN)
  /\ match f with
     | Finite q =>
         V3Float.convert_color_to_rgb f = V3Style.convert_color_to_rgb (PyFloat q)
         /\ V4Float.convert_color_to_rgb f = Ok (V4Style.convert_color_to_rgb (PyFloat q))
         /\ (V3Float.convert_color_to_rgb f = Exn ->
             V4Float.convert_color_to_rgb f = Ok (channels (py_int q)))
     | PosInf =>
         V3Float.convert_color_to_rgb f = Ok (PyInt 1, PyInt 1, PyInt 1)
         /\ V4Float.convert_color_to_rgb f = Ok (PyInt 1, PyInt 1, PyInt 1)
     | NegInf | NaN => True
     end.
Proof.
  destruct f as [q | | |].
  - destruct (convert_color_finite_float q) as [Hiff Hv4].
    assert (E3 : V3Float.convert_color_to_rgb (Finite q)
                 = V3Style.convert_color_to_rgb (PyFloat q)).
    { unfold V3Float.convert_color_to_rgb, V3Style.convert_color_to_rgb,
        V3Style.numeric_color, float_eqb, float_geb.
      destruct (Qeq_bool q 0); [reflexivity |].
      destruct (Qeq_bool q 1 || Qle_bool 16777215 q)%bool; reflexivity. }
    assert (E4 : V4Float.convert_color_to_rgb (Finite q)
                 = Ok (V4Style.convert_color_to_rgb (PyFloat q))).
    { unfold V4Float.convert_color_to_rgb, V4Style.convert_color_to_rgb,
        V4Style.numeric_color, float_eqb, float_geb, float_int.
      destruct (Qeq_bool q 0); [reflexivity |].
      destruct (Qeq_bool q 1 || Qle_bool 16777215 q)%bool; reflexivity. }
    split; [rewrite E3; exact Hiff |].
    split.
    + rewrite E4. split; [discriminate | intros [H | H]; discriminate H].
    + split; [exact E3 |]. split; [exact E4 |].
      rewrite E3, E4. intros H. rewrite (Hv4 H). reflexivity.
  - split; [split; [discriminate | contradiction] |].
    split; [| split; reflexivity].
    split; [discriminate | intros [H | H]; discriminate H].
  - split; [split; [exact (fun _ => I) | reflexivity] |].
    split; [| exact I]. split; [left | ]; reflexivity.
  - split; [split; [exact (fun _ => I) | reflexivity] |].
    split; [| exact I]. split; [right | ]; reflexivity.
Qed.

(** ** Shrink-to-fit insertion *)

Example shrink_from_12 :
  map (fun c => (V4Fit.c_fontsize c, V4Fit.c_visible c))
      (V4Fit.shrink_font_to_fit V4Fit.page_fits_below_10 (mkRect 0 0 50 12) (lit "copago")
         (lit "Times-Roman") (PyInt 0, PyInt 0, PyInt 0) 0 12 [])
  = [(12, false); (11, false); (10, false); (9, false); (9, true)].
Proof. vm_compute. reflexivity. Qed.

Example shrink_from_3 :
  map (fun c => (V4Fit.c_fontsize c, V4Fit.c_visible c))
      (V4Fit.shrink_font_to_fit V4Fit.page_fits_below_10 (mkRect 0 0 50 12) (lit "copago")
         (lit "Times-Roman") (PyInt 0, PyInt 0, PyInt 0) 0 3 [])
  = [(4, true)].
Proof. vm_compute. reflexivity. Qed.

Lemma range_down_bounds (a b : Z) : Forall (fun s => b < s <= a) (range_down a b).
Proof.
  unfold range_down. apply Forall_map, Forall_forall. intros i Hi.
  apply in_seq in Hi. lia.
Qed.

Lemma range_down_empty (a b : Z) : a <= b -> range_down a b = [].
Proof.
  intros H. unfold range_down. replace (Z.to_nat (a - b)) with O by lia. reflexivity.
Qed.

Lemma py_int_lower (q : Q) (k : Z) : 0 <= k -> (inject_Z k <= q)%Q -> k <= py_int q.
Proof.
  intros Hk H. unfold py_int. destruct q as [num den].
  unfold Qle, inject_Z in H. simpl in H |- *.
  apply Z.quot_le_lower_bound; lia.
Qed.

Lemma min_size_floor (original_size : Q) : 4 <= py_int (V4Fit.min_size_of original_size).
Proof.
  apply py_int_lower; [lia |]. unfold V4Fit.min_size_of. apply py_max_ge_l.
Qed.

Section ShrinkFacts.
Variable page : list V4Fit.call -> Rect -> str -> str -> Z -> py_rgb -> Z -> bool -> result Q.
Variable rect : Rect.
Variables text fontname : str.
Variable color : py_rgb.
Variable rotate : Z.

Lemma shrink_loop_run :
  forall (sizes : list Z) (h : list V4Fit.call),
    exists returned cs k,
      V4Fit.shrink_loop page rect text fontname color rotate sizes h = (returned, h ++ cs)
      /\ Forall (V4Fit.made_with rect text fontname color rotate sizes) cs
      /\ V4Fit.probes cs = firstn k sizes
      /\ if returned : bool
         then exists init last,
                cs = init ++ [last] /\ V4Fit.c_visible last = true
                /\ Forall V4Fit.raised_if_visible init
         else Forall V4Fit.raised_if_visible cs /\ V4Fit.probes cs = sizes.
Proof.
  induction sizes as [| size sizes IH]; intros h.
  - exists false, [], O. simpl. rewrite app_nil_r.
    split; [reflexivity |]. split; [constructor |]. split; [reflexivity |].
    split; [constructor | reflexivity].
  - assert (Hweak : forall cs, Forall (V4Fit.made_with rect text fontname color rotate sizes) cs
                               -> Forall (V4Fit.made_with rect text fontname color rotate (size :: sizes)) cs).
    { intros cs. apply Forall_impl. intros c (? & ? & ? & ? & ? & ?).
      repeat split; try assumption. right. assumption. }
    cbn [V4Fit.shrink_loop]. unfold V4Fit.textbox at 1.
    set (out := page h rect text fontname size color rotate false).
    set (probe := V4Fit.mkCall rect text fontname size color rotate false out).
    assert (Hprobe : V4Fit.made_with rect text fontname color rotate (size :: sizes) probe)
      by (repeat split; left; reflexivity).
    assert (Hpv : V4Fit.raised_if_visible probe) by (intros X; discriminate X).
    assert (Hmiss :
      exists returned cs k,
        V4Fit.shrink_loop page rect text fontname color rotate sizes (h ++ [probe])
        = (returned, h ++ cs)
        /\ Forall (V4Fit.made_with rect text fontname color rotate (size :: sizes)) cs
        /\ V4Fit.probes cs = firstn k (size :: sizes)
        /\ if returned : bool
           then exists init last,
                  cs = init ++ [last] /\ V4Fit.c_visible last = true
                  /\ Forall V4Fit.raised_if_visible init
           else Forall V4Fit.raised_if_visible cs /\ V4Fit.probes cs = size :: sizes).
    { destruct (IH (h ++ [probe])) as (returned & cs & k & Hs & Hm & Hp & Hshape).
      exists returned, (probe :: cs), (S k).
      split; [rewrite Hs, <- app_assoc; reflexivity |].
      split; [constructor; [exact Hprobe | apply Hweak; exact Hm] |].
      split; [unfold V4Fit.probes in *; simpl; rewrite Hp; reflexivity |].
      destruct returned.
      - destruct Hshape as (init & last & -> & Hv & Hi).
        exists (probe :: init), last. split; [reflexivity |].
        split; [exact Hv | constructor; assumption].
      - destruct Hshape as [Hr Hp']. split; [constructor; assumption |].
        unfold V4Fit.probes in *. simpl. rewrite Hp'. reflexivity. }
    destruct out as [result |] eqn:Eout; [| exact Hmiss].
    destruct (Qle_bool 0 result); [| exact Hmiss].
    unfold V4Fit.textbox at 1.
    set (out' := page (h ++ [probe]) rect text fontname size color rotate true).
    set (draw := V4Fit.mkCall rect text fontname size color rotate true out').
    assert (Hdraw : V4Fit.made_with rect text fontname color rotate (size :: sizes) draw)
      by (repeat split; left; reflexivity).
    destruct out' as [drawn |] eqn:Eout'.
    + exists true, [probe; draw], 1%nat.
      split; [rewrite <- app_assoc; reflexivity |].
      split; [repeat constructor; assumption |].
      split; [reflexivity |].
      exists [probe], draw. split; [reflexivity |].
      split; [reflexivity | constructor; [exact Hpv | constructor]].
    + assert (Hdv : V4Fit.raised_if_visible draw) by (intros _; reflexivity).
      destruct (IH ((h ++ [probe]) ++ [draw]))
        as (returned & cs & k & Hs & Hm & Hp & Hshape).
      exists returned, (probe :: draw :: cs), (S k).
      split; [rewrite Hs, <- !app_assoc; reflexivity |].
      split; [constructor; [exact Hprobe | constructor; [exact Hdraw | apply Hweak, Hm]] |].
      split; [unfold V4Fit.probes in *; simpl; rewrite Hp; reflexivity |].
      destruct returned.
      * destruct Hshape as (init & last & -> & Hv & Hi).
        exists (probe :: draw :: init), last. split; [reflexivity |].
        split; [exact Hv | repeat (constructor; [assumption |]); exact Hi].
      * destruct Hshape as [Hr Hp']. split; [repeat (constructor; [assumption |]); exact Hr |].
        unfold V4Fit.probes in *. simpl. rewrite Hp'. reflexivity.
Qed.
End ShrinkFacts.

(** X20.  [shrink_font_to_fit] of [v4.py].  With [hi = int(original)]
    and [lo = int(max(4, 0.3 * original))]: every call it makes uses the
    given rectangle, text, font, colour and rotation at an integer size
    between [lo] and [max(hi, lo)], and [lo] is at least 4.  The probes
    are made at [hi, hi - 1, ...], never at [lo] itself.  The function
    always ends with a visible insertion, and every visible insertion
    before that one raised, so at most one visible insertion returns.
    When [hi <= lo] (an original size below 5) there is no probe at
    all: the text is drawn once, at [lo]. *)
Theorem shrink_font_to_fit_behaviour
    (page : list V4Fit.call -> Rect -> str -> str -> Z -> py_rgb -> Z -> bool -> result Q)
    (rect : Rect) (text fontname : str) (color : py_rgb) (rotate : Z)
    (original_size : Q) (h : list V4Fit.call) :
  let lo := py_int (V4Fit.min_size_of original_size) in
  let hi := py_int original_size in
  exists init last k,
    V4Fit.shrink_font_to_fit page rect text fontname color rotate original_size h
    = h ++ init ++ [last]
    /\ 4 <= lo
    /\ Forall (fun c => V4Fit.made_with rect text fontname color rotate
                          [V4Fit.c_fontsize c] c
                        /\ lo <= V4Fit.c_fontsize c <= Z.max hi lo)
         (init ++ [last])
    /\ V4Fit.c_visible last = true
    /\ Forall V4Fit.raised_if_visible init
    /\ V4Fit.probes (init ++ [last]) = firstn k (range_down hi lo)
    /\ (hi <= lo -> init = []).
Proof.
  intros lo hi. unfold V4Fit.shrink_font_to_fit. fold lo. fold hi.
  pose proof (min_size_floor original_size) as Hlo. fold lo in Hlo.
  destruct (shrink_loop_run page rect text fontname color rotate (range_down hi lo) h)
    as (returned & cs & k & Hrun & Hmade & Hprobes & Hshape).
  rewrite Hrun.
  assert (Hsizes : Forall (fun c => V4Fit.made_with rect text fontname color rotate
                                      [V4Fit.c_fontsize c] c
                                    /\ lo <= V4Fit.c_fontsize c <= Z.max hi lo) cs).
  { pose proof (range_down_bounds hi lo) as Hb. rewrite Forall_forall in Hb.
    eapply Forall_impl; [| exact Hmade].
    intros c (? & ? & ? & ? & ? & Hin). specialize (Hb _ Hin).
    split; [repeat split; try assumption; left; reflexivity | lia]. }
  destruct returned.
  - destruct Hshape as (init & last & -> & Hv & Hinit).
    exists init, last, k. split; [reflexivity |]. split; [exact Hlo |].
    split; [exact Hsizes |]. split; [exact Hv |]. split; [exact Hinit |].
    split; [exact Hprobes |].
    intros Hle. rewrite (range_down_empty hi lo Hle) in Hmade.
    destruct init as [| c init]; [reflexivity |].
    inversion Hmade as [| ? ? (_ & _ & _ & _ & _ & []) _].
  - destruct Hshape as [Hraised Hall].
    unfold V4Fit.textbox. cbn [snd].
    set (last := V4Fit.mkCall rect text fontname lo color rotate true
                   (page (h ++ cs) rect text fontname lo color rotate true)).
    exists cs, last, k. split; [rewrite <- app_assoc; reflexivity |].
    split; [exact Hlo |].
    split.
    { apply Forall_app. split; [exact Hsizes |].
      constructor; [| constructor].
      split; [repeat split; left; reflexivity | cbn; lia]. }
    split; [reflexivity |]. split; [exact Hraised |].
    split.
    { unfold V4Fit.probes in *. rewrite filter_app, map_app. cbn.
      rewrite app_nil_r. exact Hprobes. }
    intros Hle. rewrite (range_down_empty hi lo Hle) in Hmade.
    destruct cs as [| c cs]; [reflexivity |].
    inversion Hmade as [| ? ? (_ & _ & _ & _ & _ & []) _].
Qed.

(** ** Background sampler of [v4.py]: reads stay inside the raster *)

(** X21.  The second variant of the sampler never looks outside the
    raster: two rasters of the same size that agree on every pixel
    inside their bounds give the same background colour, whatever they
    answer (or raise) elsewhere. *)
Theorem v4_background_ignores_outside
    (py_round : Qc -> Z -> Qc) (pix pix' : Pixmap) (bbox : Rect) (zoom : Z) :
  pix_width pix = pix_width pix' ->
  pix_height pix = pix_height pix' ->
  (forall x y, 0 <= x < pix_width pix -> 0 <= y < pix_height pix ->
               pix_pixel pix x y = pix_pixel pix' x y) ->
  V4.detect_background_color py_round (fun _ => Ok pix) bbox zoom
  = V4.detect_background_color py_round (fun _ => Ok pix') bbox zoom.
Proof.
  intros Hw Hh Hin. unfold V4.detect_background_color. f_equal. f_equal.
  unfold V4.colors. apply flat_map_ext. intros [x y].
  rewrite <- Hw, <- Hh.
  destruct ((0 <=? x) && (x <? pix_width pix) && (0 <=? y) && (y <? pix_height pix))%bool
    eqn:E; [| reflexivity].
  apply andb_prop in E as [E Ey2]. apply andb_prop in E as [E Ey1].
  apply andb_prop in E as [Ex1 Ex2].
  unfold read_sample. rewrite (Hin x y) by lia. reflexivity.
Qed.

Lemma v4_background_ignores_outside_witness :
  V4.detect_background_color round_decimal (fun _ => Ok split_raster)
    (mkRect (-5) 5 50 60) 2
  = V4.detect_background_color round_decimal (fun _ => Ok split_raster_everywhere)
      (mkRect (-5) 5 50 60) 2.
Proof.
  apply (v4_background_ignores_outside round_decimal split_raster split_raster_everywhere
           (mkRect (-5) 5 50 60) 2); [reflexivity | reflexivity |].
  intros x y Hx Hy. simpl in Hx, Hy |- *.
  destruct (Z.leb_spec 0 x); [| lia]. destruct (Z.ltb_spec x 100); [| lia].
  destruct (Z.leb_spec 0 y); [| lia]. destruct (Z.ltb_spec y 100); [| lia].
  reflexivity.
Defined.

(** ** Translation call of [v4.py] *)

Section V4TextFacts.
Variable U : CharTables.
Variable w : World.
Variables prompt text : str.
Variable retries : Z.

Lemma v4_retry_loop_bounds :
  forall n a h,
    exists v T k,
      for_return (map Z.of_nat (seq a n)) (V4Text.attempt_body U w prompt retries)
        (ret text) h
      = (Ok v, h ++ T)
      /\ Forall (fun e => is_translation e = true) T
      /\ (llm_calls T <= n)%nat
      /\ Z.of_nat (a + k) <= Z.max (Z.of_nat a) (retries - 1)
      /\ sleeps T = map (fun i => 2 ^ Z.of_nat i) (seq a k)
      /\ (v = text \/ exists content, v = strip U content).
Proof.
  induction n as [| n IH]; intros a h.
  - exists text, [], O. simpl. rewrite app_nil_r.
    repeat (split; [first [reflexivity | constructor | lia] |]). left. reflexivity.
  - simpl. unfold bind at 1.
    unfold V4Text.attempt_body at 1, try_except, bind at 1, llm_invoke.
    destruct (llm_content w h prompt) as [content |].
    + exists (strip U content), [EvLlmInvoke prompt (Ok content)], O.
      split; [reflexivity |]. split; [repeat constructor |].
      split; [cbn; lia |]. split; [lia |]. split; [reflexivity |].
      right. exists content. reflexivity.
    + destruct (Z.ltb_spec (Z.of_nat a) (retries - 1)) as [Hlt | Hge].
      * unfold bind at 1, time_sleep, ret at 1.
        destruct (IH (S a) ((h ++ [EvLlmInvoke prompt Exn]) ++ [EvSleep (2 ^ Z.of_nat a)]))
          as (v & T & k & -> & HT & Hc & Hk & Hs & Hv).
        exists v, ([EvLlmInvoke prompt Exn; EvSleep (2 ^ Z.of_nat a)] ++ T), (S k).
        split; [rewrite <- !app_assoc; reflexivity |].
        split; [repeat constructor; exact HT |].
        split; [rewrite llm_calls_app; cbn; lia |].
        split; [lia |].
        split; [rewrite sleeps_app, Hs; reflexivity | exact Hv].
      * unfold ret at 1.
        destruct (IH (S a) (h ++ [EvLlmInvoke prompt Exn]))
          as (v & T & k & -> & HT & Hc & Hk & Hs & Hv).
        assert (k = O) by lia. subst k.
        exists v, ([EvLlmInvoke prompt Exn] ++ T), O.
        split; [rewrite <- !app_assoc; reflexivity |].
        split; [repeat constructor; exact HT |].
        split; [rewrite llm_calls_app; cbn; lia |].
        split; [lia |].
        split; [rewrite sleeps_app, Hs; reflexivity | exact Hv].
Qed.
End V4TextFacts.

(** X22.  [translate_text] of [v4.py] never raises and touches only the
    backend and the clock.  A blank text is returned as it came without
    a call.  Otherwise the backend is called at most [retries] times
    with sleeps of 1, 2, 4, ... seconds between failed attempts, and
    what is returned is the input itself or a backend answer trimmed on
    both sides, which neither starts nor ends with whitespace. *)
Theorem v4_translate_text_bounded
    (U : CharTables) (w : World) (text target_lang : str) (retries : Z)
    (h : list event) :
  exists v T k,
    V4Text.translate_text U w text target_lang retries h = (Ok v, h ++ T)
    /\ Forall (fun e => is_translation e = true) T
    /\ (llm_calls T <= Z.to_nat retries)%nat
    /\ Z.of_nat k <= Z.max 0 (retries - 1)
    /\ sleeps T = map (fun i => 2 ^ Z.of_nat i) (seq 0 k)
    /\ (strip U text = [] -> T = [] /\ v = text)
    /\ (v = text
        \/ exists content,
             v = strip U content
             /\ match v with
                | [] => True
                | c :: _ => isspace U c = false /\ isspace U (last v c) = false
                end).
Proof.
  unfold V4Text.translate_text.
  destruct (strip U text) as [| c t] eqn:Et.
  - exists text, [], O. unfold ret. rewrite app_nil_r.
    split; [reflexivity |]. split; [constructor |]. split; [cbn; lia |].
    split; [lia |]. split; [reflexivity |]. split; [auto |]. left. reflexivity.
  - destruct (v4_retry_loop_bounds U w (V4Text.prompt_for target_lang text) text
                retries (Z.to_nat retries) O h)
      as (v & T & k & Hrun & HT & Hc & Hk & Hs & Hv).
    exists v, T, k. unfold range. rewrite Hrun.
    split; [reflexivity |]. split; [exact HT |]. split; [exact Hc |].
    split; [simpl in Hk; lia |]. split; [exact Hs |]. split; [discriminate |].
    destruct Hv as [-> | (content & ->)]; [left; reflexivity | right].
    exists content. split; [reflexivity |]. apply strip_ends.
Qed.

(* ===================================================================== *)
(** ** Binary64 rounding *)
(* ===================================================================== *)

Lemma round_half_even_near (q : Q) :
  (q - (1 # 2) <= inject_Z (round_half_even q) <= q + (1 # 2))%Q.
Proof.
  unfold round_half_even.
  pose proof (Qfloor_le q) as Hl. pose proof (Qlt_floor q) as Hu.
  rewrite inject_Z_plus in Hu. change (inject_Z 1) with 1%Q in Hu.
  destruct (Qcompare (q - inject_Z (Qfloor q)) (1 # 2)) eqn:E.
  - apply Qeq_alt in E.
    destruct (Z.even (Qfloor q)); [| rewrite inject_Z_plus; change (inject_Z 1) with 1%Q];
      split; lra.
  - apply Qlt_alt in E. split; lra.
  - apply Qgt_alt in E. rewrite inject_Z_plus. change (inject_Z 1) with 1%Q. split; lra.
Qed.

Lemma two_neq_0 : ~ (2 == 0)%Q.
Proof. discriminate. Qed.

Lemma Qpower_2_pos (k : Z) : (0 < 2 ^ k)%Q.
Proof. apply Qpower_0_lt. reflexivity. Qed.

Lemma Qpower_2_inject (a : Z) : 0 <= a -> (2 ^ a == inject_Z (2 ^ a))%Q.
Proof. intros H. rewrite (Zpower_Qpower 2 a H). reflexivity. Qed.

(** [ilog2 x] is the exponent of the binade of [x]. *)
Lemma ilog2_spec (x : Q) :
  ~ (x == 0)%Q -> (2 ^ ilog2 x <= Qabs x)%Q /\ (Qabs x < 2 ^ (ilog2 x + 1))%Q.
Proof.
  intros Hx. unfold ilog2.
  set (n := Z.abs (Qnum x)). set (d := Z.pos (Qden x)).
  assert (Hn : 0 < n).
  { unfold n. destruct x as [xn xd]. unfold Qeq in Hx. simpl in *. lia. }
  assert (Hd : 0 < d) by (unfold d; lia).
  pose proof (Z.log2_spec n Hn) as [Hn1 Hn2].
  pose proof (Z.log2_spec d Hd) as [Hd1 Hd2].
  pose proof (Z.log2_nonneg n) as Ha. pose proof (Z.log2_nonneg d) as Hc.
  set (a := Z.log2 n) in *. set (c := Z.log2 d) in *.
  assert (Habs : Qabs x = n # Qden x) by (destruct x; reflexivity).
  assert (HA : 0 < 2 ^ a) by (apply Z.pow_pos_nonneg; lia).
  assert (HC : 0 < 2 ^ c) by (apply Z.pow_pos_nonneg; lia).
  destruct (Qle_bool (2 ^ (a - c)) (Qabs x)) eqn:E.
  - split; [apply Qle_bool_iff; exact E |].
    replace (a - c + 1) with (Z.succ a - c) by lia.
    rewrite (Qpower_minus 2 (Z.succ a) c two_neq_0).
    rewrite (Qpower_2_inject (Z.succ a)), (Qpower_2_inject c) by lia.
    apply Qlt_shift_div_l.
    + change 0%Q with (inject_Z 0). rewrite <- Zlt_Qlt. exact HC.
    + rewrite Habs. unfold Qlt, Qmult, inject_Z. simpl. fold d. nia.
  - split.
    + replace (a - c - 1) with (a - Z.succ c) by lia.
      rewrite (Qpower_minus 2 a (Z.succ c) two_neq_0).
      rewrite (Qpower_2_inject a), (Qpower_2_inject (Z.succ c)) by lia.
      apply Qle_shift_div_r.
      * change 0%Q with (inject_Z 0). rewrite <- Zlt_Qlt. lia.
      * rewrite Habs. unfold Qle, Qmult, inject_Z. simpl. fold d. nia.
    + replace (a - c - 1 + 1) with (a - c) by lia.
      apply Qnot_le_lt. intros H. apply Qle_bool_iff in H. congruence.
Qed.

Lemma eta64_small : (0 < eta64 /\ eta64 <= 1 # 100)%Q.
Proof. split; vm_compute; [reflexivity | discriminate]. Qed.

(** A rounded number is an integer of at most [2^53] in absolute value
    times the unit in the last place; in the normal range the integer
    is at least [2^52], so the significand has 53 bits. *)
Lemma b64_significand (x : Q) :
  ~ (x == 0)%Q ->
  exists m : Z,
    (b64 x == inject_Z m * 2 ^ (Z.max (ilog2 x) (-1022) - 52))%Q
    /\ Z.abs m <= 2 ^ 53
    /\ (-1022 <= ilog2 x -> 2 ^ 52 <= Z.abs m).
Proof.
  intros Hx. exists (round_half_even (x / 2 ^ (Z.max (ilog2 x) (-1022) - 52))). split.
  - unfold b64. destruct (Qeq_bool x 0) eqn:E0; [| reflexivity].
    apply Qeq_bool_iff in E0. contradiction.
  - destruct (ilog2_spec x Hx) as [Hlo Hhi].
    set (e := ilog2 x) in *. set (e' := Z.max e (-1022)).
    assert (Hhi' : (Qabs x < 2 ^ (e' + 1))%Q).
    { apply (Qlt_le_trans _ _ _ Hhi).
      apply Qpower_le_compat_l; [unfold e'; lia | discriminate]. }
    pose proof (Qpower_plus 2 52 (e' - 52) two_neq_0) as Hu.
    pose proof (Qpower_plus 2 53 (e' - 52) two_neq_0) as Hv.
    replace (52 + (e' - 52)) with e' in Hu by lia.
    replace (53 + (e' - 52)) with (e' + 1) in Hv by lia.
    pose proof (Qpower_2_pos (e' - 52)) as Hpos.
    set (u := (2 ^ (e' - 52))%Q) in *.
    change (2 ^ 52)%Q with 4503599627370496%Q in Hu.
    change (2 ^ 53)%Q with 9007199254740992%Q in Hv.
    rewrite Hv in Hhi'.
    pose proof (round_half_even_near (x / u)) as [Hm1 Hm2].
    set (m := round_half_even (x / u)) in *.
    assert (Hq : (x / u * u == x)%Q) by (field; lra).
    set (q := (x / u)%Q) in *.
    change (2 ^ 52) with 4503599627370496. change (2 ^ 53) with 9007199254740992.
    destruct (Qlt_le_dec x 0) as [Hneg | Hnn].
    + rewrite (Qabs_neg x) in Hlo, Hhi' by lra.
      assert (Q2 : (- 9007199254740992 < q)%Q).
      { apply (proj1 (Qmult_lt_r _ _ u Hpos)). lra. }
      assert (M2 : (inject_Z (- 9007199254740992 - 1) < inject_Z m)%Q)
        by (change (inject_Z (- 9007199254740992 - 1)) with (- 9007199254740993)%Q; lra).
      rewrite <- Zlt_Qlt in M2.
      assert (M0 : (inject_Z m < inject_Z 1)%Q)
        by (change (inject_Z 1) with 1%Q;
            assert (q * u < 0)%Q by lra;
            assert (q < 0)%Q by (apply (proj1 (Qmult_lt_r _ _ u Hpos)); lra); lra).
      rewrite <- Zlt_Qlt in M0.
      split; [lia |]. intros He.
      replace e' with e in * by (unfold e'; lia). rewrite Hu in Hlo.
      assert (Q1 : (q <= - 4503599627370496)%Q).
      { apply (proj1 (Qmult_le_r _ _ u Hpos)). lra. }
      assert (M1 : (inject_Z m < inject_Z (- 4503599627370496 + 1))%Q)
        by (change (inject_Z (- 4503599627370496 + 1)) with (- 4503599627370495)%Q; lra).
      rewrite <- Zlt_Qlt in M1. lia.
    + rewrite (Qabs_pos x Hnn) in Hlo, Hhi'.
      assert (Q2 : (q < 9007199254740992)%Q).
      { apply (proj1 (Qmult_lt_r _ _ u Hpos)). lra. }
      assert (M2 : (inject_Z m < inject_Z (9007199254740992 + 1))%Q)
        by (change (inject_Z (9007199254740992 + 1)) with 9007199254740993%Q; lra).
      rewrite <- Zlt_Qlt in M2.
      assert (M0 : (inject_Z (-1) < inject_Z m)%Q)
        by (change (inject_Z (-1)) with (-1)%Q;
            assert (0 <= q * u)%Q by lra;
            assert (0 <= q)%Q by (apply (proj1 (Qmult_le_r _ _ u Hpos)); lra); lra).
      rewrite <- Zlt_Qlt in M0.
      split; [lia |]. intros He.
      replace e' with e in * by (unfold e'; lia). rewrite Hu in Hlo.
      assert (Q1 : (4503599627370496 <= q)%Q).
      { apply (proj1 (Qmult_le_r _ _ u Hpos)). lra. }
      assert (M1 : (inject_Z (4503599627370496 - 1) < inject_Z m)%Q)
        by (change (inject_Z (4503599627370496 - 1)) with 4503599627370495%Q; lra).
      rewrite <- Zlt_Qlt in M1. lia.
Qed.

(** The rounding error is at most half a unit in the last place:
    [|b64 x - x| <= 2^-53 * |x|] in the normal range and [2^-1075]
    below it. *)
Lemma b64_error (x : Q) :
  (x - eps64 * Qabs x - eta64 <= b64 x <= x + eps64 * Qabs x + eta64)%Q.
Proof.
  pose proof (Qabs_nonneg x) as HA0.
  unfold b64. destruct (Qeq_bool x 0) eqn:E0.
  - apply Qeq_bool_iff in E0. destruct eta64_small as [He _].
    unfold eps64. set (A := Qabs x) in *. set (eta := eta64) in *.
    rewrite E0. split; lra.
  - assert (Hx : ~ (x == 0)%Q).
    { intros H. apply Qeq_bool_iff in H. congruence. }
    destruct (ilog2_spec x Hx) as [Hlo _].
    set (e := ilog2 x) in *. set (e' := Z.max e (-1022)).
    pose proof (Qpower_2_pos (e' - 52)) as Hpos.
    assert (Hulp : ((1 # 2) * 2 ^ (e' - 52) <= eps64 * Qabs x + eta64)%Q).
    { destruct (Z.max_spec e (-1022)) as [[Hlt E] | [Hge E]]; fold e' in E; rewrite E.
      - change ((1 # 2) * 2 ^ (-1022 - 52))%Q with eta64.
        unfold eps64. set (A := Qabs x) in *. set (eta := eta64). lra.
      - replace (e - 52) with (e + (-52)) by lia.
        rewrite (Qpower_plus 2 e (-52) two_neq_0).
        change (2 ^ (-52))%Q with (1 # 4503599627370496)%Q.
        destruct eta64_small as [He _].
        unfold eps64. set (A := Qabs x) in *. set (eta := eta64) in *.
        set (p := (2 ^ e)%Q) in *. lra. }
    set (u := (2 ^ (e' - 52))%Q) in *.
    pose proof (round_half_even_near (x / u)) as [Hm1 Hm2].
    set (m := inject_Z (round_half_even (x / u))) in *.
    assert (Hq : (x / u * u == x)%Q) by (field; lra).
    assert (H1 : ((x / u - (1 # 2)) * u <= m * u)%Q)
      by (apply Qmult_le_compat_r; lra).
    assert (H2 : (m * u <= (x / u + (1 # 2)) * u)%Q)
      by (apply Qmult_le_compat_r; lra).
    set (q := (x / u)%Q) in *. set (mu := (m * u)%Q) in *.
    set (qu := (q * u)%Q) in *.
    assert (H1' : (qu - (1 # 2) * u <= mu)%Q).
    { setoid_replace (qu - (1 # 2) * u)%Q with ((q - (1 # 2)) * u)%Q
        by (unfold qu; ring). exact H1. }
    assert (H2' : (mu <= qu + (1 # 2) * u)%Q).
    { setoid_replace (qu + (1 # 2) * u)%Q with ((q + (1 # 2)) * u)%Q
        by (unfold qu; ring). exact H2. }
    unfold eps64 in *. set (A := Qabs x) in *. set (eta := eta64) in *.
    split; lra.
Qed.

Lemma b64_within (x B : Q) :
  (- B <= x <= B)%Q ->
  (x - eps64 * B - (1 # 100) <= b64 x <= x + eps64 * B + (1 # 100))%Q.
Proof.
  intros H. pose proof (b64_error x) as [H1 H2].
  assert (HA : (Qabs x <= B)%Q) by (apply Qabs_Qle_condition; exact H).
  destruct eta64_small as [_ He].
  unfold eps64 in *. set (A := Qabs x) in *. set (eta := eta64) in *. split; lra.
Qed.

Lemma b64_nonneg (x : Q) :
  (0 <= x)%Q ->
  (x - eps64 * x - (1 # 100) <= b64 x <= x + eps64 * x + (1 # 100))%Q.
Proof.
  intros H. pose proof (b64_error x) as [H1 H2].
  rewrite (Qabs_pos x H) in H1, H2.
  destruct eta64_small as [_ He].
  unfold eps64 in *. set (eta := eta64) in *. split; lra.
Qed.

(** The literals of [calculate_text_dimensions] and the textbook sum:
    [0.6] is 5404319552844595 / 2^53, [1.2] twice that, [-0.1] is
    -3602879701896397 / 2^55 and [0.1 + 0.2] is 0.30000000000000004.
    At [2^57] the next number is 32 further.  Among the subnormal
    numbers one and a half units round to two, and 0.6 of the smallest
    one rounds to it. *)
Example b64_literals :
  Qeq_bool (b64 (6 # 10)) (5404319552844595 # 9007199254740992) = true
  /\ Qeq_bool (b64 (12 # 10)) (5404319552844595 # 4503599627370496) = true
  /\ Qeq_bool (b64 (- (1 # 10))) (- (3602879701896397 # 36028797018963968)) = true
  /\ Qeq_bool (b64 (b64 (1 # 10) + b64 (2 # 10)))
              (1351079888211149 # 4503599627370496) = true
  /\ is_b64 (inject_Z (2 ^ 57)) = true
  /\ is_b64 (inject_Z (2 ^ 57) + 1) = false
  /\ is_b64 (inject_Z (2 ^ 57) + 32) = true
  /\ Qeq_bool (b64 (3 * 2 ^ (-1075))) (2 ^ (-1073)) = true
  /\ Qeq_bool (b64 (2 ^ (-1074) * b64 (6 # 10))) (2 ^ (-1074)) = true.
Proof. repeat split; vm_compute; reflexivity. Qed.

(** Subtracting the padding moves an edge to the left or upwards. *)
Lemma b64_pad_below (v : Q) :
  within page_limit v -> (b64 (v - 1) < v)%Q.
Proof.
  unfold within, page_limit. intros H.
  change (inject_Z (2 ^ 50)) with 1125899906842624%Q in H.
  destruct (b64_within (v - 1) 1125899906842625) as [_ H2]; [lra |].
  unfold eps64 in H2. lra.
Qed.

(** A sum of at least [t], rounded, padded and rounded again, lies
    beyond [t]. *)
Lemma b64_pad_above (s t : Q) :
  (t <= s)%Q -> (- page_limit - 1 <= t <= page_limit)%Q ->
  (t + (1 # 2) < b64 (b64 s + 1))%Q.
Proof.
  unfold page_limit. intros Hts Ht.
  change (inject_Z (2 ^ 50)) with 1125899906842624%Q in *.
  destruct (Qlt_le_dec 1688849860263936 s) as [Hbig | Hsmall].
  - destruct (b64_nonneg s) as [Hs _]; [lra |].
    unfold eps64 in Hs. set (S := b64 s) in *.
    destruct (b64_nonneg (S + 1)) as [Hr _]; [lra |].
    unfold eps64 in Hr. set (R := b64 (S + 1)) in *. lra.
  - destruct (b64_within s 1688849860263936) as [Hs Hs']; [lra |].
    unfold eps64 in Hs, Hs'. set (S := b64 s) in *.
    destruct (b64_within (S + 1) 1688849860263938) as [Hr _]; [lra |].
    unfold eps64 in Hr. set (R := b64 (S + 1)) in *. lra.
Qed.

(** The far edge: the extent is at least the rounded difference. *)
Lemma b64_far_edge (a b w : Q) :
  within page_limit a -> within page_limit b -> (a < b)%Q ->
  (b64 (b - a) <= w)%Q ->
  (b < b64 (b64 (a + w) + 1))%Q.
Proof.
  unfold within, page_limit. intros Ha Hb Hab Hw.
  change (inject_Z (2 ^ 50)) with 1125899906842624%Q in *.
  destruct (b64_within (b - a) 2251799813685248) as [Hd _]; [lra |].
  unfold eps64 in Hd. set (d := b64 (b - a)) in *.
  pose proof (b64_pad_above (a + w) (b - (1 # 2))) as H.
  unfold page_limit in H.
  change (inject_Z (2 ^ 50)) with 1125899906842624%Q in H.
  assert (H' : (b - (1 # 2) + (1 # 2) < b64 (b64 (a + w) + 1))%Q)
    by (apply H; lra).
  lra.
Qed.

(** C3 as amended.  Over binary64 numbers: for a span bbox with [x1 > x0] and
    [y1 > y0], a positive font size and coordinates of at most [2^50]
    in absolute value, the region made by [create_better_redaction_rect]
    strictly contains the bbox on all four sides, whatever the text the
    estimate is taken over. *)
Theorem C3_redaction_rect_strictly_contains_bbox
    (b : Rect) (text : str) (font_size : Q) :
  (x0 b < x1 b)%Q -> (y0 b < y1 b)%Q -> (0 < font_size)%Q ->
  within page_limit (x0 b) -> within page_limit (y0 b) ->
  within page_limit (x1 b) -> within page_limit (y1 b) ->
  let region := F64.create_better_redaction_rect b text font_size in
  (x0 region < x0 b /\ y0 region < y0 b /\ x1 region > x1 b /\ y1 region > y1 b)%Q.
Proof.
  intros Hx Hy _ Hx0 Hy0 Hx1 Hy1.
  unfold F64.create_better_redaction_rect.
  destruct (F64.calculate_text_dimensions text font_size) as [tw th]; simpl.
  split; [| split; [| split]].
  - apply b64_pad_below; exact Hx0.
  - apply b64_pad_below; exact Hy0.
  - apply b64_far_edge; auto using py_max_ge_l.
  - apply b64_far_edge; auto using py_max_ge_l.
Qed.

Lemma C3_redaction_rect_strictly_contains_bbox_witness :
  let b := bbox copay_task in
  let region := F64.task_redaction_rect copay_task in
  (x0 region < x0 b /\ y0 region < y0 b /\ x1 region > x1 b /\ y1 region > y1 b)%Q.
Proof.
  apply (C3_redaction_rect_strictly_contains_bbox
           (bbox copay_task) (original copay_task) (size (font_info copay_task)));
    try reflexivity; split; vm_compute; discriminate.
Defined.

(** C3 as stated fails: the bbox from [2^57] to [2^57 + 128]
    (binary64 numbers, 32 apart at this magnitude) is 128 wide and 10
    high, and the region made for it has the same left edge and the same
    right edge as the bbox, the padding of 1 being rounded away. *)
Lemma C3_counterexample_far_from_origin :
  let b := bbox far_task in
  let region := F64.task_redaction_rect far_task in
  forallb is_b64 [x0 b; y0 b; x1 b; y1 b; size (font_info far_task)] = true
  /\ (x0 b < x1 b)%Q /\ (y0 b < y1 b)%Q /\ (0 < size (font_info far_task))%Q
  /\ (x0 region == x0 b)%Q /\ (x1 region == x1 b)%Q
  /\ ~ (x0 region < x0 b /\ y0 region < y0 b
        /\ x1 region > x1 b /\ y1 region > y1 b)%Q.
Proof.
  cbv zeta.
  assert (E : (x0 (F64.task_redaction_rect far_task) == x0 (bbox far_task))%Q)
    by (apply Qeq_bool_iff; vm_compute; reflexivity).
  split; [vm_compute; reflexivity |].
  split; [reflexivity |]. split; [reflexivity |]. split; [reflexivity |].
  split; [exact E |].
  split; [apply Qeq_bool_iff; vm_compute; reflexivity |].
  intros [H _]. rewrite E in H. apply (Qlt_irrefl _ H).
Qed.

(** X12.  Over binary64 numbers the redaction region strictly covers
    the estimated box of the text it is sized over, anchored at the
    top-left corner of the bbox, as long as that corner and the far
    corner of the estimated box stay within [2^50] of the origin. *)
Theorem redaction_rect_covers_estimate (b : Rect) (text : str) (font_size : Q) :
  let estimate := F64.calculate_text_dimensions text font_size in
  let region := F64.create_better_redaction_rect b text font_size in
  within page_limit (x0 b) -> within page_limit (y0 b) ->
  within page_limit (x0 b + fst estimate) ->
  within page_limit (y0 b + snd estimate) ->
  (x0 region < x0 b /\ y0 region < y0 b
   /\ x0 b + fst estimate < x1 region /\ y0 b + snd estimate < y1 region)%Q.
Proof.
  cbv zeta. unfold F64.create_better_redaction_rect.
  destruct (F64.calculate_text_dimensions text font_size) as [tw th]; simpl.
  unfold within. intros Hx0 Hy0 Hw Hh.
  pose proof (py_max_ge_r (b64 (x1 b - x0 b)) tw) as Mw.
  pose proof (py_max_ge_r (b64 (y1 b - y0 b)) th) as Mh.
  split; [apply b64_pad_below; exact Hx0 |].
  split; [apply b64_pad_below; exact Hy0 |].
  split.
  - pose proof (b64_pad_above (x0 b + py_max (b64 (x1 b - x0 b)) tw) (x0 b + tw)) as H.
    assert (H' : (x0 b + tw + (1 # 2)
                  < b64 (b64 (x0 b + py_max (b64 (x1 b - x0 b)) tw) + 1))%Q)
      by (apply H; lra).
    lra.
  - pose proof (b64_pad_above (y0 b + py_max (b64 (y1 b - y0 b)) th) (y0 b + th)) as H.
    assert (H' : (y0 b + th + (1 # 2)
                  < b64 (b64 (y0 b + py_max (b64 (y1 b - y0 b)) th) + 1))%Q)
      by (apply H; lra).
    lra.
Qed.

Lemma redaction_rect_covers_estimate_witness :
  let b := mkRect 10 10 40 22 in
  let estimate := F64.calculate_text_dimensions (lit "Deductible") 12 in
  let region := F64.create_better_redaction_rect b (lit "Deductible") 12 in
  (x1 b < x0 b + fst estimate)%Q
  /\ (x0 region < x0 b /\ y0 region < y0 b
      /\ x0 b + fst estimate < x1 region /\ y0 b + snd estimate < y1 region)%Q.
Proof.
  split; [reflexivity |].
  apply (redaction_rect_covers_estimate (mkRect 10 10 40 22) (lit "Deductible") 12);
    split; vm_compute; discriminate.
Defined.

(* ===================================================================== *)
(** ** The vote of [v4.py] *)
(* ===================================================================== *)

Section VoteFacts.
Variable py_round : Qc -> Z -> Qc.

Lemma read_sample_quantized (pix : Pixmap) (x y : Z) :
  match read_sample py_round pix x y with
  | Ok (r, g, b) =>
      exists cr cg cb rest,
        pix_pixel pix x y = Ok (cr :: cg :: cb :: rest)
        /\ (py_round r 1, py_round g 1, py_round b 1)
           = (quantized py_round cr, quantized py_round cg, quantized py_round cb)
  | Exn =>
      match pix_pixel pix x y with
      | Ok (_ :: _ :: _ :: _) => False
      | _ => True
      end
  end.
Proof.
  unfold read_sample.
  destruct (pix_pixel pix x y) as [p |]; [| exact I].
  destruct p as [| cr [| cg [| cb rest]]]; simpl; try exact I.
  exists cr, cg, cb, rest. split; reflexivity.
Qed.

Lemma map_flat_map {A B C} (f : B -> C) (g : A -> list B) (l : list A) :
  map f (flat_map g l) = flat_map (fun a => map f (g a)) l.
Proof.
  induction l as [| a l IH]; [reflexivity |].
  cbn [flat_map]. rewrite map_app, IH. reflexivity.
Qed.

(** The colours [v4.py] votes over are the quantised samples of the
    five points. *)
Lemma v4_rounded_colors (pix : Pixmap) (bbox : Rect) (zoom : Z) :
  rounded_colors py_round (V4.colors py_round pix (V4.sample_coords bbox zoom))
  = v4_samples py_round pix bbox zoom.
Proof.
  unfold v4_samples, rounded_colors, V4.colors.
  change (V4.sample_coords bbox zoom) with (v4_points bbox zoom).
  rewrite map_flat_map. apply flat_map_ext. intros [x y].
  unfold v4_sample.
  destruct ((0 <=? x) && (x <? pix_width pix) && (0 <=? y) && (y <? pix_height pix))%bool;
    [| reflexivity].
  pose proof (read_sample_quantized pix x y) as H.
  destruct (read_sample py_round pix x y) as [[[r g] b] |].
  - destruct H as (cr & cg & cb & rest & -> & E). simpl. rewrite E. reflexivity.
  - destruct (pix_pixel pix x y) as [[| cr [| cg [| cb rest]]] |];
      try reflexivity. destruct H.
Qed.
End VoteFacts.

(** X23.  [detect_background_color] of [v4.py] always returns a colour
    and never raises.  When the page cannot be rendered the colour is
    white (1, 1, 1).  Otherwise the samples are taken at the centre of
    the scaled bbox and at its four corners moved 5 pixels inwards, in
    this order, at the points inside the raster whose pixel can be
    read; each channel is [round(round(c / 255, 2), 1)].  Without
    samples the colour is white; else it is the most frequent sample,
    and among equally frequent ones the one sampled first. *)
Theorem v4_background_vote
    (py_round : Qc -> Z -> Qc) (page_get_pixmap : Z -> result Pixmap)
    (bbox : Rect) (zoom : Z) :
  exists c,
    V4.detect_background_color py_round page_get_pixmap bbox zoom = Ok c
    /\ match page_get_pixmap zoom with
       | Exn => c = white3
       | Ok pix =>
           let samples := v4_samples py_round pix bbox zoom in
           (samples = [] -> c = white3)
           /\ (samples <> [] -> most_frequent_first color3_eqb samples c)
       end.
Proof.
  unfold V4.detect_background_color, try_pure.
  destruct (page_get_pixmap zoom) as [pix |].
  - destruct (vote_spec py_round
                (V4.colors py_round pix (V4.sample_coords bbox zoom)))
      as (c & -> & Hnil & Hvote).
    exists c. split; [reflexivity |].
    cbv zeta. rewrite <- (v4_rounded_colors py_round pix bbox zoom).
    split.
    + intros E. apply Hnil. apply map_eq_nil in E. exact E.
    + intros N. apply Hvote. intros E. apply N. rewrite E. reflexivity.
  - exists white3. split; reflexivity.
Qed.

(** [round] on floats: 2.675 is held as a number just below it and
    rounds to 2.67; the grey level 89 is 0.34901960784313724 of 255,
    which rounds to 0.35, held as a number just below it, and then to
    0.3. *)
Example py_round64_runs :
  Qeq_bool (py_round64 (Q2Qc (2675 # 1000)) 2) (b64 (267 # 100)) = true
  /\ Qeq_bool (py_round64 (Q2Qc (inject_Z 89 / 255)) 2) (b64 (35 # 100)) = true
  /\ Qeq_bool (quantized py_round64 89) (b64 (3 # 10)) = true
  /\ Qeq_bool (quantized py_round64 0) 0 = true
  /\ Qeq_bool (quantized py_round64 255) 1 = true.
Proof. repeat split; vm_compute; reflexivity. Qed.

(** Three of the five points of the bbox (18, 5, 30, 30) at zoom 2 fall
    in the black half of the split raster and two in the white half:
    black wins.  On the black raster every sample is black. *)
Example v4_background_vote_runs :
  List.length (v4_samples py_round64 split_raster (mkRect 18 5 30 30) 2) = 5%nat
  /\ answers (V4.detect_background_color py_round64 (fun _ => Ok split_raster)
                (mkRect 18 5 30 30) 2) black3 = true
  /\ answers (V4.detect_background_color py_round64 (fun _ => Ok black_raster)
                (mkRect 10 10 40 22) 2) black3 = true.
Proof. repeat split; vm_compute; reflexivity. Qed.
